(** * Quality-of-service pipeline: a shallow embedding of the pandas stages

    The Python sources [_qos_transformations.py] and [_qos_metrics.py] are
    embedded as Rocq functions over typed tables.  A DataFrame is a list of
    column labels together with a list of typed rows; a float64 value is
    a rational ([Q]) and a null cell (pandas NaN) is [None].  The product
    of two float columns, the sum of a float column and the interpolation
    of a float column, whose results numpy and pandas round, are the
    operations of the class [Float64Ops]; PA_RATIO is the quotient of two
    counts.  Every stage runs in a small state-and-exception monad whose
    state is the DataFrame objects the caller passed in, so that in-place
    operations of the source ([inplace=True], [df[col] = ...] on an
    argument) are visible. *)

From Stdlib Require Import List ZArith QArith Qfield Bool String Ascii Lia Lra.
From Stdlib Require Import Permutation Sorted OrderedTypeEx.
Import ListNotations.

Local Open Scope Z_scope.
Local Open Scope string_scope.
Local Open Scope list_scope.

(** ** Exceptions and the stage monad *)

Inductive exn : Type :=
| TypeError
| ValueError
| KeyError
| MergeError.

Inductive result (A : Type) : Type :=
| Ok (a : A)
| Raise (e : exn).

Arguments Ok {A} a.
Arguments Raise {A} e.

(** A stage is a computation over the state [S] of its argument objects. *)
Definition M (S A : Type) : Type := S -> result A * S.

Definition ret {S A} (a : A) : M S A := fun s => (Ok a, s).

Definition bind {S A B} (m : M S A) (k : A -> M S B) : M S B :=
  fun s =>
    match m s with
    | (Ok a, s') => k a s'
    | (Raise e, s') => (Raise e, s')
    end.

Definition raise {S A} (e : exn) : M S A := fun s => (Raise e, s).

Definition get_args {S} : M S S := fun s => (Ok s, s).

Definition put_args {S} (s : S) : M S unit := fun _ => (Ok tt, s).

Definition lift {S A} (r : result A) : M S A := fun s => (r, s).

Notation "x <- m ;; k" := (bind m (fun x => k))
  (at level 61, m at next level, right associativity).
Notation "m ;;; k" := (bind m (fun _ => k))
  (at level 61, right associativity).

(** The value a stage returns, and the argument objects after the call. *)
Definition returned {S A} (m : M S A) (s : S) : result A := fst (m s).
Definition args_after {S A} (m : M S A) (s : S) : S := snd (m s).

(** ** Keys: the values tables are joined, grouped and sorted on *)

Class Key (K : Type) : Type := {
  keqb : K -> K -> bool;
  kleb : K -> K -> bool;
  keqb_eq : forall a b, keqb a b = true <-> a = b;
  kleb_total : forall a b, kleb a b = true \/ kleb b a = true;
  kleb_trans : forall a b c, kleb a b = true -> kleb b c = true -> kleb a c = true;
  kleb_antisym : forall a b, kleb a b = true -> kleb b a = true -> a = b
}.

Lemma Z_leb_total (a b : Z) : Z.leb a b = true \/ Z.leb b a = true.
Proof. destruct (Z.leb_spec a b), (Z.leb_spec b a); auto; lia. Qed.

Lemma Z_leb_trans (a b c : Z) :
  Z.leb a b = true -> Z.leb b c = true -> Z.leb a c = true.
Proof. rewrite !Z.leb_le. lia. Qed.

Lemma Z_leb_antisym (a b : Z) : Z.leb a b = true -> Z.leb b a = true -> a = b.
Proof. rewrite !Z.leb_le. lia. Qed.

#[export] Instance Key_Z : Key Z := {|
  keqb := Z.eqb;
  kleb := Z.leb;
  keqb_eq := Z.eqb_eq;
  kleb_total := Z_leb_total;
  kleb_trans := Z_leb_trans;
  kleb_antisym := Z_leb_antisym
|}.

Lemma string_leb_trans (a b c : string) :
  String.leb a b = true -> String.leb b c = true -> String.leb a c = true.
Proof.
  unfold String.leb. intros Hab Hbc.
  destruct (String.compare a b) eqn:Eab; try discriminate.
  - apply String_as_OT.cmp_eq in Eab. now subst.
  - destruct (String.compare b c) eqn:Ebc; try discriminate.
    + apply String_as_OT.cmp_eq in Ebc. subst. now rewrite Eab.
    + apply String_as_OT.cmp_lt in Eab, Ebc.
      pose proof (String_as_OT.lt_trans _ _ _ Eab Ebc) as Hac.
      apply String_as_OT.cmp_lt in Hac. unfold String_as_OT.cmp in Hac.
      now rewrite Hac.
Qed.

#[export] Instance Key_string : Key string := {|
  keqb := String.eqb;
  kleb := String.leb;
  keqb_eq := String.eqb_eq;
  kleb_total := String.leb_total;
  kleb_trans := string_leb_trans;
  kleb_antisym := String.leb_antisym
|}.

(** Tuples are equal componentwise and ordered lexicographically, like a
    multi-column join key or sort key. *)
Definition pair_eqb {A B} `{Key A} `{Key B} (x y : A * B) : bool :=
  if keqb (snd x) (snd y) then keqb (fst x) (fst y) else false.

Definition pair_leb {A B} `{Key A} `{Key B} (x y : A * B) : bool :=
  if keqb (fst x) (fst y) then kleb (snd x) (snd y) else kleb (fst x) (fst y).

Lemma kleb_refl {K} `{Key K} (a : K) : kleb a a = true.
Proof. destruct (kleb_total a a); assumption. Qed.

Lemma keqb_refl {K} `{Key K} (a : K) : keqb a a = true.
Proof. now apply keqb_eq. Qed.

Lemma keqb_neq {K} `{Key K} (a b : K) : keqb a b = false <-> a <> b.
Proof.
  split.
  - intros E ->. now rewrite keqb_refl in E.
  - intro N. destruct (keqb a b) eqn:E; [|reflexivity].
    apply keqb_eq in E. contradiction.
Qed.

Lemma keqb_sym {K} `{Key K} (a b : K) : keqb a b = keqb b a.
Proof.
  destruct (keqb a b) eqn:E.
  - apply keqb_eq in E. subst. now rewrite keqb_refl.
  - destruct (keqb b a) eqn:E'; [|reflexivity].
    apply keqb_eq in E'. subst. now rewrite keqb_refl in E.
Qed.

Lemma pair_eqb_eq {A B} `{Key A} `{Key B} (x y : A * B) :
  pair_eqb x y = true <-> x = y.
Proof.
  unfold pair_eqb. destruct x as [a b], y as [a' b']; simpl.
  destruct (keqb b b') eqn:E.
  - apply keqb_eq in E. subst. rewrite keqb_eq. split; congruence.
  - apply keqb_neq in E. split; [discriminate | congruence].
Qed.

Lemma pair_leb_total {A B} `{Key A} `{Key B} (x y : A * B) :
  pair_leb x y = true \/ pair_leb y x = true.
Proof.
  unfold pair_leb. rewrite (keqb_sym (fst y)).
  destruct (keqb (fst x) (fst y)); apply kleb_total.
Qed.

Lemma pair_leb_trans {A B} `{Key A} `{Key B} (x y z : A * B) :
  pair_leb x y = true -> pair_leb y z = true -> pair_leb x z = true.
Proof.
  unfold pair_leb.
  destruct (keqb (fst x) (fst y)) eqn:Exy.
  - apply keqb_eq in Exy. rewrite Exy.
    destruct (keqb (fst y) (fst z)); [apply kleb_trans | auto].
  - destruct (keqb (fst y) (fst z)) eqn:Eyz.
    + apply keqb_eq in Eyz. rewrite <- Eyz, Exy. auto.
    + intros Hxy Hyz. destruct (keqb (fst x) (fst z)) eqn:Exz.
      * apply keqb_eq in Exz. rewrite <- Exz in Hyz.
        assert (fst x = fst y) by now apply kleb_antisym.
        apply keqb_neq in Exy. contradiction.
      * eapply kleb_trans; eassumption.
Qed.

Lemma pair_leb_antisym {A B} `{Key A} `{Key B} (x y : A * B) :
  pair_leb x y = true -> pair_leb y x = true -> x = y.
Proof.
  unfold pair_leb. rewrite (keqb_sym (fst y)).
  destruct x as [a b], y as [a' b']; simpl.
  destruct (keqb a a') eqn:E.
  - apply keqb_eq in E. subst. intros. f_equal. now apply kleb_antisym.
  - intros. assert (a = a') by now apply kleb_antisym.
    apply keqb_neq in E. contradiction.
Qed.

#[export] Instance Key_pair {A B} `{Key A} `{Key B} : Key (A * B) := {|
  keqb := pair_eqb;
  kleb := pair_leb;
  keqb_eq := pair_eqb_eq;
  kleb_total := pair_leb_total;
  kleb_trans := pair_leb_trans;
  kleb_antisym := pair_leb_antisym
|}.

(** ** pandas primitives over lists of rows *)

Section Pandas.
Context {K : Type} `{Key K}.

(** [Index.is_unique] of a list of join keys. *)
Fixpoint is_unique (ks : list K) : bool :=
  match ks with
  | [] => true
  | k :: t => negb (existsb (keqb k) t) && is_unique t
  end.

(** [drop_duplicates()]: the first row of every key is kept, in order. *)
Fixpoint drop_duplicates_from {A} (key : A -> K) (seen : list K) (l : list A) : list A :=
  match l with
  | [] => []
  | a :: t =>
      if existsb (keqb (key a)) seen
      then drop_duplicates_from key seen t
      else a :: drop_duplicates_from key (key a :: seen) t
  end.

Definition drop_duplicates {A} (key : A -> K) (l : list A) : list A :=
  drop_duplicates_from key [] l.

(** The right rows whose key equals the key of left row [l]. *)
Definition matches {L R} (kl : L -> K) (kr : R -> K) (right : list R) (l : L) : list R :=
  filter (fun r => keqb (kl l) (kr r)) right.

(** [left.merge(right, how='left')]: left order is kept, a left row with
    no match gets null right columns. *)
Definition merge_left {L R} (kl : L -> K) (kr : R -> K)
    (left : list L) (right : list R) : list (L * option R) :=
  flat_map (fun l =>
    match matches kl kr right l with
    | [] => [(l, None)]
    | ms => map (fun r => (l, Some r)) ms
    end) left.

(** [left.merge(right)] with the default [how='inner']: a left row with
    no match is absent from the result. *)
Definition merge_inner {L R} (kl : L -> K) (kr : R -> K)
    (left : list L) (right : list R) : list (L * R) :=
  flat_map (fun l => map (fun r => (l, r)) (matches kl kr right l)) left.

(** [validate='one_to_one']: the merge keys must be unique on both sides;
    [validate='many_to_one']: unique on the right side. *)
Definition validate_one_to_one {L R} (kl : L -> K) (kr : R -> K)
    (left : list L) (right : list R) : result unit :=
  if is_unique (map kl left) && is_unique (map kr right)
  then Ok tt else Raise MergeError.

Definition validate_many_to_one {R} (kr : R -> K) (right : list R) : result unit :=
  if is_unique (map kr right) then Ok tt else Raise MergeError.

(** [sort_values(by=...)] on several columns is a stable sort: a merge
    sort that takes the earlier row on equal keys. *)
Fixpoint merge_rows {A} (by_ : A -> K) (l1 : list A) : list A -> list A :=
  fix merge_aux (l2 : list A) : list A :=
    match l1, l2 with
    | [], _ => l2
    | _, [] => l1
    | a1 :: l1', a2 :: l2' =>
        if kleb (by_ a1) (by_ a2) then a1 :: merge_rows by_ l1' l2
        else a2 :: merge_aux l2'
    end.

(** Sorted runs of doubling size, the most recent rows first. *)
Fixpoint push_run {A} (by_ : A -> K) (stack : list (option (list A))) (l : list A)
  : list (option (list A)) :=
  match stack with
  | [] => [Some l]
  | None :: stack' => Some l :: stack'
  | Some l' :: stack' => None :: push_run by_ stack' (merge_rows by_ l' l)
  end.

Fixpoint merge_runs {A} (by_ : A -> K) (stack : list (option (list A))) : list A :=
  match stack with
  | [] => []
  | None :: stack' => merge_runs by_ stack'
  | Some l :: stack' => merge_rows by_ (merge_runs by_ stack') l
  end.

Fixpoint sort_from {A} (by_ : A -> K) (stack : list (option (list A))) (l : list A)
  : list A :=
  match l with
  | [] => merge_runs by_ stack
  | a :: l' => sort_from by_ (push_run by_ stack [a]) l'
  end.

Definition sort_values {A} (by_ : A -> K) (l : list A) : list A :=
  sort_from by_ [] l.

(** The sorted distinct keys of a [groupby]. *)
Definition group_keys (ks : list K) : list K :=
  drop_duplicates (fun k => k) (sort_values (fun k => k) ks).

(** Last value seen per group, as [groupby(...).ffill()] carries it. *)
Fixpoint last_seen {V} (seen : list (K * V)) (k : K) : option V :=
  match seen with
  | [] => None
  | (k', v) :: t => if keqb k k' then Some v else last_seen t k
  end.

Fixpoint remember {V} (seen : list (K * V)) (k : K) (v : V) : list (K * V) :=
  match seen with
  | [] => [(k, v)]
  | (k', v') :: t => if keqb k k' then (k, v) :: t
                     else (k', v') :: remember t k v
  end.

(** [df.groupby(key)[col].ffill()] written back to [col]: rows keep
    their positions; a null cell takes the last non-null value met
    earlier in the same group, and stays null when there is none. *)
Fixpoint ffill_from {A V} (key : A -> K) (get : A -> option V)
    (set : A -> option V -> A) (seen : list (K * V)) (l : list A) : list A :=
  match l with
  | [] => []
  | a :: t =>
      match get a with
      | Some v => a :: ffill_from key get set (remember seen (key a) v) t
      | None => set a (last_seen seen (key a)) :: ffill_from key get set seen t
      end
  end.

Definition groupby_ffill {A V} (key : A -> K) (get : A -> option V)
    (set : A -> option V -> A) (l : list A) : list A :=
  ffill_from key get set [] l.

(** The rows of one group. *)
Definition group_rows {A} (key : A -> K) (l : list A) (k : K) : list A :=
  filter (fun a => keqb k (key a)) l.

(** [df.groupby(key)[col].agg()] followed by [reset_index()]: one row
    per distinct key, keys sorted. *)
Definition groupby_agg {A B} (key : A -> K) (agg : list A -> B) (l : list A) : list (K * B) :=
  map (fun k => (k, agg (group_rows key l k))) (group_keys (map key l)).
End Pandas.

(** ** float64 arithmetic

    The stages multiply two float columns, sum a float column per group
    and interpolate a float column.  numpy and pandas round the result of
    each of these operations to float64, so the operations are kept as an
    interface: what is proved of a stage holds for whatever values they
    return.
    - [float_mul x y] is [x * y];
    - [group_sum l] is [groupby(...).sum()] of the non-null values [l] of
      one group, taken in row order; the sum of no value is 0;
    - [np_interp a b steps span] is the value [numpy.interp] gives
      [steps] positions after a known value [a] when the next known value
      [b] lies [span] positions after [a]: the line from [a] to [b]
      evaluated at [steps / span]. *)
Class Float64Ops : Type := {
  float_mul : Q -> Q -> Q;
  group_sum : list Q -> Q;
  np_interp : Q -> Q -> Z -> Z -> Q;
  group_sum_nil : group_sum [] = 0%Q
}.

(** Exact arithmetic: no operation rounds.  The examples are evaluated
    with it. *)
#[export] Instance exact_arithmetic : Float64Ops := {|
  float_mul := Qmult;
  group_sum := fold_right (fun q acc => Qred (q + acc)) 0%Q;
  np_interp := fun a b steps span => (a + (b - a) * inject_Z steps / inject_Z span)%Q;
  group_sum_nil := eq_refl
|}.

(** The non-null cells of a column, in order. *)
Definition known {A} (l : list (option A)) : list A :=
  flat_map (fun o => match o with Some a => [a] | None => [] end) l.

(** [sum()] of a float column skips nulls; an all-null group sums to 0. *)
Definition nansum `{Float64Ops} (l : list (option Q)) : Q := group_sum (known l).

Definition sum_Z (l : list Z) : Z := fold_right Z.add 0 l.

(** [nunique()]: the number of distinct values. *)
Definition nunique {V} `{Key V} (l : list V) : Z :=
  Z.of_nat (List.length (drop_duplicates (fun v => v) l)).

(** Python's [min] and [max] of a list: [ValueError] on an empty list. *)
Definition py_min (l : list Z) : result Z :=
  match l with
  | [] => Raise ValueError
  | x :: t => Ok (fold_left Z.min t x)
  end.

Definition py_max (l : list Z) : result Z :=
  match l with
  | [] => Raise ValueError
  | x :: t => Ok (fold_left Z.max t x)
  end.

(** [Series.interpolate(method='linear')]: the values are taken as equally
    spaced by position.  A null between two known values lies on the line
    through them; nulls before the first known value stay null; nulls after
    the last known value take that value. *)
Fixpoint next_known (l : list (option Q)) : option (Z * Q) :=
  match l with
  | [] => None
  | Some v :: _ => Some (1, v)
  | None :: t =>
      match next_known t with
      | Some (d, v) => Some (d + 1, v)
      | None => None
      end
  end.

(** [prev] is the last known value and [gap] the number of positions
    since it. *)
Fixpoint interpolate_from `{Float64Ops} (prev : option Q) (gap : Z) (l : list (option Q))
  : list (option Q) :=
  match l with
  | [] => []
  | Some v :: t => Some v :: interpolate_from (Some v) 1 t
  | None :: t =>
      match prev with
      | None => None
      | Some a =>
          match next_known t with
          | None => Some a
          | Some (d, b) =>
              Some (np_interp a b gap (gap + d))
          end
      end :: interpolate_from prev (gap + 1) t
  end.

Definition interpolate_linear `{Float64Ops} (l : list (option Q)) : list (option Q) :=
  interpolate_from None 0 l.

(** ** Tables *)

Record DataFrame (R : Type) : Type := {
  columns : list string;
  rows : list R
}.

Arguments columns {R} d.
Arguments rows {R} d.

(** [set(required) == set(df.columns.tolist())] *)
Definition subset_of (a b : list string) : bool :=
  forallb (fun x => existsb (String.eqb x) b) a.

Definition same_column_set (required cols : list string) : bool :=
  subset_of required cols && subset_of cols required.

(** [df.drop(columns=c)] on the column labels. *)
Definition drop_column (c : string) (cols : list string) : list string :=
  filter (fun x => negb (String.eqb x c)) cols.

(** [qos_data.csv]: one row per location, product and date.  [qd_DATE] is
    [None] once the [DATE] column has been dropped from the object. *)
Record QosDataRow : Type := {
  qd_LOCATION : string;
  qd_PRODUCT : Z;
  qd_INVENTORY_CURVE_ID : Z;
  qd_CONSUMPTION_PROFILE_CURVE_ID : Z;
  qd_DATE : option string
}.

(** [qos_curves.csv]: a sparse weekly curve, [X] the minutes, [Y] the values. *)
Record CurveRow : Type := {
  cv_CURVE_ID : Z;
  cv_CURVE_TYPE : string;
  cv_WEEK_START : string;
  cv_X : list Z;
  cv_Y : list Q
}.

Record InventoryCurveRecord : Type := {
  ic_LOCATION : string;
  ic_PRODUCT : Z;
  ic_INVENTORY_CURVE_ID : Z;
  ic_CONSUMPTION_PROFILE_CURVE_ID : Z;
  ic_WEEK_START : string;
  ic_X : list Z;
  ic_Y : list Q
}.

Record ConsumptionCurveRecord : Type := {
  cc_LOCATION : string;
  cc_CONSUMPTION_PROFILE_CURVE_ID : Z;
  cc_WEEK_START : string;
  cc_X : list Z;
  cc_Y : list Q
}.

Record TimePoint : Type := {
  tg_LOCATION : string;
  tg_CONSUMPTION_PROFILE_CURVE_ID : Z;
  tg_WEEK_START : string;
  tg_X : Z
}.

(** A row of [product_inventory_grid].  [pi_CONSUMPTION_PROFILE_CURVE_ID]
    is the number the cell holds, an int64 or a float64 with an integral
    value.  [pi_PRODUCT_IN_STOCK] is [None] as long as the object has no
    such column. *)
Record ProductInventoryRow : Type := {
  pi_LOCATION : string;
  pi_WEEK_START : string;
  pi_X : Z;
  pi_INVENTORY_CURVE_ID : Z;
  pi_PRODUCT : Z;
  pi_CONSUMPTION_PROFILE_CURVE_ID : option Z;
  pi_Y : option Q;
  pi_PRODUCT_IN_STOCK : option Z
}.

Record AvailabilityRow : Type := {
  pa_LOCATION : string;
  pa_CONSUMPTION_PROFILE_CURVE_ID : Z;
  pa_WEEK_START : string;
  pa_X : Z;
  pa_PA_RATIO : option Q
}.

Record ConsumptionInterpRow : Type := {
  ci_LOCATION : string;
  ci_CONSUMPTION_PROFILE_CURVE_ID : Z;
  ci_WEEK_START : string;
  ci_X : Z;
  ci_CONSUMPTION_Y : option Q
}.

(** A row of the result: the index [(LOCATION, WEEK_START)] and [QOS]. *)
Record QosRow : Type := {
  qs_LOCATION : string;
  qs_WEEK_START : string;
  qs_QOS : Q
}.

(** ** Steps shared by the stages *)

(** The column sets the stages require of their inputs. *)
Definition inventory_columns : list string :=
  ["LOCATION"; "PRODUCT"; "INVENTORY_CURVE_ID"; "CONSUMPTION_PROFILE_CURVE_ID";
   "WEEK_START"; "X"; "Y"].

Definition consumption_columns : list string :=
  ["LOCATION"; "CONSUMPTION_PROFILE_CURVE_ID"; "WEEK_START"; "X"; "Y"].

Definition time_grid_columns : list string :=
  ["LOCATION"; "CONSUMPTION_PROFILE_CURVE_ID"; "WEEK_START"; "X"].

Definition interp_columns : list string :=
  ["LOCATION"; "CONSUMPTION_PROFILE_CURVE_ID"; "WEEK_START"; "X"; "CONSUMPTION_Y"].

Definition availability_columns : list string :=
  ["LOCATION"; "CONSUMPTION_PROFILE_CURVE_ID"; "WEEK_START"; "X"; "PA_RATIO"].

(** [if not set(required) == set(df.columns.tolist()): raise ValueError] *)
Definition check_columns {S} (required cols : list string) : M S unit :=
  if same_column_set required cols then ret tt else raise ValueError.

(** [Series.apply(f)]: the first failing row raises. *)
Fixpoint apply_all {A B} (f : A -> result B) (l : list A) : result (list B) :=
  match l with
  | [] => Ok []
  | a :: t =>
      match f a with
      | Raise e => Raise e
      | Ok b =>
          match apply_all f t with
          | Raise e => Raise e
          | Ok bs => Ok (b :: bs)
          end
      end
  end.

(** The number of rows [df[mask]] keeps. *)
Definition shape0 {A} (mask : A -> bool) (l : list A) : nat :=
  List.length (filter mask l).

(** The two boundary checks on the [X] lists: every minimum must be 0 and
    every maximum 10079. *)
Definition check_boundary {S} (xs : list (list Z)) : M S unit :=
  mins <- lift (apply_all py_min xs) ;;
  (if negb (Nat.eqb (shape0 (fun m => negb (Z.eqb m 0)) mins) 0)
   then raise ValueError else ret tt) ;;;
  maxs <- lift (apply_all py_max xs) ;;
  (if negb (Nat.eqb (shape0 (fun m => negb (Z.eqb m 10079)) maxs) 0)
   then raise ValueError else ret tt).

(** [df.explode(list('XY'))]: an empty list counts as one element when the
    element counts of [X] and [Y] are compared; a mismatch is a
    [ValueError].  Both callers reach this step only after the boundary
    checks, hence with non-empty [X] lists, for which a row per list
    element is produced. *)
Definition mylen {A} (l : list A) : nat :=
  match l with
  | [] => 1%nat
  | _ => List.length l
  end.

Definition explode_XY {A B} (X : A -> list Z) (Y : A -> list Q)
    (mk : A -> Z -> Q -> B) (l : list A) : result (list B) :=
  if forallb (fun a => Nat.eqb (mylen (X a)) (mylen (Y a))) l
  then Ok (flat_map (fun a => map (fun p => mk a (fst p) (snd p)) (combine (X a) (Y a))) l)
  else Raise ValueError.

(** Matched rows of a left join. *)
Definition matched {L R} (l : list (L * option R)) : list (L * R) :=
  flat_map (fun p => match snd p with
                     | Some r => [(fst p, r)]
                     | None => []
                     end) l.

(** ** Stage: transform_qos_data *)

Definition drop_DATE (r : QosDataRow) : QosDataRow :=
  {| qd_LOCATION := qd_LOCATION r;
     qd_PRODUCT := qd_PRODUCT r;
     qd_INVENTORY_CURVE_ID := qd_INVENTORY_CURVE_ID r;
     qd_CONSUMPTION_PROFILE_CURVE_ID := qd_CONSUMPTION_PROFILE_CURVE_ID r;
     qd_DATE := None |}.

Definition qos_data_key (r : QosDataRow) : string * Z * Z * Z :=
  (qd_LOCATION r, qd_PRODUCT r, qd_INVENTORY_CURVE_ID r,
   qd_CONSUMPTION_PROFILE_CURVE_ID r).

Definition inventory_record (p : QosDataRow * CurveRow) : InventoryCurveRecord :=
  let (d, c) := p in
  {| ic_LOCATION := qd_LOCATION d;
     ic_PRODUCT := qd_PRODUCT d;
     ic_INVENTORY_CURVE_ID := qd_INVENTORY_CURVE_ID d;
     ic_CONSUMPTION_PROFILE_CURVE_ID := qd_CONSUMPTION_PROFILE_CURVE_ID d;
     ic_WEEK_START := cv_WEEK_START c;
     ic_X := cv_X c;
     ic_Y := cv_Y c |}.

Definition consumption_record (p : (string * Z) * CurveRow) : ConsumptionCurveRecord :=
  let (lc, c) := p in
  {| cc_LOCATION := fst lc;
     cc_CONSUMPTION_PROFILE_CURVE_ID := snd lc;
     cc_WEEK_START := cv_WEEK_START c;
     cc_X := cv_X c;
     cc_Y := cv_Y c |}.

Definition transform_qos_data
  : M (DataFrame QosDataRow * DataFrame CurveRow)
      (DataFrame InventoryCurveRecord * DataFrame ConsumptionCurveRecord) :=
  args <- get_args ;;
  let qos_data := fst args in
  let qos_curves := snd args in
  (* qos_data.drop(columns='DATE', inplace=True) *)
  (if existsb (String.eqb "DATE") (columns qos_data) then ret tt else raise KeyError) ;;;
  let qos_data := {| columns := drop_column "DATE" (columns qos_data);
                     rows := map drop_DATE (rows qos_data) |} in
  put_args (qos_data, qos_curves) ;;;
  (* qos_data.drop_duplicates(inplace=True) *)
  let qos_data := {| columns := columns qos_data;
                     rows := drop_duplicates qos_data_key (rows qos_data) |} in
  put_args (qos_data, qos_curves) ;;;
  let inventory_curves :=
    filter (fun c => String.eqb (cv_CURVE_TYPE c) "inventory") (rows qos_curves) in
  lift (validate_one_to_one qd_INVENTORY_CURVE_ID cv_CURVE_ID
          (rows qos_data) inventory_curves) ;;;
  let inventory_curves :=
    merge_inner qd_INVENTORY_CURVE_ID cv_CURVE_ID (rows qos_data) inventory_curves in
  let consumption_curves :=
    filter (fun c => String.eqb (cv_CURVE_TYPE c) "consumption_profile") (rows qos_curves) in
  let location_consumption :=
    drop_duplicates (fun p => p)
      (map (fun d => (qd_LOCATION d, qd_CONSUMPTION_PROFILE_CURVE_ID d)) (rows qos_data)) in
  lift (validate_one_to_one snd cv_CURVE_ID location_consumption consumption_curves) ;;;
  let consumption_curves :=
    merge_inner snd cv_CURVE_ID location_consumption consumption_curves in
  ret ({| columns := drop_column "CURVE_ID" (drop_column "CURVE_TYPE"
                       (columns qos_data ++ columns qos_curves));
          rows := map inventory_record inventory_curves |},
       {| columns := drop_column "CURVE_ID" (drop_column "CURVE_TYPE"
                       (["LOCATION"; "CONSUMPTION_PROFILE_CURVE_ID"] ++ columns qos_curves));
          rows := map consumption_record consumption_curves |}).

(** ** Stage: create_full_time_grid *)

Definition time_range : list Z := map Z.of_nat (seq 0 (Z.to_nat 10080)).

Arguments time_range : simpl never.

Definition time_point (p : (string * Z * string) * Z) : TimePoint :=
  let (lw, x) := p in
  {| tg_LOCATION := fst (fst lw);
     tg_CONSUMPTION_PROFILE_CURVE_ID := snd (fst lw);
     tg_WEEK_START := snd lw;
     tg_X := x |}.

Definition create_full_time_grid
  : M (DataFrame ConsumptionCurveRecord) (DataFrame TimePoint) :=
  consumption_curves <- get_args ;;
  check_columns consumption_columns (columns consumption_curves) ;;;
  let locations_week :=
    map (fun c => (cc_LOCATION c, cc_CONSUMPTION_PROFILE_CURVE_ID c, cc_WEEK_START c))
      (rows consumption_curves) in
  (* the cross join on the constant column key=1 *)
  let time_point_grid :=
    merge_inner (fun _ => 1) (fun _ => 1) locations_week time_range in
  ret {| columns := time_grid_columns; rows := map time_point time_point_grid |}.

(** ** Stage: create_product_inventory *)

(** A row of the exploded inventory curves. *)
Record InventorySample : Type := {
  is_LOCATION : string;
  is_PRODUCT : Z;
  is_INVENTORY_CURVE_ID : Z;
  is_CONSUMPTION_PROFILE_CURVE_ID : Z;
  is_WEEK_START : string;
  is_X : Z;
  is_Y : Q
}.

Definition inventory_sample (c : InventoryCurveRecord) (x : Z) (y : Q) : InventorySample :=
  {| is_LOCATION := ic_LOCATION c;
     is_PRODUCT := ic_PRODUCT c;
     is_INVENTORY_CURVE_ID := ic_INVENTORY_CURVE_ID c;
     is_CONSUMPTION_PROFILE_CURVE_ID := ic_CONSUMPTION_PROFILE_CURVE_ID c;
     is_WEEK_START := ic_WEEK_START c;
     is_X := x;
     is_Y := y |}.

(** [(LOCATION, INVENTORY_CURVE_ID, PRODUCT, WEEK_START)] *)
Definition CurveId : Type := string * Z * Z * string.
(** [(LOCATION, WEEK_START, X)] *)
Definition Minute : Type := string * string * Z.

Definition curve_id_of (s : InventorySample) : CurveId :=
  (is_LOCATION s, is_INVENTORY_CURVE_ID s, is_PRODUCT s, is_WEEK_START s).

Definition minute_of (s : InventorySample) : Minute :=
  (is_LOCATION s, is_WEEK_START s, is_X s).

(** The join key [LOCATION, INVENTORY_CURVE_ID, WEEK_START, PRODUCT, X]. *)
Definition grid_key (p : Minute * CurveId) : string * Z * string * Z * Z :=
  let (t, c) := p in
  (fst (fst t), snd (fst (fst c)), snd (fst t), snd (fst c), snd t).

Definition sample_key (s : InventorySample) : string * Z * string * Z * Z :=
  (is_LOCATION s, is_INVENTORY_CURVE_ID s, is_WEEK_START s, is_PRODUCT s, is_X s).

(** [astype(float64)] of an int64: the nearest float64, ties to even.  An
    integer below 2^53 in absolute value is kept. *)
Definition float64_of_int (z : Z) : Z :=
  let a := Z.abs z in
  if Z.ltb a (2 ^ 53) then z
  else
    let e := Z.log2 a - 52 in
    let m := Z.shiftr a e in
    let r := a - Z.shiftl m e in
    let half := Z.shiftl 1 (e - 1) in
    let m' := if Z.ltb half r || (Z.eqb r half && Z.odd m) then m + 1 else m in
    Z.sgn z * Z.shiftl m' e.

(** The rows of a left join without a match: their right columns are
    null, and a right column of integers that gets a null cell is held as
    float64 in the whole table. *)
Definition some_unmatched {L R} (l : list (L * option R)) : bool :=
  existsb (fun p => match snd p with
                    | Some _ => false
                    | None => true
                    end) l.

Definition joined_int (as_float : bool) (z : Z) : Z :=
  if as_float then float64_of_int z else z.

Definition product_inventory_row (as_float : bool)
    (p : (Minute * CurveId) * option InventorySample) : ProductInventoryRow :=
  let (tc, o) := p in
  let (t, c) := tc in
  {| pi_LOCATION := fst (fst t);
     pi_WEEK_START := snd (fst t);
     pi_X := snd t;
     pi_INVENTORY_CURVE_ID := snd (fst (fst c));
     pi_PRODUCT := snd (fst c);
     pi_CONSUMPTION_PROFILE_CURVE_ID :=
       option_map (fun s => joined_int as_float (is_CONSUMPTION_PROFILE_CURVE_ID s)) o;
     pi_Y := option_map is_Y o;
     pi_PRODUCT_IN_STOCK := None |}.

Definition set_pi_Y (r : ProductInventoryRow) (y : option Q) : ProductInventoryRow :=
  {| pi_LOCATION := pi_LOCATION r;
     pi_WEEK_START := pi_WEEK_START r;
     pi_X := pi_X r;
     pi_INVENTORY_CURVE_ID := pi_INVENTORY_CURVE_ID r;
     pi_PRODUCT := pi_PRODUCT r;
     pi_CONSUMPTION_PROFILE_CURVE_ID := pi_CONSUMPTION_PROFILE_CURVE_ID r;
     pi_Y := y;
     pi_PRODUCT_IN_STOCK := pi_PRODUCT_IN_STOCK r |}.

Definition set_pi_CONSUMPTION_PROFILE_CURVE_ID (r : ProductInventoryRow) (c : option Z)
  : ProductInventoryRow :=
  {| pi_LOCATION := pi_LOCATION r;
     pi_WEEK_START := pi_WEEK_START r;
     pi_X := pi_X r;
     pi_INVENTORY_CURVE_ID := pi_INVENTORY_CURVE_ID r;
     pi_PRODUCT := pi_PRODUCT r;
     pi_CONSUMPTION_PROFILE_CURVE_ID := c;
     pi_Y := pi_Y r;
     pi_PRODUCT_IN_STOCK := pi_PRODUCT_IN_STOCK r |}.

(** The first join after the explode: the time points of every location
    and week against the curves of that location and week.  Every time
    point comes from a sample whose curve is in [curve_ids] under the same
    [(LOCATION, WEEK_START)], so this left join leaves no row unmatched
    (lemma [inventory_time_point_grid_matched]) and the curve columns of
    the grid are never null. *)
Definition inventory_time_point_grid (inventory_curves : list InventorySample)
  : list (Minute * option CurveId) :=
  let curve_ids := drop_duplicates (fun c => c) (map curve_id_of inventory_curves) in
  let time_points := drop_duplicates (fun t => t) (map minute_of inventory_curves) in
  merge_left (fun t : Minute => fst t)
             (fun c : CurveId => (fst (fst (fst c)), snd c))
             time_points curve_ids.

(** The second join: the samples onto the grid. *)
Definition joined_inventory_grid (inventory_curves : list InventorySample)
  : list ProductInventoryRow :=
  let joined :=
    merge_left grid_key sample_key
      (matched (inventory_time_point_grid inventory_curves)) inventory_curves in
  map (product_inventory_row (some_unmatched joined)) joined.

(** Everything after the explode: the two joins, the sort and the two
    forward fills. *)
Definition densify_inventory (inventory_curves : list InventorySample)
  : list ProductInventoryRow :=
  let product_inventory_grid := joined_inventory_grid inventory_curves in
  let product_inventory_grid :=
    sort_values (fun r => (pi_INVENTORY_CURVE_ID r, pi_X r)) product_inventory_grid in
  let product_inventory_grid :=
    groupby_ffill pi_INVENTORY_CURVE_ID pi_Y set_pi_Y product_inventory_grid in
  groupby_ffill (fun r => (pi_LOCATION r, pi_WEEK_START r))
    pi_CONSUMPTION_PROFILE_CURVE_ID set_pi_CONSUMPTION_PROFILE_CURVE_ID
    product_inventory_grid.

Definition create_product_inventory
  : M (DataFrame InventoryCurveRecord) (DataFrame ProductInventoryRow) :=
  inventory_curves <- get_args ;;
  check_columns inventory_columns (columns inventory_curves) ;;;
  check_boundary (map ic_X (rows inventory_curves)) ;;;
  inventory_curves <- lift (explode_XY ic_X ic_Y inventory_sample (rows inventory_curves)) ;;
  ret {| columns := ["LOCATION"; "WEEK_START"; "X"; "INVENTORY_CURVE_ID"; "PRODUCT";
                     "CONSUMPTION_PROFILE_CURVE_ID"; "Y"];
         rows := densify_inventory inventory_curves |}.

(** ** Stage: calc_product_availability_ratio *)

(** [(product_inventory_grid['Y'] >= 1).astype(int)]; a null compares false. *)
Definition in_stock (y : option Q) : Z :=
  match y with
  | Some q => if Qle_bool 1 q then 1 else 0
  | None => 0
  end.

Definition set_pi_PRODUCT_IN_STOCK (r : ProductInventoryRow) : ProductInventoryRow :=
  {| pi_LOCATION := pi_LOCATION r;
     pi_WEEK_START := pi_WEEK_START r;
     pi_X := pi_X r;
     pi_INVENTORY_CURVE_ID := pi_INVENTORY_CURVE_ID r;
     pi_PRODUCT := pi_PRODUCT r;
     pi_CONSUMPTION_PROFILE_CURVE_ID := pi_CONSUMPTION_PROFILE_CURVE_ID r;
     pi_Y := pi_Y r;
     pi_PRODUCT_IN_STOCK := Some (in_stock (pi_Y r)) |}.

Definition stock_of (r : ProductInventoryRow) : Z :=
  match pi_PRODUCT_IN_STOCK r with
  | Some s => s
  | None => 0
  end.

(** [PRODUCT_IN_STOCK / TOTAL_PRODUCT_COUNT]; null when the left join found
    no total. *)
Definition pa_ratio (p : (Minute * Z) * option ((string * string) * Z)) : option Q :=
  match snd p with
  | Some total => Some (inject_Z (snd (fst p)) / inject_Z (snd total))%Q
  | None => None
  end.

Definition availability_row (p : TimePoint * option (Minute * option Q)) : AvailabilityRow :=
  let (g, o) := p in
  {| pa_LOCATION := tg_LOCATION g;
     pa_CONSUMPTION_PROFILE_CURVE_ID := tg_CONSUMPTION_PROFILE_CURVE_ID g;
     pa_WEEK_START := tg_WEEK_START g;
     pa_X := tg_X g;
     pa_PA_RATIO := match o with
                    | Some r => snd r
                    | None => None
                    end |}.

Definition set_pa_PA_RATIO (r : AvailabilityRow) (q : option Q) : AvailabilityRow :=
  {| pa_LOCATION := pa_LOCATION r;
     pa_CONSUMPTION_PROFILE_CURVE_ID := pa_CONSUMPTION_PROFILE_CURVE_ID r;
     pa_WEEK_START := pa_WEEK_START r;
     pa_X := pa_X r;
     pa_PA_RATIO := q |}.

Definition time_point_minute (g : TimePoint) : Minute :=
  (tg_LOCATION g, tg_WEEK_START g, tg_X g).

(** The columns of [time_point_grid.merge(par_data, how='left')] once
    [PRODUCT_IN_STOCK] and [TOTAL_PRODUCT_COUNT] are dropped: the columns of
    the grid, in the order of the grid, then [PA_RATIO]. *)
Definition ratio_columns (grid_columns : list string) : list string :=
  drop_column "TOTAL_PRODUCT_COUNT"
    (drop_column "PRODUCT_IN_STOCK"
       (grid_columns ++ ["PRODUCT_IN_STOCK"; "TOTAL_PRODUCT_COUNT"; "PA_RATIO"])).

Definition calc_product_availability_ratio
  : M (DataFrame ProductInventoryRow * DataFrame TimePoint) (DataFrame AvailabilityRow) :=
  args <- get_args ;;
  let product_inventory_grid := fst args in
  let time_point_grid := snd args in
  check_columns inventory_columns (columns product_inventory_grid) ;;;
  check_columns time_grid_columns (columns time_point_grid) ;;;
  let distinct_products : list ((string * string) * Z) :=
    groupby_agg (fun r => (pi_WEEK_START r, pi_LOCATION r))
      (fun g => nunique (map pi_PRODUCT g)) (rows product_inventory_grid) in
  (* product_inventory_grid['PRODUCT_IN_STOCK'] = ... on the caller's object *)
  let product_inventory_grid :=
    {| columns := columns product_inventory_grid ++ ["PRODUCT_IN_STOCK"];
       rows := map set_pi_PRODUCT_IN_STOCK (rows product_inventory_grid) |} in
  put_args (product_inventory_grid, time_point_grid) ;;;
  let products_in_stock : list (Minute * Z) :=
    groupby_agg (fun r => (pi_LOCATION r, pi_WEEK_START r, pi_X r))
      (fun g => sum_Z (map stock_of g)) (rows product_inventory_grid) in
  let week_location := fun d : (string * string) * Z => (snd (fst d), fst (fst d)) in
  lift (validate_many_to_one week_location distinct_products) ;;;
  let par_data : list (Minute * option Q) :=
    map (fun p => (fst (fst p), pa_ratio p))
      (merge_left (fun s : Minute * Z => fst (fst s)) week_location
         products_in_stock distinct_products) in
  lift (validate_one_to_one time_point_minute fst (rows time_point_grid) par_data) ;;;
  let par_data :=
    map availability_row
      (merge_left time_point_minute fst (rows time_point_grid) par_data) in
  let product_availability_ratio :=
    sort_values (fun r => (pa_LOCATION r, pa_WEEK_START r, pa_X r)) par_data in
  ret {| columns := ratio_columns (columns time_point_grid);
         rows := groupby_ffill (fun r => (pa_LOCATION r, pa_WEEK_START r))
                   pa_PA_RATIO set_pa_PA_RATIO product_availability_ratio |}.

(** ** Stage: interpolate_consumption_curves *)

(** A row of the exploded consumption curves. *)
Record ConsumptionSample : Type := {
  cs_LOCATION : string;
  cs_CONSUMPTION_PROFILE_CURVE_ID : Z;
  cs_WEEK_START : string;
  cs_X : Z;
  cs_Y : Q
}.

Definition consumption_sample (c : ConsumptionCurveRecord) (x : Z) (y : Q)
  : ConsumptionSample :=
  {| cs_LOCATION := cc_LOCATION c;
     cs_CONSUMPTION_PROFILE_CURVE_ID := cc_CONSUMPTION_PROFILE_CURVE_ID c;
     cs_WEEK_START := cc_WEEK_START c;
     cs_X := x;
     cs_Y := y |}.

(** The join key [LOCATION, CONSUMPTION_PROFILE_CURVE_ID, WEEK_START, X]. *)
Definition time_point_key (g : TimePoint) : string * Z * string * Z :=
  (tg_LOCATION g, tg_CONSUMPTION_PROFILE_CURVE_ID g, tg_WEEK_START g, tg_X g).

Definition consumption_sample_key (s : ConsumptionSample) : string * Z * string * Z :=
  (cs_LOCATION s, cs_CONSUMPTION_PROFILE_CURVE_ID s, cs_WEEK_START s, cs_X s).

Definition joined_Y (p : TimePoint * option ConsumptionSample) : option Q :=
  option_map cs_Y (snd p).

Definition consumption_interp_row (p : (TimePoint * option ConsumptionSample) * option Q)
  : ConsumptionInterpRow :=
  let g := fst (fst p) in
  {| ci_LOCATION := tg_LOCATION g;
     ci_CONSUMPTION_PROFILE_CURVE_ID := tg_CONSUMPTION_PROFILE_CURVE_ID g;
     ci_WEEK_START := tg_WEEK_START g;
     ci_X := tg_X g;
     ci_CONSUMPTION_Y := snd p |}.

(** The join on the grid, the sort and the interpolation of the whole [Y]
    column of the sorted table. *)
Definition interpolate_on_grid `{Float64Ops} (time_point_grid : list TimePoint)
    (consumption_curves : list ConsumptionSample) : list ConsumptionInterpRow :=
  let consumption_curves :=
    merge_left time_point_key consumption_sample_key time_point_grid consumption_curves in
  let consumption_curves_interp :=
    sort_values (fun p => (tg_LOCATION (fst p), tg_WEEK_START (fst p), tg_X (fst p)))
      consumption_curves in
  map consumption_interp_row
    (combine consumption_curves_interp
       (interpolate_linear (map joined_Y consumption_curves_interp))).

Definition interpolate_consumption_curves `{Float64Ops}
  : M (DataFrame ConsumptionCurveRecord * DataFrame TimePoint)
      (DataFrame ConsumptionInterpRow) :=
  args <- get_args ;;
  let consumption_curves := fst args in
  let time_point_grid := snd args in
  check_boundary (map cc_X (rows consumption_curves)) ;;;
  consumption_curves <-
    lift (explode_XY cc_X cc_Y consumption_sample (rows consumption_curves)) ;;
  ret {| columns := drop_column "Y" (columns time_point_grid ++ ["Y"; "CONSUMPTION_Y"]);
         rows := interpolate_on_grid (rows time_point_grid) consumption_curves |}.

(** ** Stage: calc_quality_of_service *)

Definition interp_key (r : ConsumptionInterpRow) : string * Z * string * Z :=
  (ci_LOCATION r, ci_CONSUMPTION_PROFILE_CURVE_ID r, ci_WEEK_START r, ci_X r).

Definition availability_key (r : AvailabilityRow) : string * Z * string * Z :=
  (pa_LOCATION r, pa_CONSUMPTION_PROFILE_CURVE_ID r, pa_WEEK_START r, pa_X r).

(** A product with a null factor is null. *)
Definition mul_cells `{Float64Ops} (a b : option Q) : option Q :=
  match a, b with
  | Some x, Some y => Some (float_mul x y)
  | _, _ => None
  end.

(** [par_consum_data['QOS'] = PA_RATIO * CONSUMPTION_Y] *)
Definition row_QOS `{Float64Ops} (p : ConsumptionInterpRow * option AvailabilityRow)
  : option Q :=
  mul_cells (match snd p with
             | Some a => pa_PA_RATIO a
             | None => None
             end)
            (ci_CONSUMPTION_Y (fst p)).

Definition qos_row (p : (string * string) * Q) : QosRow :=
  {| qs_LOCATION := fst (fst p); qs_WEEK_START := snd (fst p); qs_QOS := snd p |}.

Definition calc_quality_of_service `{Float64Ops}
  : M (DataFrame ConsumptionInterpRow * DataFrame AvailabilityRow) (DataFrame QosRow) :=
  args <- get_args ;;
  let consumption_curves_interp := fst args in
  let product_availability_ratio := snd args in
  check_columns interp_columns (columns consumption_curves_interp) ;;;
  check_columns availability_columns (columns product_availability_ratio) ;;;
  lift (validate_one_to_one interp_key availability_key
          (rows consumption_curves_interp) (rows product_availability_ratio)) ;;;
  let par_consum_data :=
    merge_left interp_key availability_key
      (rows consumption_curves_interp) (rows product_availability_ratio) in
  let qos :=
    groupby_agg (fun p => (ci_LOCATION (fst p), ci_WEEK_START (fst p)))
      (fun g => nansum (map row_QOS g)) par_consum_data in
  ret {| columns := ["QOS"]; rows := map qos_row qos |}.

(** ** The pipeline of [main], between reading the input and writing the result *)

Definition call {S A} (stage : M S A) (args : S) : result (A * S) :=
  match stage args with
  | (Ok a, s) => Ok (a, s)
  | (Raise e, _) => Raise e
  end.

Definition and_then {A B} (r : result A) (k : A -> result B) : result B :=
  match r with
  | Ok a => k a
  | Raise e => Raise e
  end.

Definition qos_pipeline `{Float64Ops}
    (qos_data : DataFrame QosDataRow) (qos_curves : DataFrame CurveRow)
  : result (DataFrame QosRow) :=
  and_then (call transform_qos_data (qos_data, qos_curves)) (fun r1 =>
  let inventory_curves := fst (fst r1) in
  let consumption_curves := snd (fst r1) in
  and_then (call create_product_inventory inventory_curves) (fun r2 =>
  let product_inventory_grid := fst r2 in
  and_then (call create_full_time_grid consumption_curves) (fun r3 =>
  let time_point_grid := fst r3 in
  let consumption_curves := snd r3 in
  and_then (call calc_product_availability_ratio
              (product_inventory_grid, time_point_grid)) (fun r4 =>
  let product_availability_ratio := fst r4 in
  let time_point_grid := snd (snd r4) in
  and_then (call interpolate_consumption_curves
              (consumption_curves, time_point_grid)) (fun r5 =>
  let consumption_curves_interp := fst r5 in
  and_then (call calc_quality_of_service
              (consumption_curves_interp, product_availability_ratio)) (fun r6 =>
  Ok (fst r6))))))).

(** ** qos_api.py: the endpoints over the rows of the output file *)

(** A row read by [csv.DictReader]: a dict from field name to text, as
    its list of items. *)
Definition ApiRow : Type := list (string * string).

(** [i[key]]: KeyError when the row has no such field. *)
Fixpoint row_field (key : string) (i : ApiRow) : result string :=
  match i with
  | [] => Raise KeyError
  | (k, v) :: t => if String.eqb k key then Ok v else row_field key t
  end.

(** [[i for i in data if i[key] == value]] *)
Fixpoint select (key value : string) (data : list ApiRow) : result (list ApiRow) :=
  match data with
  | [] => Ok []
  | i :: t =>
      match row_field key i with
      | Raise e => Raise e
      | Ok v =>
          match select key value t with
          | Raise e => Raise e
          | Ok l => Ok (if String.eqb v value then i :: l else l)
          end
      end
  end.

(** The four endpoints, before [jsonify]. *)
Definition get_qos_data (qos_data : list ApiRow) : result (list ApiRow) := Ok qos_data.

Definition get_qos_by_location (qos_data : list ApiRow) (location : string)
  : result (list ApiRow) :=
  select "LOCATION" location qos_data.

Definition get_qos_by_location_and_date (qos_data : list ApiRow)
    (location week_start : string) : result (list ApiRow) :=
  match select "LOCATION" location qos_data with
  | Raise e => Raise e
  | Ok location => select "WEEK_START" week_start location
  end.

Definition get_qos_by_date (qos_data : list ApiRow) (week_start : string)
  : result (list ApiRow) :=
  select "WEEK_START" week_start qos_data.

(** * Properties *)

(** ** Column sets *)

(** The column set of a frame is exactly the required one. *)
Definition same_columns (required cols : list string) : Prop :=
  forall c, In c required <-> In c cols.

Lemma subset_of_incl (a b : list string) : subset_of a b = true <-> incl a b.
Proof.
  unfold subset_of, incl. rewrite forallb_forall. split.
  - intros Hs x Hx. apply Hs in Hx. apply existsb_exists in Hx.
    destruct Hx as [y [Hy E]]. apply String.eqb_eq in E. now subst.
  - intros Hs x Hx. apply existsb_exists. exists x. split; [auto|].
    apply String.eqb_refl.
Qed.

Lemma same_column_set_spec (required cols : list string) :
  same_column_set required cols = true <-> same_columns required cols.
Proof.
  unfold same_column_set, same_columns.
  rewrite andb_true_iff, !subset_of_incl. unfold incl. split.
  - intros [H1 H2] c. split; auto.
  - intros Hs. split; intros c; apply Hs.
Qed.

Lemma same_column_set_false (required cols : list string) :
  ~ same_columns required cols -> same_column_set required cols = false.
Proof.
  intro N. destruct (same_column_set required cols) eqn:E; [|reflexivity].
  apply same_column_set_spec in E. contradiction.
Qed.

Lemma check_columns_ok {S} (required cols : list string) (s : S) :
  same_columns required cols -> check_columns required cols s = (Ok tt, s).
Proof.
  intro Hs. apply same_column_set_spec in Hs.
  unfold check_columns. now rewrite Hs.
Qed.

Lemma check_columns_fails {S} (required cols : list string) (s : S) :
  ~ same_columns required cols ->
  check_columns required cols s = (Raise ValueError, s).
Proof.
  intro N. unfold check_columns. now rewrite (same_column_set_false _ _ N).
Qed.

Lemma check_columns_cases {S} (required cols : list string) (s : S) :
  check_columns required cols s = (Ok tt, s) \/
  check_columns required cols s = (Raise ValueError, s).
Proof. unfold check_columns. destruct (same_column_set required cols); auto. Qed.

Lemma extra_column_not_same (required cols : list string) (extra : string) :
  In extra cols -> ~ In extra required -> ~ same_columns required cols.
Proof. intros Hin Hnot Hs. apply Hnot, Hs, Hin. Qed.

(** C10. The four stages that check their input columns raise ValueError
    whenever the column set of an input differs from the required set, so
    an input with all required columns and one more is rejected too. *)
Theorem column_check_requires_exact_set `{Float64Ops} :
  (forall cc, ~ same_columns consumption_columns (columns cc) ->
     returned create_full_time_grid cc = Raise ValueError) /\
  (forall inv, ~ same_columns inventory_columns (columns inv) ->
     returned create_product_inventory inv = Raise ValueError) /\
  (forall pig tpg,
     ~ same_columns inventory_columns (columns pig) \/
     ~ same_columns time_grid_columns (columns tpg) ->
     returned calc_product_availability_ratio (pig, tpg) = Raise ValueError) /\
  (forall cci par,
     ~ same_columns interp_columns (columns cci) \/
     ~ same_columns availability_columns (columns par) ->
     returned calc_quality_of_service (cci, par) = Raise ValueError) /\
  (forall required cols extra,
     incl required cols -> In extra cols -> ~ In extra required ->
     ~ same_columns required cols).
Proof.
  repeat split.
  - intros cc N. unfold returned, create_full_time_grid, bind, get_args.
    now rewrite (check_columns_fails _ _ _ N).
  - intros inv N. unfold returned, create_product_inventory, bind, get_args.
    now rewrite (check_columns_fails _ _ _ N).
  - intros pig tpg N.
    unfold returned, calc_product_availability_ratio, bind, get_args. simpl.
    destruct (check_columns_cases (S := DataFrame ProductInventoryRow * DataFrame TimePoint)
                inventory_columns (columns pig) (pig, tpg)) as [E|E]; rewrite E; [|reflexivity].
    destruct N as [N|N].
    + rewrite (check_columns_fails _ _ _ N) in E. discriminate.
    + now rewrite (check_columns_fails _ _ _ N).
  - intros cci par N.
    unfold returned, calc_quality_of_service, bind, get_args. simpl.
    destruct (check_columns_cases (S := DataFrame ConsumptionInterpRow * DataFrame AvailabilityRow)
                interp_columns (columns cci) (cci, par)) as [E|E]; rewrite E; [|reflexivity].
    destruct N as [N|N].
    + rewrite (check_columns_fails _ _ _ N) in E. discriminate.
    + now rewrite (check_columns_fails _ _ _ N).
  - intros required cols extra _. apply extra_column_not_same.
Qed.

Definition grid_with_extra_column : DataFrame ConsumptionCurveRecord :=
  {| columns := consumption_columns ++ ["DATE"];
     rows := [ {| cc_LOCATION := "A"; cc_CONSUMPTION_PROFILE_CURVE_ID := 100;
                  cc_WEEK_START := "2023-06-12"; cc_X := [0; 10079];
                  cc_Y := [0; 1]%Q |} ] |}.

Lemma column_check_requires_exact_set_witness :
  returned create_full_time_grid grid_with_extra_column = Raise ValueError.
Proof.
  apply (proj1 column_check_requires_exact_set).
  apply (proj2 (proj2 (proj2 (proj2 column_check_requires_exact_set)))
           consumption_columns (columns grid_with_extra_column) "DATE").
  - intros c Hc. simpl. simpl in Hc. tauto.
  - simpl. tauto.
  - simpl. intros [E|[E|[E|[E|[E|[]]]]]]; discriminate.
Defined.

(** ** The boundary checks *)

Lemma fold_left_min_spec (l : list Z) (x : Z) :
  (fold_left Z.min l x = x \/ In (fold_left Z.min l x) l) /\
  fold_left Z.min l x <= x /\
  (forall y, In y l -> fold_left Z.min l x <= y).
Proof.
  revert x. induction l as [|a l IH]; intro x; simpl.
  - repeat split; [auto | lia | tauto].
  - destruct (IH (Z.min x a)) as [H1 [H2 H3]]. repeat split.
    + destruct H1 as [H1|H1]; [|auto].
      rewrite H1. destruct (Z.min_spec x a) as [[_ E]|[_ E]]; rewrite E; auto.
    + lia.
    + intros y [->|Hy]; [lia | auto].
Qed.

Lemma fold_left_max_spec (l : list Z) (x : Z) :
  (fold_left Z.max l x = x \/ In (fold_left Z.max l x) l) /\
  x <= fold_left Z.max l x /\
  (forall y, In y l -> y <= fold_left Z.max l x).
Proof.
  revert x. induction l as [|a l IH]; intro x; simpl.
  - repeat split; [auto | lia | tauto].
  - destruct (IH (Z.max x a)) as [H1 [H2 H3]]. repeat split.
    + destruct H1 as [H1|H1]; [|auto].
      rewrite H1. destruct (Z.max_spec x a) as [[_ E]|[_ E]]; rewrite E; auto.
    + lia.
    + intros y [->|Hy]; [lia | auto].
Qed.

Lemma py_min_spec (l : list Z) (m : Z) :
  py_min l = Ok m <-> In m l /\ forall y, In y l -> m <= y.
Proof.
  destruct l as [|x l]; simpl.
  - split; [discriminate | tauto].
  - destruct (fold_left_min_spec l x) as [H1 [H2 H3]]. split.
    + intros E. injection E as <-. split; [destruct H1 as [H1|H1]; [left; now rewrite H1 | now right]|].
      intros y [<-|Hy]; auto.
    + intros [Hin Hle]. f_equal.
      assert (fold_left Z.min l x <= m).
      { destruct Hin as [<-|Hin]; auto. }
      assert (m <= fold_left Z.min l x).
      { apply Hle. destruct H1 as [->|H1]; auto. }
      lia.
Qed.

Lemma py_max_spec (l : list Z) (m : Z) :
  py_max l = Ok m <-> In m l /\ forall y, In y l -> y <= m.
Proof.
  destruct l as [|x l]; simpl.
  - split; [discriminate | tauto].
  - destruct (fold_left_max_spec l x) as [H1 [H2 H3]]. split.
    + intros E. injection E as <-. split; [destruct H1 as [H1|H1]; [left; now rewrite H1 | now right]|].
      intros y [<-|Hy]; auto.
    + intros [Hin Hle]. f_equal.
      assert (m <= fold_left Z.max l x).
      { destruct Hin as [<-|Hin]; auto. }
      assert (fold_left Z.max l x <= m).
      { apply Hle. destruct H1 as [->|H1]; auto. }
      lia.
Qed.

Lemma py_min_raises (l : list Z) (e : exn) : py_min l = Raise e -> e = ValueError.
Proof. destruct l; simpl; congruence. Qed.

Lemma py_max_raises (l : list Z) (e : exn) : py_max l = Raise e -> e = ValueError.
Proof. destruct l; simpl; congruence. Qed.

Lemma apply_all_Ok {A B} (f : A -> result B) (l : list A) (bs : list B) :
  apply_all f l = Ok bs <-> Forall2 (fun a b => f a = Ok b) l bs.
Proof.
  revert bs. induction l as [|a l IH]; intro bs; simpl.
  - split.
    + intro E. injection E as <-. constructor.
    + intro F. inversion F. reflexivity.
  - destruct (f a) as [b|e] eqn:Ea.
    + destruct (apply_all f l) as [bs'|e] eqn:El.
      * split.
        -- intro E. injection E as <-. constructor; [assumption|]. now apply IH.
        -- intro F. inversion F; subst. f_equal.
           assert (b = y) by congruence. subst. f_equal.
           apply IH in H3. congruence.
      * split; [discriminate|]. intro F. inversion F; subst.
        apply IH in H3. discriminate.
    + split; [discriminate|]. intro F. inversion F; subst. congruence.
Qed.

Lemma apply_all_Raise {A B} (f : A -> result B) (l : list A) (e : exn) :
  apply_all f l = Raise e -> exists a, In a l /\ f a = Raise e.
Proof.
  induction l as [|a l IH]; simpl; [discriminate|].
  destruct (f a) as [b|e'] eqn:Ea.
  - destruct (apply_all f l) as [bs|e'']; [discriminate|].
    intro E. injection E as ->. destruct IH as [a' [Hin Ha']]; eauto.
  - intro E. injection E as ->. eauto.
Qed.

Lemma shape0_zero {A} (mask : A -> bool) (l : list A) :
  shape0 mask l = O <-> forall a, In a l -> mask a = false.
Proof.
  unfold shape0. induction l as [|a l IH]; simpl.
  - split; [tauto | reflexivity].
  - destruct (mask a) eqn:E; simpl.
    + split; [discriminate|]. intro Hf. rewrite (Hf a) in E; [discriminate | auto].
    + rewrite IH. split.
      * intros Hf b [<-|Hb]; auto.
      * intros Hf b Hb. auto.
Qed.

(** A list of minutes covers the week boundary: it contains 0 and 10079
    and nothing outside, that is, its minimum is 0 and its maximum 10079. *)
Definition covers_week (x : list Z) : Prop :=
  In 0 x /\ In 10079 x /\ forall y, In y x -> 0 <= y <= 10079.

Lemma covers_week_min_max (x : list Z) :
  covers_week x <-> py_min x = Ok 0 /\ py_max x = Ok 10079.
Proof.
  unfold covers_week. rewrite py_min_spec, py_max_spec. split.
  - intros [H0 [H1 Hr]]. repeat split; auto; intros y Hy; apply Hr in Hy; lia.
  - intros [[H0 Hl] [H1 Hu]]. repeat split; auto.
Qed.

Lemma check_boundary_passes {S} (xs : list (list Z)) (s : S) :
  (forall x, In x xs -> covers_week x) -> check_boundary xs s = (Ok tt, s).
Proof.
  intro Hall. unfold check_boundary, bind, lift.
  assert (Hmins : apply_all py_min xs = Ok (map (fun _ => 0) xs)).
  { apply apply_all_Ok. clear - Hall. induction xs as [|x xs IH]; simpl; constructor.
    - apply covers_week_min_max. apply Hall. now left.
    - apply IH. intros y Hy. apply Hall. now right. }
  assert (Hmaxs : apply_all py_max xs = Ok (map (fun _ => 10079) xs)).
  { apply apply_all_Ok. clear - Hall. induction xs as [|x xs IH]; simpl; constructor.
    - apply covers_week_min_max. apply Hall. now left.
    - apply IH. intros y Hy. apply Hall. now right. }
  rewrite Hmins.
  assert (E0 : shape0 (fun m => negb (Z.eqb m 0)) (map (fun _ : list Z => 0) xs) = O).
  { apply shape0_zero. intros a Ha. apply in_map_iff in Ha. destruct Ha as [_ [<- _]].
    reflexivity. }
  rewrite E0. simpl. rewrite Hmaxs.
  assert (E1 : shape0 (fun m => negb (Z.eqb m 10079)) (map (fun _ : list Z => 10079) xs) = O).
  { apply shape0_zero. intros a Ha. apply in_map_iff in Ha. destruct Ha as [_ [<- _]].
    reflexivity. }
  rewrite E1. reflexivity.
Qed.

Lemma Forall2_In_l {A B} (P : A -> B -> Prop) (l : list A) (l' : list B) (a : A) :
  Forall2 P l l' -> In a l -> exists b, In b l' /\ P a b.
Proof.
  induction 1 as [|x y l l' Hxy HF IH]; simpl; [tauto|].
  intros [<-|Hin]; [eauto|]. destruct (IH Hin) as [b [Hb Pb]]; eauto.
Qed.

Lemma check_boundary_cases {S} (xs : list (list Z)) (s : S) :
  check_boundary xs s = (Ok tt, s) \/ check_boundary xs s = (Raise ValueError, s).
Proof.
  unfold check_boundary, bind, lift, raise, ret.
  destruct (apply_all py_min xs) as [mins|e] eqn:Emin.
  - destruct (Nat.eqb (shape0 _ mins) 0); simpl; [|auto].
    destruct (apply_all py_max xs) as [maxs|e] eqn:Emax.
    + destruct (Nat.eqb (shape0 _ maxs) 0); simpl; auto.
    + apply apply_all_Raise in Emax. destruct Emax as [a [_ Ha]].
      apply py_max_raises in Ha. subst. auto.
  - apply apply_all_Raise in Emin. destruct Emin as [a [_ Ha]].
    apply py_min_raises in Ha. subst. auto.
Qed.

Lemma check_boundary_Ok_inv {S} (xs : list (list Z)) (s : S) (r : unit * S) :
  check_boundary xs s = (Ok (fst r), snd r) -> forall x, In x xs -> covers_week x.
Proof.
  unfold check_boundary, bind, lift, raise, ret.
  destruct (apply_all py_min xs) as [mins|e] eqn:Emin; [|discriminate].
  destruct (Nat.eqb (shape0 _ mins) 0) eqn:E0; simpl; [|discriminate].
  destruct (apply_all py_max xs) as [maxs|e] eqn:Emax; [|discriminate].
  destruct (Nat.eqb (shape0 _ maxs) 0) eqn:E1; simpl; [|discriminate].
  intros _ x Hx. apply covers_week_min_max.
  apply Nat.eqb_eq in E0, E1. rewrite shape0_zero in E0, E1.
  apply apply_all_Ok in Emin, Emax.
  destruct (Forall2_In_l _ _ _ _ Emin Hx) as [m [Hm Em]].
  destruct (Forall2_In_l _ _ _ _ Emax Hx) as [M [HM EM]].
  apply E0 in Hm. apply E1 in HM.
  apply negb_false_iff, Z.eqb_eq in Hm, HM. subst. auto.
Qed.

Lemma check_boundary_fails {S} (xs : list (list Z)) (s : S) :
  (exists x, In x xs /\ (~ In 0 x \/ ~ In 10079 x)) ->
  check_boundary xs s = (Raise ValueError, s).
Proof.
  intros [x [Hx Hbad]].
  destruct (check_boundary_cases xs s) as [E|E]; [|assumption].
  pose proof (check_boundary_Ok_inv xs s (tt, s) E x Hx) as [H0 [H1 _]].
  tauto.
Qed.

(** C6. A record whose minutes lack 0 or lack 10079 makes both
    create_product_inventory and interpolate_consumption_curves raise
    ValueError; and when every record has minimum 0 and maximum 10079 the
    boundary check raises nothing. *)
Theorem boundary_check_raises_ValueError `{Float64Ops} :
  (forall inv,
     (exists c, In c (rows inv) /\ (~ In 0 (ic_X c) \/ ~ In 10079 (ic_X c))) ->
     returned create_product_inventory inv = Raise ValueError) /\
  (forall cc tpg,
     (exists c, In c (rows cc) /\ (~ In 0 (cc_X c) \/ ~ In 10079 (cc_X c))) ->
     returned interpolate_consumption_curves (cc, tpg) = Raise ValueError) /\
  (forall (S : Type) (s : S) (xs : list (list Z)),
     (forall x, In x xs -> py_min x = Ok 0 /\ py_max x = Ok 10079) ->
     check_boundary xs s = (Ok tt, s)).
Proof.
  repeat split.
  - intros inv [c [Hc Hbad]].
    unfold returned, create_product_inventory, bind, get_args.
    destruct (check_columns_cases (S := DataFrame InventoryCurveRecord)
                inventory_columns (columns inv) inv) as [E|E]; rewrite E; [|reflexivity].
    rewrite check_boundary_fails; [reflexivity|].
    exists (ic_X c). split; [now apply in_map | assumption].
  - intros cc tpg [c [Hc Hbad]].
    unfold returned, interpolate_consumption_curves, bind, get_args. simpl.
    rewrite check_boundary_fails; [reflexivity|].
    exists (cc_X c). split; [now apply in_map | assumption].
  - intros S s xs Hall. apply check_boundary_passes.
    intros x Hx. apply covers_week_min_max. auto.
Qed.

Definition inventory_without_minute_0 : DataFrame InventoryCurveRecord :=
  {| columns := inventory_columns;
     rows := [ {| ic_LOCATION := "A"; ic_PRODUCT := 1; ic_INVENTORY_CURVE_ID := 11;
                  ic_CONSUMPTION_PROFILE_CURVE_ID := 100;
                  ic_WEEK_START := "2023-06-12";
                  ic_X := [5; 10079]; ic_Y := [3; 3]%Q |} ] |}.

Definition consumption_without_minute_10079 : DataFrame ConsumptionCurveRecord :=
  {| columns := consumption_columns;
     rows := [ {| cc_LOCATION := "A"; cc_CONSUMPTION_PROFILE_CURVE_ID := 100;
                  cc_WEEK_START := "2023-06-12"; cc_X := [0; 5000];
                  cc_Y := [0; 1]%Q |} ] |}.

Lemma boundary_check_raises_ValueError_witness :
  returned create_product_inventory inventory_without_minute_0 = Raise ValueError /\
  returned interpolate_consumption_curves
    (consumption_without_minute_10079, {| columns := time_grid_columns; rows := [] |})
    = Raise ValueError /\
  check_boundary [[0; 5000; 10079]; [0; 10079]] tt = (Ok tt, tt).
Proof.
  split; [|split].
  - apply (proj1 boundary_check_raises_ValueError).
    eexists. split; [left; reflexivity|]. left. simpl.
    intros [E|[E|[]]]; discriminate.
  - apply (proj1 (proj2 boundary_check_raises_ValueError)).
    eexists. split; [left; reflexivity|]. right. simpl.
    intros [E|[E|[]]]; discriminate.
  - apply (proj2 (proj2 boundary_check_raises_ValueError)).
    intros x [<-|[<-|[]]]; split; reflexivity.
Defined.

(** ** Keys and duplicates *)

Section KeyFacts.
Context {K : Type} `{Key K}.

Lemma existsb_keqb (k : K) (l : list K) : existsb (keqb k) l = true <-> In k l.
Proof.
  rewrite existsb_exists. split.
  - intros [x [Hx E]]. apply keqb_eq in E. now subst.
  - intro Hin. exists k. split; [assumption | apply keqb_refl].
Qed.

Lemma existsb_keqb_false (k : K) (l : list K) : existsb (keqb k) l = false <-> ~ In k l.
Proof.
  rewrite <- existsb_keqb. destruct (existsb (keqb k) l); split; congruence.
Qed.

Lemma is_unique_NoDup (ks : list K) : is_unique ks = true <-> NoDup ks.
Proof.
  induction ks as [|k t IH]; simpl.
  - split; [constructor | reflexivity].
  - rewrite andb_true_iff, negb_true_iff, existsb_keqb_false, IH. split.
    + intros [Hn Ht]. now constructor.
    + intro Hnd. inversion Hnd. auto.
Qed.

Lemma is_unique_false (ks : list K) : is_unique ks = false <-> ~ NoDup ks.
Proof.
  rewrite <- is_unique_NoDup. destruct (is_unique ks); split; congruence.
Qed.

Lemma drop_duplicates_from_In {A} (key : A -> K) (seen : list K) (l : list A) (a : A) :
  In a (drop_duplicates_from key seen l) -> In a l /\ ~ In (key a) seen.
Proof.
  revert seen. induction l as [|b l IH]; intro seen; simpl; [tauto|].
  destruct (existsb (keqb (key b)) seen) eqn:E.
  - intro Hin. apply IH in Hin. tauto.
  - apply existsb_keqb_false in E. intros [<-|Hin]; [tauto|].
    apply IH in Hin. simpl in Hin. tauto.
Qed.

Lemma drop_duplicates_from_complete {A} (key : A -> K) (seen : list K) (l : list A) (a : A) :
  In a l -> ~ In (key a) seen ->
  exists a', In a' (drop_duplicates_from key seen l) /\ key a' = key a.
Proof.
  revert seen. induction l as [|b l IH]; intro seen; simpl; [tauto|].
  intros Hin Hseen. destruct (existsb (keqb (key b)) seen) eqn:E.
  - apply existsb_keqb in E. destruct Hin as [->|Hin]; [contradiction|].
    now apply IH.
  - destruct Hin as [->|Hin]; [exists a; simpl; auto|].
    destruct (keqb (key a) (key b)) eqn:Eab.
    + apply keqb_eq in Eab. exists b. simpl. auto.
    + apply keqb_neq in Eab.
      destruct (IH (key b :: seen) Hin) as [a' [Ha' Ek]].
      * simpl. intros [E'|E']; [congruence | contradiction].
      * exists a'. simpl. auto.
Qed.

Lemma drop_duplicates_from_NoDup {A} (key : A -> K) (seen : list K) (l : list A) :
  NoDup (map key (drop_duplicates_from key seen l)).
Proof.
  revert seen. induction l as [|b l IH]; intro seen; simpl; [constructor|].
  destruct (existsb (keqb (key b)) seen); [apply IH|].
  simpl. constructor; [|apply IH].
  intro Hin. apply in_map_iff in Hin. destruct Hin as [a [Ek Ha]].
  apply drop_duplicates_from_In in Ha. simpl in Ha. destruct Ha as [_ Hn].
  apply Hn. left. congruence.
Qed.

Lemma drop_duplicates_from_id {A} (key : A -> K) (seen : list K) (l : list A) :
  NoDup (map key l) -> (forall a, In a l -> ~ In (key a) seen) ->
  drop_duplicates_from key seen l = l.
Proof.
  revert seen. induction l as [|b l IH]; intros seen Hnd Hseen; simpl; [reflexivity|].
  inversion Hnd as [|k ks Hb Hnd']; subst.
  assert (E : existsb (keqb (key b)) seen = false).
  { apply existsb_keqb_false. apply Hseen. now left. }
  rewrite E. f_equal. apply IH; [assumption|].
  intros a Ha [Ek|Hin].
  - apply Hb. rewrite Ek. now apply in_map.
  - apply (Hseen a); [now right | assumption].
Qed.

Lemma drop_duplicates_In {A} (key : A -> K) (l : list A) (a : A) :
  In a (drop_duplicates key l) -> In a l.
Proof. intro Hin. now apply drop_duplicates_from_In in Hin. Qed.

Lemma drop_duplicates_complete {A} (key : A -> K) (l : list A) (a : A) :
  In a l -> exists a', In a' (drop_duplicates key l) /\ key a' = key a.
Proof. intro Hin. apply drop_duplicates_from_complete; [assumption | simpl; tauto]. Qed.

Lemma drop_duplicates_NoDup {A} (key : A -> K) (l : list A) :
  NoDup (map key (drop_duplicates key l)).
Proof. apply drop_duplicates_from_NoDup. Qed.

Lemma drop_duplicates_of_NoDup {A} (key : A -> K) (l : list A) :
  NoDup (map key l) -> drop_duplicates key l = l.
Proof. intro Hnd. apply drop_duplicates_from_id; [assumption | simpl; tauto]. Qed.

Lemma drop_duplicates_values (l : list K) (k : K) :
  In k (drop_duplicates (fun x => x) l) <-> In k l.
Proof.
  split; [apply drop_duplicates_In|].
  intro Hin. destruct (drop_duplicates_complete (fun x => x) l k Hin) as [k' [Hk' E]].
  now subst.
Qed.

Lemma drop_duplicates_values_NoDup (l : list K) :
  NoDup (drop_duplicates (fun x => x) l).
Proof.
  pose proof (drop_duplicates_NoDup (fun x : K => x) l) as Hnd.
  now rewrite map_id in Hnd.
Qed.

End KeyFacts.

(** ** The time grid *)

Definition grid_rows_of (c : ConsumptionCurveRecord) : list TimePoint :=
  map (fun x => {| tg_LOCATION := cc_LOCATION c;
                   tg_CONSUMPTION_PROFILE_CURVE_ID := cc_CONSUMPTION_PROFILE_CURVE_ID c;
                   tg_WEEK_START := cc_WEEK_START c;
                   tg_X := x |}) time_range.

Definition curve_triple (c : ConsumptionCurveRecord) : string * Z * string :=
  (cc_LOCATION c, cc_CONSUMPTION_PROFILE_CURVE_ID c, cc_WEEK_START c).

Lemma cross_join_rows {L R} (left : list L) (right : list R) :
  merge_inner (fun _ => 1) (fun _ => 1) left right
  = flat_map (fun l => map (fun r => (l, r)) right) left.
Proof.
  unfold merge_inner, matches.
  assert (E : filter (fun _ : R => keqb 1 1) right = right).
  { induction right as [|r right IHr]; [reflexivity|].
    cbn [filter]. rewrite IHr. reflexivity. }
  induction left as [|l left IH]; [reflexivity|].
  cbn [flat_map]. rewrite IH, E. reflexivity.
Qed.

Lemma cross_join_time_points (minutes : list Z) (l : list ConsumptionCurveRecord) :
  map time_point
    (flat_map (fun lw => map (fun x => (lw, x)) minutes) (map curve_triple l))
  = flat_map (fun c =>
      map (fun x => {| tg_LOCATION := cc_LOCATION c;
                       tg_CONSUMPTION_PROFILE_CURVE_ID := cc_CONSUMPTION_PROFILE_CURVE_ID c;
                       tg_WEEK_START := cc_WEEK_START c;
                       tg_X := x |}) minutes) l.
Proof.
  induction l as [|c l IH]; simpl; [reflexivity|].
  rewrite map_app, IH, map_map. reflexivity.
Qed.

Lemma create_full_time_grid_Ok (cc : DataFrame ConsumptionCurveRecord) :
  same_columns consumption_columns (columns cc) ->
  create_full_time_grid cc
  = (Ok {| columns := time_grid_columns; rows := flat_map grid_rows_of (rows cc) |}, cc).
Proof.
  intro Hc. unfold create_full_time_grid, bind, get_args.
  rewrite (check_columns_ok _ _ _ Hc). unfold ret. f_equal. f_equal.
  rewrite cross_join_rows. f_equal.
  exact (cross_join_time_points time_range (rows cc)).
Qed.

Lemma time_range_length : Z.of_nat (List.length time_range) = 10080.
Proof. unfold time_range. rewrite length_map, length_seq. now rewrite Z2Nat.id. Qed.

Lemma time_grid_length (l : list ConsumptionCurveRecord) :
  Z.of_nat (List.length (flat_map grid_rows_of l)) = 10080 * Z.of_nat (List.length l).
Proof.
  induction l as [|c l IH]; [reflexivity|].
  cbn [flat_map List.length].
  rewrite length_app, Nat2Z.inj_add, IH, Nat2Z.inj_succ.
  unfold grid_rows_of. rewrite length_map, time_range_length. lia.
Qed.

(** C7 (as the code has it). create_full_time_grid returns one row per
    minute of [0, 10080) for every input record, 10080 times the number
    of input rows; that is 10080 times the number of distinct
    (location, consumption_profile_curve_id, week_start) triples when no
    triple is repeated in the input. *)
Theorem time_grid_row_count :
  forall cc, same_columns consumption_columns (columns cc) ->
  exists grid,
    returned create_full_time_grid cc = Ok grid /\
    rows grid = flat_map grid_rows_of (rows cc) /\
    Z.of_nat (List.length (rows grid)) = 10080 * Z.of_nat (List.length (rows cc)) /\
    (NoDup (map curve_triple (rows cc)) ->
     Z.of_nat (List.length (rows grid))
     = 10080 * nunique (map curve_triple (rows cc))).
Proof.
  intros cc Hc. unfold returned.
  rewrite (create_full_time_grid_Ok cc Hc).
  exists {| columns := time_grid_columns; rows := flat_map grid_rows_of (rows cc) |}.
  cbn [fst rows].
  split; [reflexivity|]. split; [reflexivity|].
  split; [apply time_grid_length|].
  intro Hnd. rewrite time_grid_length. unfold nunique.
  rewrite drop_duplicates_of_NoDup by now rewrite map_id.
  now rewrite length_map.
Qed.

Definition one_curve : ConsumptionCurveRecord :=
  {| cc_LOCATION := "A"; cc_CONSUMPTION_PROFILE_CURVE_ID := 100;
     cc_WEEK_START := "2023-06-12"; cc_X := [0; 10079]; cc_Y := [0; 1]%Q |}.

Definition one_curve_table : DataFrame ConsumptionCurveRecord :=
  {| columns := consumption_columns; rows := [one_curve] |}.

Definition repeated_curve_table : DataFrame ConsumptionCurveRecord :=
  {| columns := consumption_columns; rows := [one_curve; one_curve] |}.

Lemma consumption_columns_same : same_columns consumption_columns consumption_columns.
Proof. intro c. tauto. Qed.

Lemma time_grid_row_count_witness :
  exists grid,
    returned create_full_time_grid one_curve_table = Ok grid /\
    rows grid = flat_map grid_rows_of (rows one_curve_table) /\
    Z.of_nat (List.length (rows grid)) = 10080 * 1 /\
    (NoDup (map curve_triple (rows one_curve_table)) ->
     Z.of_nat (List.length (rows grid))
     = 10080 * nunique (map curve_triple (rows one_curve_table))).
Proof.
  exact (time_grid_row_count one_curve_table consumption_columns_same).
Defined.

(** A table that repeats one triple: the grid has 20160 rows, twice
    10080 times the single distinct triple. *)
Lemma time_grid_repeated_triple :
  exists grid,
    returned create_full_time_grid repeated_curve_table = Ok grid /\
    Z.of_nat (List.length (rows grid)) = 20160 /\
    10080 * nunique (map curve_triple (rows repeated_curve_table)) = 10080.
Proof.
  unfold returned.
  rewrite (create_full_time_grid_Ok repeated_curve_table consumption_columns_same).
  exists {| columns := time_grid_columns;
            rows := flat_map grid_rows_of (rows repeated_curve_table) |}.
  cbn [fst rows]. split; [reflexivity|]. split.
  - rewrite time_grid_length. reflexivity.
  - vm_compute. reflexivity.
Qed.

(** ** Effects of the stages on their arguments *)

(** A computation that leaves the argument objects as they were. *)
Definition preserves {S A} (m : M S A) : Prop := forall s, snd (m s) = s.

Lemma preserves_ret {S A} (a : A) : preserves (S := S) (ret a).
Proof. intro s. reflexivity. Qed.

Lemma preserves_raise {S A} (e : exn) : preserves (S := S) (A := A) (raise e).
Proof. intro s. reflexivity. Qed.

Lemma preserves_lift {S A} (r : result A) : preserves (S := S) (lift r).
Proof. intro s. reflexivity. Qed.

Lemma preserves_get_args {S} : preserves (S := S) get_args.
Proof. intro s. reflexivity. Qed.

Lemma preserves_bind {S A B} (m : M S A) (k : A -> M S B) :
  preserves m -> (forall a, preserves (k a)) -> preserves (bind m k).
Proof.
  intros Hm Hk s. unfold bind. specialize (Hm s).
  destruct (m s) as [[a|e] s']; simpl in Hm; subst; [apply Hk | reflexivity].
Qed.

Lemma preserves_if {S A} (b : bool) (m1 m2 : M S A) :
  preserves m1 -> preserves m2 -> preserves (if b then m1 else m2).
Proof. destruct b; auto. Qed.

Lemma preserves_check_columns {S} (required cols : list string) :
  preserves (S := S) (check_columns required cols).
Proof. unfold check_columns. apply preserves_if; [apply preserves_ret | apply preserves_raise]. Qed.

Lemma preserves_check_boundary {S} (xs : list (list Z)) :
  preserves (S := S) (check_boundary xs).
Proof.
  unfold check_boundary.
  repeat (apply preserves_bind; [|intro]);
    try apply preserves_lift;
    apply preserves_if; try apply preserves_ret; apply preserves_raise.
Qed.

Create HintDb preserves.

#[local] Hint Resolve preserves_ret preserves_raise preserves_lift preserves_get_args
  preserves_check_columns preserves_check_boundary : preserves.

Ltac preserves_steps :=
  repeat first
    [ apply preserves_bind; [|intro]
    | apply preserves_if
    | solve [auto with preserves] ].

Lemma create_product_inventory_preserves : preserves create_product_inventory.
Proof. unfold create_product_inventory. preserves_steps. Qed.

Lemma create_full_time_grid_preserves : preserves create_full_time_grid.
Proof. unfold create_full_time_grid. preserves_steps. Qed.

Lemma interpolate_consumption_curves_preserves `{Float64Ops}
    : preserves interpolate_consumption_curves.
Proof. unfold interpolate_consumption_curves. preserves_steps. Qed.

Lemma calc_quality_of_service_preserves `{Float64Ops} : preserves calc_quality_of_service.
Proof. unfold calc_quality_of_service. preserves_steps. Qed.

(** The caller's [qos_data] after transform_qos_data: without its [DATE]
    column and without duplicate rows. *)
Definition qos_data_after (qos_data : DataFrame QosDataRow) : DataFrame QosDataRow :=
  {| columns := drop_column "DATE" (columns qos_data);
     rows := drop_duplicates qos_data_key (map drop_DATE (rows qos_data)) |}.

(** The caller's [product_inventory_grid] after
    calc_product_availability_ratio: with a [PRODUCT_IN_STOCK] column. *)
Definition product_inventory_grid_after (pig : DataFrame ProductInventoryRow)
  : DataFrame ProductInventoryRow :=
  {| columns := columns pig ++ ["PRODUCT_IN_STOCK"];
     rows := map set_pi_PRODUCT_IN_STOCK (rows pig) |}.

Lemma transform_qos_data_args (qd : DataFrame QosDataRow) (qc : DataFrame CurveRow) :
  args_after transform_qos_data (qd, qc)
  = if existsb (String.eqb "DATE") (columns qd)
    then (qos_data_after qd, qc) else (qd, qc).
Proof.
  unfold args_after, transform_qos_data, bind, get_args, put_args, lift, ret, raise.
  cbn [fst snd columns rows].
  destruct (existsb (String.eqb "DATE") (columns qd)); [|reflexivity].
  destruct (validate_one_to_one qd_INVENTORY_CURVE_ID cv_CURVE_ID _ _); [|reflexivity].
  destruct (validate_one_to_one snd cv_CURVE_ID _ _); reflexivity.
Qed.

Lemma calc_product_availability_ratio_args
    (pig : DataFrame ProductInventoryRow) (tpg : DataFrame TimePoint) :
  args_after calc_product_availability_ratio (pig, tpg)
  = if same_column_set inventory_columns (columns pig)
       && same_column_set time_grid_columns (columns tpg)
    then (product_inventory_grid_after pig, tpg) else (pig, tpg).
Proof.
  unfold args_after, calc_product_availability_ratio, bind, get_args, put_args,
    lift, ret, raise, check_columns.
  cbn [fst snd columns rows].
  destruct (same_column_set inventory_columns (columns pig)); [|reflexivity].
  destruct (same_column_set time_grid_columns (columns tpg)); [|reflexivity].
  cbn [andb fst snd].
  destruct (validate_many_to_one _ _); [|reflexivity].
  destruct (validate_one_to_one time_point_minute _ _ _); reflexivity.
Qed.

(** C9 (as the code has it). create_product_inventory,
    create_full_time_grid, interpolate_consumption_curves and
    calc_quality_of_service leave the tables passed in unchanged.
    transform_qos_data leaves [qos_curves] unchanged but removes the DATE
    column and the duplicate rows from the caller's [qos_data];
    calc_product_availability_ratio leaves [time_point_grid] unchanged but
    adds a PRODUCT_IN_STOCK column to the caller's
    [product_inventory_grid] once both column checks have passed. *)
Theorem stage_effects_on_inputs `{Float64Ops} :
  (forall inv, args_after create_product_inventory inv = inv) /\
  (forall cc, args_after create_full_time_grid cc = cc) /\
  (forall cc tpg, args_after interpolate_consumption_curves (cc, tpg) = (cc, tpg)) /\
  (forall cci par, args_after calc_quality_of_service (cci, par) = (cci, par)) /\
  (forall qd qc, snd (args_after transform_qos_data (qd, qc)) = qc) /\
  (forall pig tpg, snd (args_after calc_product_availability_ratio (pig, tpg)) = tpg) /\
  (forall qd qc, In "DATE" (columns qd) ->
     fst (args_after transform_qos_data (qd, qc)) = qos_data_after qd) /\
  (forall pig tpg,
     same_columns inventory_columns (columns pig) ->
     same_columns time_grid_columns (columns tpg) ->
     fst (args_after calc_product_availability_ratio (pig, tpg))
     = product_inventory_grid_after pig).
Proof.
  repeat split.
  - intro inv. apply create_product_inventory_preserves.
  - intro cc. apply create_full_time_grid_preserves.
  - intros cc tpg. apply interpolate_consumption_curves_preserves.
  - intros cci par. apply calc_quality_of_service_preserves.
  - intros qd qc. rewrite transform_qos_data_args.
    destruct (existsb _ _); reflexivity.
  - intros pig tpg. rewrite calc_product_availability_ratio_args.
    destruct (_ && _); reflexivity.
  - intros qd qc Hin. rewrite transform_qos_data_args.
    assert (E : existsb (String.eqb "DATE") (columns qd) = true).
    { apply existsb_exists. exists "DATE". split; [assumption | reflexivity]. }
    now rewrite E.
  - intros pig tpg Hp Ht. rewrite calc_product_availability_ratio_args.
    apply same_column_set_spec in Hp, Ht. now rewrite Hp, Ht.
Qed.

Definition raw_qos_data : DataFrame QosDataRow :=
  {| columns := ["LOCATION"; "PRODUCT"; "INVENTORY_CURVE_ID";
                 "CONSUMPTION_PROFILE_CURVE_ID"; "DATE"];
     rows := [ {| qd_LOCATION := "A"; qd_PRODUCT := 1; qd_INVENTORY_CURVE_ID := 11;
                  qd_CONSUMPTION_PROFILE_CURVE_ID := 100;
                  qd_DATE := Some "2023-06-12" |};
               {| qd_LOCATION := "A"; qd_PRODUCT := 1; qd_INVENTORY_CURVE_ID := 11;
                  qd_CONSUMPTION_PROFILE_CURVE_ID := 100;
                  qd_DATE := Some "2023-06-13" |} ] |}.

Definition raw_qos_curves : DataFrame CurveRow :=
  {| columns := ["CURVE_ID"; "CURVE_TYPE"; "WEEK_START"; "X"; "Y"];
     rows := [ {| cv_CURVE_ID := 11; cv_CURVE_TYPE := "inventory";
                  cv_WEEK_START := "2023-06-12";
                  cv_X := [0; 10079]; cv_Y := [5; 5]%Q |};
               {| cv_CURVE_ID := 100; cv_CURVE_TYPE := "consumption_profile";
                  cv_WEEK_START := "2023-06-12";
                  cv_X := [0; 10079]; cv_Y := [1 # 10080; 1 # 10080]%Q |} ] |}.

Lemma stage_effects_on_inputs_witness :
  fst (args_after transform_qos_data (raw_qos_data, raw_qos_curves))
  = qos_data_after raw_qos_data.
Proof.
  apply (proj1 (proj2 (proj2 (proj2 (proj2 (proj2 (proj2 stage_effects_on_inputs))))))).
  simpl. tauto.
Defined.

(** transform_qos_data changes the [qos_data] table it is given: the
    caller's table has lost its DATE column and one of its two rows. *)
Lemma transform_qos_data_mutates_qos_data :
  exists inventory_curves consumption_curves,
    transform_qos_data (raw_qos_data, raw_qos_curves)
    = (Ok (inventory_curves, consumption_curves),
       ({| columns := ["LOCATION"; "PRODUCT"; "INVENTORY_CURVE_ID";
                       "CONSUMPTION_PROFILE_CURVE_ID"];
           rows := [ {| qd_LOCATION := "A"; qd_PRODUCT := 1;
                        qd_INVENTORY_CURVE_ID := 11;
                        qd_CONSUMPTION_PROFILE_CURVE_ID := 100;
                        qd_DATE := None |} ] |},
        raw_qos_curves)) /\
    List.length (rows raw_qos_data) = 2%nat /\
    In "DATE" (columns raw_qos_data).
Proof.
  eexists. eexists. split; [vm_compute; reflexivity|].
  split; [reflexivity | simpl; tauto].
Qed.

(** ** Joins *)

Section JoinFacts.
Context {K : Type} `{Key K}.

Lemma in_matches {L R} (kl : L -> K) (kr : R -> K) (right : list R) (l : L) (r : R) :
  In r (matches kl kr right l) <-> In r right /\ kl l = kr r.
Proof. unfold matches. rewrite filter_In, keqb_eq. tauto. Qed.

Lemma in_merge_inner {L R} (kl : L -> K) (kr : R -> K)
    (left : list L) (right : list R) (l : L) (r : R) :
  In (l, r) (merge_inner kl kr left right) <-> In l left /\ In r right /\ kl l = kr r.
Proof.
  unfold merge_inner. rewrite in_flat_map. split.
  - intros [l' [Hl' Hin]]. apply in_map_iff in Hin.
    destruct Hin as [r' [E Hr']]. injection E as -> ->.
    apply in_matches in Hr'. tauto.
  - intros [Hl [Hr E]]. exists l. split; [assumption|].
    apply in_map. apply in_matches. tauto.
Qed.

Lemma in_merge_left {L R} (kl : L -> K) (kr : R -> K)
    (left : list L) (right : list R) (l : L) (o : option R) :
  In (l, o) (merge_left kl kr left right) <->
  In l left /\
  match o with
  | Some r => In r right /\ kl l = kr r
  | None => forall r, In r right -> kl l <> kr r
  end.
Proof.
  unfold merge_left. rewrite in_flat_map. split.
  - intros [l' [Hl' Hin]].
    destruct (matches kl kr right l') as [|m ms] eqn:Em.
    + destruct Hin as [E|[]]. injection E as -> <-. split; [assumption|].
      intros r Hr Ek.
      assert (Hm : In r (matches kl kr right l)) by (apply in_matches; tauto).
      rewrite Em in Hm. destruct Hm.
    + apply in_map_iff in Hin. destruct Hin as [r [E Hr]]. injection E as -> <-.
      split; [assumption|]. rewrite <- Em in Hr. now apply in_matches in Hr.
  - intros [Hl Ho]. exists l. split; [assumption|].
    destruct o as [r|].
    + assert (Hm : In r (matches kl kr right l)) by (apply in_matches; tauto).
      destruct (matches kl kr right l) as [|m ms]; [destruct Hm|].
      now apply (in_map (fun r => (l, Some r))).
    + destruct (matches kl kr right l) as [|m ms] eqn:Em; [now left|].
      exfalso. assert (Hm : In m (matches kl kr right l)) by (rewrite Em; now left).
      apply in_matches in Hm. destruct Hm as [Hm Ek]. exact (Ho m Hm Ek).
Qed.

(** Two rows of one key make the keys of a table non-unique. *)
Lemma two_matches_not_unique {R} (kr : R -> K) (right : list R) (k : K) :
  (2 <= List.length (filter (fun r => keqb k (kr r)) right))%nat ->
  ~ NoDup (map kr right).
Proof.
  induction right as [|r right IH]; simpl; [lia|].
  destruct (keqb k (kr r)) eqn:E; simpl.
  - intros Hlen Hnd. inversion Hnd as [|x xs Hnin Hnd']; subst.
    destruct (filter (fun r0 => keqb k (kr r0)) right) as [|r' rs] eqn:Ef;
      [simpl in Hlen; lia|].
    assert (Hr' : In r' (filter (fun r0 => keqb k (kr r0)) right))
      by (rewrite Ef; now left).
    apply filter_In in Hr'. destruct Hr' as [Hr' E'].
    apply keqb_eq in E, E'. apply Hnin. rewrite <- E, E'. now apply in_map.
  - intros Hlen Hnd. inversion Hnd; subst. now apply IH.
Qed.

Lemma validate_one_to_one_Ok {L R} (kl : L -> K) (kr : R -> K)
    (left : list L) (right : list R) :
  validate_one_to_one kl kr left right = Ok tt <->
  NoDup (map kl left) /\ NoDup (map kr right).
Proof.
  unfold validate_one_to_one. rewrite <- !is_unique_NoDup.
  destruct (is_unique (map kl left)), (is_unique (map kr right)); simpl;
    split; (congruence || tauto || (intros [? ?]; congruence)).
Qed.

Lemma validate_one_to_one_cases {L R} (kl : L -> K) (kr : R -> K)
    (left : list L) (right : list R) :
  validate_one_to_one kl kr left right = Ok tt \/
  validate_one_to_one kl kr left right = Raise MergeError.
Proof. unfold validate_one_to_one. destruct (_ && _); auto. Qed.

Lemma validate_one_to_one_right_dup {L R} (kl : L -> K) (kr : R -> K)
    (left : list L) (right : list R) :
  ~ NoDup (map kr right) -> validate_one_to_one kl kr left right = Raise MergeError.
Proof.
  intro N. destruct (validate_one_to_one_cases kl kr left right) as [E|E]; [|assumption].
  apply validate_one_to_one_Ok in E. tauto.
Qed.

End JoinFacts.

(** ** The curve splitter *)

(** The inventory curves whose CURVE_ID is the INVENTORY_CURVE_ID of [d]. *)
Definition matching_inventory_curves (qos_curves : DataFrame CurveRow) (d : QosDataRow)
  : list CurveRow :=
  filter (fun c => Z.eqb (qd_INVENTORY_CURVE_ID d) (cv_CURVE_ID c))
    (filter (fun c => String.eqb (cv_CURVE_TYPE c) "inventory") (rows qos_curves)).

Definition demand_records (qos_data : DataFrame QosDataRow) : list QosDataRow :=
  drop_duplicates qos_data_key (map drop_DATE (rows qos_data)).

Definition inventory_curve_rows (qos_curves : DataFrame CurveRow) : list CurveRow :=
  filter (fun c => String.eqb (cv_CURVE_TYPE c) "inventory") (rows qos_curves).

Lemma has_DATE (qd : DataFrame QosDataRow) :
  In "DATE" (columns qd) -> existsb (String.eqb "DATE") (columns qd) = true.
Proof. intro Hin. apply existsb_exists. exists "DATE". split; [assumption | reflexivity]. Qed.

Lemma transform_qos_data_duplicate_curve
    (qd : DataFrame QosDataRow) (qc : DataFrame CurveRow) (d : QosDataRow) :
  In "DATE" (columns qd) ->
  (2 <= List.length (matching_inventory_curves qc d))%nat ->
  returned transform_qos_data (qd, qc) = Raise MergeError.
Proof.
  intros HD Hdup.
  unfold returned, transform_qos_data, bind, get_args, put_args, lift, ret, raise.
  cbn [fst snd columns rows]. rewrite (has_DATE qd HD).
  rewrite validate_one_to_one_right_dup; [reflexivity|].
  eapply (two_matches_not_unique (K := Z)). exact Hdup.
Qed.

Lemma transform_qos_data_Ok_rows
    (qd : DataFrame QosDataRow) (qc : DataFrame CurveRow)
    (inv : DataFrame InventoryCurveRecord) (cons : DataFrame ConsumptionCurveRecord) :
  returned transform_qos_data (qd, qc) = Ok (inv, cons) ->
  rows inv = map inventory_record
               (merge_inner qd_INVENTORY_CURVE_ID cv_CURVE_ID
                  (demand_records qd) (inventory_curve_rows qc)).
Proof.
  unfold returned, transform_qos_data, bind, get_args, put_args, lift, ret, raise.
  cbn [fst snd columns rows].
  destruct (existsb (String.eqb "DATE") (columns qd)); [|discriminate].
  destruct (validate_one_to_one qd_INVENTORY_CURVE_ID cv_CURVE_ID _ _); [|discriminate].
  destruct (validate_one_to_one snd cv_CURVE_ID _ _); [|discriminate].
  cbn [fst]. intro E. injection E as <- _. reflexivity.
Qed.

(** C3 (as the code has it). transform_qos_data raises the merge error
    when the inventory_curve_id of a DemandRecord matches two or more
    inventory curves.  A DemandRecord whose inventory_curve_id matches no
    inventory curve raises nothing by itself: when the call returns, that
    record is absent from the inventory output, and every record with a
    matching curve is present. *)
Theorem transform_qos_data_join_integrity :
  forall qd qc,
    In "DATE" (columns qd) ->
    (forall d, (2 <= List.length (matching_inventory_curves qc d))%nat ->
       returned transform_qos_data (qd, qc) = Raise MergeError) /\
    (forall inv cons,
       returned transform_qos_data (qd, qc) = Ok (inv, cons) ->
       forall d, In d (demand_records qd) ->
         (matching_inventory_curves qc d = [] ->
          forall r, In r (rows inv) ->
            ic_INVENTORY_CURVE_ID r <> qd_INVENTORY_CURVE_ID d) /\
         (forall c, In c (matching_inventory_curves qc d) ->
            In (inventory_record (d, c)) (rows inv))).
Proof.
  intros qd qc HD. split.
  - intros d Hdup. now apply (transform_qos_data_duplicate_curve qd qc d).
  - intros inv cons HOk d Hd.
    rewrite (transform_qos_data_Ok_rows qd qc inv cons HOk). split.
    + intros Hnone r Hr Eid. apply in_map_iff in Hr.
      destruct Hr as [[d' c] [<- Hin]]. apply in_merge_inner in Hin.
      destruct Hin as [_ [Hc Ek]]. simpl in Eid.
      assert (Hm : In c (matching_inventory_curves qc d)).
      { unfold matching_inventory_curves. apply filter_In. split; [assumption|].
        apply Z.eqb_eq. congruence. }
      rewrite Hnone in Hm. destruct Hm.
    + intros c Hc. apply in_map. apply in_merge_inner.
      unfold matching_inventory_curves in Hc. apply filter_In in Hc.
      destruct Hc as [Hc Ek]. apply Z.eqb_eq in Ek. auto.
Qed.

(** One inventory curve (id 11) and two DemandRecords: one uses curve 11,
    the other refers to curve 12, which does not exist. *)
Definition qos_data_missing_curve : DataFrame QosDataRow :=
  {| columns := ["LOCATION"; "PRODUCT"; "INVENTORY_CURVE_ID";
                 "CONSUMPTION_PROFILE_CURVE_ID"; "DATE"];
     rows := [ {| qd_LOCATION := "A"; qd_PRODUCT := 1; qd_INVENTORY_CURVE_ID := 11;
                  qd_CONSUMPTION_PROFILE_CURVE_ID := 100;
                  qd_DATE := Some "2023-06-12" |};
               {| qd_LOCATION := "A"; qd_PRODUCT := 2; qd_INVENTORY_CURVE_ID := 12;
                  qd_CONSUMPTION_PROFILE_CURVE_ID := 100;
                  qd_DATE := Some "2023-06-12" |} ] |}.

(** The same DemandRecords with two inventory curves of id 11. *)
Definition qos_curves_duplicate_id : DataFrame CurveRow :=
  {| columns := ["CURVE_ID"; "CURVE_TYPE"; "WEEK_START"; "X"; "Y"];
     rows := [ {| cv_CURVE_ID := 11; cv_CURVE_TYPE := "inventory";
                  cv_WEEK_START := "2023-06-12";
                  cv_X := [0; 10079]; cv_Y := [5; 5]%Q |};
               {| cv_CURVE_ID := 11; cv_CURVE_TYPE := "inventory";
                  cv_WEEK_START := "2023-06-19";
                  cv_X := [0; 10079]; cv_Y := [2; 2]%Q |} ] |}.

Lemma transform_qos_data_join_integrity_witness :
  returned transform_qos_data (qos_data_missing_curve, qos_curves_duplicate_id)
  = Raise MergeError.
Proof.
  refine (proj1 (transform_qos_data_join_integrity
                   qos_data_missing_curve qos_curves_duplicate_id _)
            {| qd_LOCATION := "A"; qd_PRODUCT := 1; qd_INVENTORY_CURVE_ID := 11;
               qd_CONSUMPTION_PROFILE_CURVE_ID := 100; qd_DATE := None |} _).
  - simpl. tauto.
  - vm_compute. constructor.
Defined.

(** The DemandRecord of product 2 names curve 12, no curve has that id,
    and transform_qos_data returns: the inventory output holds the record
    of product 1 only. *)
Lemma transform_qos_data_drops_unmatched_record :
  exists consumption_curves,
    returned transform_qos_data (qos_data_missing_curve, raw_qos_curves)
    = Ok ({| columns := inventory_columns;
             rows := [ {| ic_LOCATION := "A"; ic_PRODUCT := 1;
                          ic_INVENTORY_CURVE_ID := 11;
                          ic_CONSUMPTION_PROFILE_CURVE_ID := 100;
                          ic_WEEK_START := "2023-06-12";
                          ic_X := [0; 10079]; ic_Y := [5; 5]%Q |} ] |},
          consumption_curves) /\
    In 12 (map qd_INVENTORY_CURVE_ID (rows qos_data_missing_curve)) /\
    filter (fun c => Z.eqb (cv_CURVE_ID c) 12) (rows raw_qos_curves) = [].
Proof.
  eexists. split; [vm_compute; reflexivity|].
  split; [simpl; tauto | reflexivity].
Qed.

(** ** Explode *)

Lemma covers_week_length (x : list Z) : covers_week x -> (2 <= List.length x)%nat.
Proof.
  intros [H0 [H1 _]]. destruct x as [|a [|b x]]; simpl; [destruct H0| |lia].
  destruct H0 as [->|[]]. destruct H1 as [E|[]]. discriminate.
Qed.

Lemma explode_XY_cases {A B} (X : A -> list Z) (Y : A -> list Q)
    (mk : A -> Z -> Q -> B) (l : list A) :
  (exists out, explode_XY X Y mk l = Ok out) \/ explode_XY X Y mk l = Raise ValueError.
Proof. unfold explode_XY. destruct (forallb _ l); eauto. Qed.

Lemma explode_XY_Ok {A B} (X : A -> list Z) (Y : A -> list Q)
    (mk : A -> Z -> Q -> B) (l : list A) :
  (forall a, In a l -> mylen (X a) = mylen (Y a)) ->
  explode_XY X Y mk l
  = Ok (flat_map (fun a => map (fun p => mk a (fst p) (snd p)) (combine (X a) (Y a))) l).
Proof.
  intro Hlen. unfold explode_XY.
  assert (E : forallb (fun a => Nat.eqb (mylen (X a)) (mylen (Y a))) l = true).
  { apply forallb_forall. intros a Ha. apply Nat.eqb_eq. auto. }
  now rewrite E.
Qed.


Lemma mylen_long {A} (l : list A) : (2 <= List.length l)%nat -> mylen l = List.length l.
Proof. destruct l; simpl; [lia | reflexivity]. Qed.


Lemma mylen_same {A B} (x : list A) (y : list B) :
  List.length x = List.length y -> mylen x = mylen y.
Proof. destruct x, y; simpl; congruence. Qed.


(** A sample is acceptable to the two densifying stages as soon as its
    lists have equal length, contain 0 and 10079 and nothing outside. *)
Definition accepted_sample (x : list Z) (y : list Q) : Prop :=
  covers_week x /\ List.length x = List.length y.

Lemma create_product_inventory_Ok (inv : DataFrame InventoryCurveRecord) :
  same_columns inventory_columns (columns inv) ->
  (forall c, In c (rows inv) -> accepted_sample (ic_X c) (ic_Y c)) ->
  create_product_inventory inv
  = (Ok {| columns := ["LOCATION"; "WEEK_START"; "X"; "INVENTORY_CURVE_ID"; "PRODUCT";
                       "CONSUMPTION_PROFILE_CURVE_ID"; "Y"];
           rows := densify_inventory
                     (flat_map (fun c => map (fun p => inventory_sample c (fst p) (snd p))
                                           (combine (ic_X c) (ic_Y c))) (rows inv)) |},
     inv).
Proof.
  intros Hc Hacc. unfold create_product_inventory, bind, get_args.
  rewrite (check_columns_ok _ _ _ Hc).
  rewrite check_boundary_passes.
  - unfold lift. rewrite explode_XY_Ok; [reflexivity|].
    intros c Hin. apply mylen_same. now apply Hacc.
  - intros x Hx. apply in_map_iff in Hx. destruct Hx as [c [<- Hin]]. now apply Hacc.
Qed.

Lemma interpolate_consumption_curves_Ok `{Float64Ops}
    (cc : DataFrame ConsumptionCurveRecord) (tpg : DataFrame TimePoint) :
  (forall c, In c (rows cc) -> accepted_sample (cc_X c) (cc_Y c)) ->
  interpolate_consumption_curves (cc, tpg)
  = (Ok {| columns := drop_column "Y" (columns tpg ++ ["Y"; "CONSUMPTION_Y"]);
           rows := interpolate_on_grid (rows tpg)
                     (flat_map (fun c => map (fun p => consumption_sample c (fst p) (snd p))
                                           (combine (cc_X c) (cc_Y c))) (rows cc)) |},
     (cc, tpg)).
Proof.
  intros Hacc. unfold interpolate_consumption_curves, bind, get_args.
  cbn [fst snd].
  rewrite check_boundary_passes.
  - unfold lift. rewrite explode_XY_Ok; [reflexivity|].
    intros c Hin. apply mylen_same. now apply Hacc.
  - intros x Hx. apply in_map_iff in Hx. destruct Hx as [c [<- Hin]]. now apply Hacc.
Qed.




(** Minutes that are not increasing: 10079 comes before 5000. *)
Definition inventory_unordered : DataFrame InventoryCurveRecord :=
  {| columns := inventory_columns;
     rows := [ {| ic_LOCATION := "A"; ic_PRODUCT := 1; ic_INVENTORY_CURVE_ID := 11;
                  ic_CONSUMPTION_PROFILE_CURVE_ID := 100;
                  ic_WEEK_START := "2023-06-12";
                  ic_X := [0; 10079; 5000]; ic_Y := [3; 0; 1]%Q |} ] |}.


(** The raw input of the pipeline with the same unordered minutes: one
    product in stock until the last minute of the week and a flat
    consumption curve. *)
Definition qos_data_unordered : DataFrame QosDataRow :=
  {| columns := ["LOCATION"; "PRODUCT"; "INVENTORY_CURVE_ID";
                 "CONSUMPTION_PROFILE_CURVE_ID"; "DATE"];
     rows := [ {| qd_LOCATION := "A"; qd_PRODUCT := 1; qd_INVENTORY_CURVE_ID := 11;
                  qd_CONSUMPTION_PROFILE_CURVE_ID := 100;
                  qd_DATE := Some "2023-06-12" |} ] |}.

Definition qos_curves_unordered : DataFrame CurveRow :=
  {| columns := ["CURVE_ID"; "CURVE_TYPE"; "WEEK_START"; "X"; "Y"];
     rows := [ {| cv_CURVE_ID := 11; cv_CURVE_TYPE := "inventory";
                  cv_WEEK_START := "2023-06-12";
                  cv_X := [0; 10079; 5000]; cv_Y := [3; 0; 1]%Q |};
               {| cv_CURVE_ID := 100; cv_CURVE_TYPE := "consumption_profile";
                  cv_WEEK_START := "2023-06-12";
                  cv_X := [0; 10079; 5000];
                  cv_Y := [1 # 10080; 1 # 10080; 1 # 10080]%Q |} ] |}.

Lemma unordered_minutes_accepted :
  accepted_sample [0; 10079; 5000] [3; 0; 1]%Q /\
  accepted_sample [0; 10079; 5000] [0; 1; 1 # 2]%Q.
Proof.
  split; (split; [|reflexivity]); (split; [simpl; tauto|]);
    (split; [simpl; tauto|]); intros y [<-|[<-|[<-|[]]]]; lia.
Qed.


(** ** Sorting *)

Section SortFacts.
Context {K : Type} `{Key K} {A : Type} (by_ : A -> K).

(** Row [a] sorts no later than row [b]. *)
Definition key_le (a b : A) : Prop := kleb (by_ a) (by_ b) = true.

Lemma merge_rows_nil_l (l : list A) : merge_rows by_ [] l = l.
Proof. destruct l; reflexivity. Qed.

Lemma merge_rows_nil_r (l : list A) : merge_rows by_ l [] = l.
Proof. destruct l; reflexivity. Qed.

Lemma merge_rows_cons (a1 a2 : A) (l1 l2 : list A) :
  merge_rows by_ (a1 :: l1) (a2 :: l2)
  = if kleb (by_ a1) (by_ a2) then a1 :: merge_rows by_ l1 (a2 :: l2)
    else a2 :: merge_rows by_ (a1 :: l1) l2.
Proof. reflexivity. Qed.

Lemma merge_rows_perm (l1 l2 : list A) :
  Permutation (l1 ++ l2) (merge_rows by_ l1 l2).
Proof.
  revert l2. induction l1 as [|a1 l1 IH1]; intro l2.
  - rewrite merge_rows_nil_l. reflexivity.
  - induction l2 as [|a2 l2 IH2].
    + rewrite merge_rows_nil_r, app_nil_r. reflexivity.
    + rewrite merge_rows_cons. destruct (kleb (by_ a1) (by_ a2)).
      * simpl. constructor. apply IH1.
      * etransitivity; [|constructor; exact IH2].
        symmetry. apply (Permutation_middle (a1 :: l1) l2 a2).
Qed.

Lemma merge_rows_sorted (l1 l2 : list A) :
  StronglySorted key_le l1 -> StronglySorted key_le l2 ->
  StronglySorted key_le (merge_rows by_ l1 l2).
Proof.
  revert l2. induction l1 as [|a1 l1 IH1]; intros l2 H1 H2.
  - now rewrite merge_rows_nil_l.
  - induction l2 as [|a2 l2 IH2].
    + now rewrite merge_rows_nil_r.
    + rewrite merge_rows_cons.
      apply StronglySorted_inv in H1. destruct H1 as [H1 F1].
      pose proof H2 as H2'.
      apply StronglySorted_inv in H2'. destruct H2' as [H2' F2].
      destruct (kleb (by_ a1) (by_ a2)) eqn:E.
      * constructor; [now apply IH1|].
        eapply Permutation_Forall; [apply merge_rows_perm|].
        apply Forall_app. split; [assumption|].
        constructor; [exact E|].
        eapply Forall_impl; [|exact F2].
        intros x Hx. unfold key_le in *. eapply kleb_trans; eassumption.
      * assert (E' : kleb (by_ a2) (by_ a1) = true).
        { destruct (kleb_total (by_ a1) (by_ a2)); congruence. }
        constructor; [apply IH2; assumption|].
        eapply Permutation_Forall; [apply merge_rows_perm|].
        apply Forall_app. split; [|assumption].
        constructor; [exact E'|].
        eapply Forall_impl; [|exact F1].
        intros x Hx. unfold key_le in *. eapply kleb_trans; eassumption.
Qed.

Definition run_rows (o : option (list A)) : list A :=
  match o with
  | Some l => l
  | None => []
  end.

Definition stack_rows (stack : list (option (list A))) : list A :=
  flat_map run_rows stack.

Definition stack_sorted (stack : list (option (list A))) : Prop :=
  Forall (fun o => StronglySorted key_le (run_rows o)) stack.

Lemma push_run_perm (stack : list (option (list A))) (l : list A) :
  Permutation (l ++ stack_rows stack) (stack_rows (push_run by_ stack l)).
Proof.
  revert l. induction stack as [|[l'|] stack IH]; intro l; simpl.
  - reflexivity.
  - etransitivity; [|apply IH].
    rewrite app_assoc. apply Permutation_app_tail.
    etransitivity; [apply Permutation_app_comm | apply merge_rows_perm].
  - reflexivity.
Qed.

Lemma push_run_sorted (stack : list (option (list A))) (l : list A) :
  stack_sorted stack -> StronglySorted key_le l ->
  stack_sorted (push_run by_ stack l).
Proof.
  revert l. induction stack as [|[l'|] stack IH]; intros l Hs Hl; simpl.
  - constructor; [assumption | constructor].
  - inversion Hs as [|o os Ho Hos]; subst.
    constructor; [constructor|]. apply IH; [assumption|].
    now apply merge_rows_sorted.
  - inversion Hs; subst. now constructor.
Qed.

Lemma merge_runs_perm (stack : list (option (list A))) :
  Permutation (stack_rows stack) (merge_runs by_ stack).
Proof.
  induction stack as [|[l|] stack IH]; simpl.
  - reflexivity.
  - etransitivity; [|apply merge_rows_perm].
    etransitivity; [apply Permutation_app_comm|].
    now apply Permutation_app_tail.
  - exact IH.
Qed.

Lemma merge_runs_sorted (stack : list (option (list A))) :
  stack_sorted stack -> StronglySorted key_le (merge_runs by_ stack).
Proof.
  induction stack as [|[l|] stack IH]; intro Hs; simpl.
  - constructor.
  - inversion Hs; subst. apply merge_rows_sorted; auto.
  - inversion Hs; subst. auto.
Qed.

Lemma sort_from_perm (stack : list (option (list A))) (l : list A) :
  Permutation (stack_rows stack ++ l) (sort_from by_ stack l).
Proof.
  revert stack. induction l as [|a l IH]; intro stack; simpl.
  - rewrite app_nil_r. apply merge_runs_perm.
  - etransitivity; [|apply IH].
    etransitivity; [symmetry; apply Permutation_middle|].
    change (a :: stack_rows stack ++ l) with (([a] ++ stack_rows stack) ++ l).
    apply Permutation_app_tail. apply push_run_perm.
Qed.

Lemma sort_from_sorted (stack : list (option (list A))) (l : list A) :
  stack_sorted stack -> StronglySorted key_le (sort_from by_ stack l).
Proof.
  revert stack. induction l as [|a l IH]; intros stack Hs; simpl.
  - now apply merge_runs_sorted.
  - apply IH. apply push_run_sorted; [assumption|].
    constructor; constructor.
Qed.

Lemma sort_values_perm (l : list A) : Permutation l (sort_values by_ l).
Proof. exact (sort_from_perm [] l). Qed.

Lemma sort_values_sorted (l : list A) : StronglySorted key_le (sort_values by_ l).
Proof. apply sort_from_sorted. constructor. Qed.

Lemma sort_values_In (l : list A) (a : A) : In a (sort_values by_ l) <-> In a l.
Proof.
  split; apply Permutation_in; [symmetry|]; apply sort_values_perm.
Qed.

End SortFacts.

(** ** Stability of the sort *)

Section SortStable.
Context {K : Type} `{Key K} {A : Type} (by_ : A -> K).

Lemma group_rows_app (l1 l2 : list A) (k : K) :
  group_rows by_ (l1 ++ l2) k = group_rows by_ l1 k ++ group_rows by_ l2 k.
Proof. apply filter_app. Qed.

Lemma group_rows_none (l : list A) (k : K) :
  (forall x, In x l -> by_ x <> k) -> group_rows by_ l k = [].
Proof.
  intro Hl. induction l as [|a l IH]; [reflexivity|].
  unfold group_rows in *. simpl.
  destruct (keqb k (by_ a)) eqn:E.
  - apply keqb_eq in E. exfalso. apply (Hl a); [now left | now symmetry].
  - apply IH. intros x Hx. apply Hl. now right.
Qed.

(** Merging two sorted runs keeps, among rows of equal key, those of the
    first run before those of the second. *)
Lemma merge_rows_stable (l1 l2 : list A) (k : K) :
  StronglySorted (key_le by_) l1 ->
  group_rows by_ (merge_rows by_ l1 l2) k = group_rows by_ l1 k ++ group_rows by_ l2 k.
Proof.
  revert l2. induction l1 as [|a1 l1 IH1]; intros l2 H1.
  - now rewrite merge_rows_nil_l.
  - induction l2 as [|a2 l2 IH2].
    + now rewrite merge_rows_nil_r, app_nil_r.
    + rewrite merge_rows_cons.
      destruct (kleb (by_ a1) (by_ a2)) eqn:E.
      * apply StronglySorted_inv in H1. destruct H1 as [H1 _].
        unfold group_rows in *. cbn [filter].
        destruct (keqb k (by_ a1)); cbn [app]; rewrite (IH1 _ H1); reflexivity.
      * unfold group_rows in *. cbn [filter] in *.
        destruct (keqb k (by_ a2)) eqn:E2; [|exact IH2].
        rewrite IH2. apply keqb_eq in E2.
        assert (N : filter (fun a => keqb k (by_ a)) (a1 :: l1) = []).
        { apply (group_rows_none (a1 :: l1) k). intros x Hx Ex.
          assert (Hle : key_le by_ a1 x).
          { destruct Hx as [<-|Hx]; [apply kleb_refl|].
            apply StronglySorted_inv in H1. destruct H1 as [_ F].
            rewrite Forall_forall in F. now apply F. }
          unfold key_le in Hle. rewrite Ex, E2 in Hle. congruence. }
        cbn [filter] in N. rewrite N. reflexivity.
Qed.

(** The rows of a stack of runs, the earliest first. *)
Fixpoint stack_order (stack : list (option (list A))) : list A :=
  match stack with
  | [] => []
  | o :: stack' => stack_order stack' ++ run_rows o
  end.

Lemma push_run_stable (stack : list (option (list A))) (l : list A) (k : K) :
  stack_sorted by_ stack ->
  group_rows by_ (stack_order (push_run by_ stack l)) k
  = group_rows by_ (stack_order stack ++ l) k.
Proof.
  revert l. induction stack as [|[l'|] stack IH]; intros l Hs; cbn [push_run stack_order run_rows].
  - reflexivity.
  - inversion Hs as [|o os Ho Hos]; subst. cbn [run_rows] in Ho.
    rewrite app_nil_r, (IH _ Hos), !group_rows_app, (merge_rows_stable _ _ _ Ho).
    now rewrite app_assoc.
  - now rewrite app_nil_r.
Qed.

Lemma merge_runs_stable (stack : list (option (list A))) (k : K) :
  stack_sorted by_ stack ->
  group_rows by_ (merge_runs by_ stack) k = group_rows by_ (stack_order stack) k.
Proof.
  induction stack as [|[l|] stack IH]; intro Hs; cbn [merge_runs stack_order run_rows].
  - reflexivity.
  - inversion Hs as [|o os Ho Hos]; subst.
    rewrite (merge_rows_stable _ _ _ (merge_runs_sorted by_ stack Hos)).
    now rewrite group_rows_app, (IH Hos).
  - inversion Hs as [|o os Ho Hos]; subst. now rewrite app_nil_r, (IH Hos).
Qed.

Lemma sort_from_stable (stack : list (option (list A))) (l : list A) (k : K) :
  stack_sorted by_ stack ->
  group_rows by_ (sort_from by_ stack l) k = group_rows by_ (stack_order stack ++ l) k.
Proof.
  revert stack. induction l as [|a l IH]; intros stack Hs; cbn [sort_from].
  - rewrite app_nil_r. now apply merge_runs_stable.
  - rewrite IH.
    + rewrite group_rows_app, (push_run_stable _ _ _ Hs), <- group_rows_app.
      now rewrite <- app_assoc.
    + apply push_run_sorted; [assumption|]. constructor; constructor.
Qed.

(** [sort_values] is stable: the rows of one key keep their order. *)
Lemma sort_values_stable (l : list A) (k : K) :
  group_rows by_ (sort_values by_ l) k = group_rows by_ l k.
Proof. apply (sort_from_stable [] l k). constructor. Qed.

(** A sorted table is determined by the rows of each key, in order. *)
Lemma stable_sorted_unique (s t : list A) :
  StronglySorted (key_le by_) s -> StronglySorted (key_le by_) t ->
  (forall k, group_rows by_ s k = group_rows by_ t k) -> s = t.
Proof.
  revert t. induction s as [|a s IH]; intros t Hs Ht Hg.
  - destruct t as [|b t]; [reflexivity|].
    specialize (Hg (by_ b)). unfold group_rows in Hg. cbn [filter] in Hg.
    rewrite keqb_refl in Hg. discriminate.
  - destruct t as [|b t].
    + specialize (Hg (by_ a)). unfold group_rows in Hg. cbn [filter] in Hg.
      rewrite keqb_refl in Hg. discriminate.
    + apply StronglySorted_inv in Hs. destruct Hs as [Hs Fs].
      apply StronglySorted_inv in Ht. destruct Ht as [Ht Ft].
      rewrite Forall_forall in Fs, Ft.
      assert (Hab : key_le by_ b a).
      { pose proof (Hg (by_ a)) as E. unfold group_rows in E. cbn [filter] in E.
        rewrite keqb_refl in E.
        assert (Hin : In a (filter (fun x => keqb (by_ a) (by_ x)) (b :: t))).
        { cbn [filter]. rewrite <- E. now left. }
        apply filter_In in Hin. destruct Hin as [[<-|Hin] _]; [apply kleb_refl | now apply Ft]. }
      assert (Hba : key_le by_ a b).
      { pose proof (Hg (by_ b)) as E. unfold group_rows in E. cbn [filter] in E.
        rewrite keqb_refl in E.
        assert (Hin : In b (filter (fun x => keqb (by_ b) (by_ x)) (a :: s))).
        { cbn [filter]. rewrite E. now left. }
        apply filter_In in Hin. destruct Hin as [[<-|Hin] _]; [apply kleb_refl | now apply Fs]. }
      pose proof (kleb_antisym _ _ Hba Hab) as Ek.
      assert (Eab : a = b).
      { pose proof (Hg (by_ a)) as E. unfold group_rows in E. cbn [filter] in E.
        rewrite <- Ek, keqb_refl in E. now injection E. }
      subst b. f_equal. apply IH; [assumption | assumption|].
      intro k. specialize (Hg k). unfold group_rows in *. cbn [filter] in Hg.
      destruct (keqb k (by_ a)); [now injection Hg | assumption].
Qed.

(** Two blocks of rows that sort alike minute by minute are interleaved
    by the sort, the row of the first block first. *)
Lemma sort_values_two_blocks (f g : Z -> A) (ms : list Z) :
  StronglySorted Z.lt ms ->
  (forall m, by_ (g m) = by_ (f m)) ->
  (forall m m', m <= m' -> kleb (by_ (f m)) (by_ (f m')) = true) ->
  (forall m m', by_ (f m) = by_ (f m') -> m = m') ->
  sort_values by_ (map f ms ++ map g ms) = flat_map (fun m => [f m; g m]) ms.
Proof.
  intros Hms Hg Hle Hinj.
  apply stable_sorted_unique; [apply sort_values_sorted | |].
  - induction Hms as [|m ms Hms IH F]; [constructor|].
    rewrite Forall_forall in F.
    assert (Hrest : forall x, In x (flat_map (fun m => [f m; g m]) ms) ->
                      kleb (by_ (f m)) (by_ x) = true).
    { intros x Hx. apply in_flat_map in Hx. destruct Hx as [m' [Hm' [<-|[<-|[]]]]];
        rewrite ?Hg; apply Hle; apply F in Hm'; lia. }
    cbn [flat_map app]. constructor; [constructor; [exact IH|]|].
    + apply Forall_forall. intros x Hx. unfold key_le. rewrite Hg. now apply Hrest.
    + constructor; [unfold key_le; rewrite Hg; apply kleb_refl|].
      apply Forall_forall. exact Hrest.
  - intro k. rewrite sort_values_stable, group_rows_app.
    induction Hms as [|m ms Hms IH F]; [reflexivity|].
    rewrite Forall_forall in F.
    cbn [flat_map app map]. unfold group_rows in *. cbn [filter].
    rewrite Hg. destruct (keqb k (by_ (f m))) eqn:E; [|exact IH].
    apply keqb_eq in E.
    assert (Nf : filter (fun a => keqb k (by_ a)) (map f ms) = []).
    { apply (group_rows_none (map f ms) k). intros x Hx Ex.
      apply in_map_iff in Hx. destruct Hx as [m' [<- Hm']].
      rewrite E in Ex. apply Hinj in Ex. apply F in Hm'. lia. }
    assert (Ng : filter (fun a => keqb k (by_ a)) (map g ms) = []).
    { apply (group_rows_none (map g ms) k). intros x Hx Ex.
      apply in_map_iff in Hx. destruct Hx as [m' [<- Hm']].
      rewrite Hg, E in Ex. apply Hinj in Ex. apply F in Hm'. lia. }
    rewrite <- IH, Nf, Ng. reflexivity.
Qed.

End SortStable.

(** ** Grouping *)

Section GroupFacts.
Context {K : Type} `{Key K}.

Lemma group_keys_In (ks : list K) (k : K) : In k (group_keys ks) <-> In k ks.
Proof.
  unfold group_keys. rewrite drop_duplicates_values. apply sort_values_In.
Qed.

Lemma group_keys_NoDup (ks : list K) : NoDup (group_keys ks).
Proof. apply drop_duplicates_values_NoDup. Qed.

Lemma groupby_agg_keys {A B} (key : A -> K) (agg : list A -> B) (l : list A) :
  map fst (groupby_agg key agg l) = group_keys (map key l).
Proof. unfold groupby_agg. rewrite map_map. simpl. apply map_id. Qed.

Lemma groupby_agg_In {A B} (key : A -> K) (agg : list A -> B) (l : list A)
    (k : K) (b : B) :
  In (k, b) (groupby_agg key agg l) <->
  In k (map key l) /\ b = agg (group_rows key l k).
Proof.
  unfold groupby_agg. rewrite in_map_iff. split.
  - intros [k' [E Hk']]. inversion E; subst.
    split; [now apply group_keys_In | reflexivity].
  - intros [Hk ->]. exists k. split; [reflexivity|]. now apply group_keys_In.
Qed.

(** With unique right keys a left join pairs every left row with the
    right row of its key, if there is one. *)
Lemma matches_unique {L R} (kl : L -> K) (kr : R -> K) (right : list R) (l : L) :
  NoDup (map kr right) ->
  matches kl kr right l
  = match find (fun r => keqb (kl l) (kr r)) right with
    | Some r => [r]
    | None => []
    end.
Proof.
  unfold matches. induction right as [|r right IH]; intro Hnd; simpl; [reflexivity|].
  inversion Hnd as [|x xs Hnin Hnd']; subst.
  destruct (keqb (kl l) (kr r)) eqn:E.
  - f_equal. apply keqb_eq in E.
    destruct (filter (fun r0 => keqb (kl l) (kr r0)) right) as [|r' rs] eqn:Ef;
      [reflexivity|].
    exfalso. assert (Hr' : In r' (filter (fun r0 => keqb (kl l) (kr r0)) right))
      by (rewrite Ef; now left).
    apply filter_In in Hr'. destruct Hr' as [Hr' E']. apply keqb_eq in E'.
    apply Hnin. rewrite <- E, E'. now apply in_map.
  - now apply IH.
Qed.

Lemma merge_left_cons {L R} (kl : L -> K) (kr : R -> K)
    (l : L) (left : list L) (right : list R) :
  merge_left kl kr (l :: left) right
  = match matches kl kr right l with
    | [] => [(l, None)]
    | ms => map (fun r => (l, Some r)) ms
    end ++ merge_left kl kr left right.
Proof. reflexivity. Qed.

Lemma merge_left_unique {L R} (kl : L -> K) (kr : R -> K)
    (left : list L) (right : list R) :
  NoDup (map kr right) ->
  merge_left kl kr left right
  = map (fun l => (l, find (fun r => keqb (kl l) (kr r)) right)) left.
Proof.
  intro Hnd.
  induction left as [|l left IH]; [reflexivity|].
  rewrite merge_left_cons, IH, (matches_unique kl kr right l Hnd).
  cbn [map]. destruct (find _ right); reflexivity.
Qed.

Lemma find_key_Some {R} (kr : R -> K) (right : list R) (k : K) (r : R) :
  find (fun r => keqb k (kr r)) right = Some r -> In r right /\ k = kr r.
Proof.
  intro E. apply find_some in E. destruct E as [Hin E]. apply keqb_eq in E. auto.
Qed.

Lemma find_key_In {R} (kr : R -> K) (right : list R) (k : K) :
  In k (map kr right) ->
  exists r, find (fun r => keqb k (kr r)) right = Some r.
Proof.
  intro Hin. destruct (find (fun r => keqb k (kr r)) right) as [r|] eqn:E; [eauto|].
  exfalso. apply in_map_iff in Hin. destruct Hin as [r [Ek Hr]].
  pose proof (find_none _ _ E r Hr) as N. simpl in N.
  rewrite <- Ek, keqb_refl in N. discriminate.
Qed.

End GroupFacts.

(** ** The quality of service *)

(** PA_RATIO at the (location, curve, week, minute) of row [c]. *)
Definition PA_RATIO_at (par : list AvailabilityRow) (c : ConsumptionInterpRow) : option Q :=
  match find (fun a => keqb (interp_key c) (availability_key a)) par with
  | Some a => pa_PA_RATIO a
  | None => None
  end.

Definition location_week (c : ConsumptionInterpRow) : string * string :=
  (ci_LOCATION c, ci_WEEK_START c).

(** The products PA_RATIO(minute) * CONSUMPTION_Y(minute) of the minutes of
    one location and week, in the order of the table; a minute one of
    whose factors is null has no product. *)
Definition weekly_products `{Float64Ops} (cci : list ConsumptionInterpRow)
    (par : list AvailabilityRow) (lw : string * string) : list Q :=
  flat_map (fun c =>
      match PA_RATIO_at par c, ci_CONSUMPTION_Y c with
      | Some p, Some y => [float_mul p y]
      | _, _ => []
      end)
    (filter (fun c => keqb lw (location_week c)) cci).

(** The sum over the minutes of one location and week of
    PA_RATIO(minute) * CONSUMPTION_Y(minute). *)
Definition weekly_sum `{Float64Ops} (cci : list ConsumptionInterpRow)
    (par : list AvailabilityRow) (lw : string * string) : Q :=
  group_sum (weekly_products cci par lw).

Lemma calc_quality_of_service_Ok `{Float64Ops}
    (cci : DataFrame ConsumptionInterpRow) (par : DataFrame AvailabilityRow) :
  same_columns interp_columns (columns cci) ->
  same_columns availability_columns (columns par) ->
  NoDup (map interp_key (rows cci)) ->
  NoDup (map availability_key (rows par)) ->
  returned calc_quality_of_service (cci, par)
  = Ok {| columns := ["QOS"];
          rows := map qos_row
            (groupby_agg (fun p => location_week (fst p))
               (fun g => nansum (map row_QOS g))
               (map (fun c => (c, find (fun a => keqb (interp_key c) (availability_key a))
                                     (rows par))) (rows cci))) |}.
Proof.
  intros Hc Hp Hl Hr.
  unfold returned, calc_quality_of_service, bind, get_args. cbn [fst snd].
  rewrite (check_columns_ok _ _ _ Hc), (check_columns_ok _ _ _ Hp).
  unfold lift.
  rewrite (proj2 (validate_one_to_one_Ok interp_key availability_key _ _) (conj Hl Hr)).
  unfold ret. cbn [fst]. rewrite (merge_left_unique _ _ _ _ Hr). reflexivity.
Qed.

(** The non-null products of the rows of one group are the products of
    its minutes. *)
Lemma group_sum_weekly `{Float64Ops} (cci : list ConsumptionInterpRow)
    (par : list AvailabilityRow) (lw : string * string) :
  nansum (map row_QOS
    (group_rows (fun p => location_week (fst p))
       (map (fun c => (c, find (fun a => keqb (interp_key c) (availability_key a)) par))
          cci) lw))
  = weekly_sum cci par lw.
Proof.
  unfold nansum, weekly_sum. f_equal. unfold weekly_products, group_rows, known.
  induction cci as [|c cci IH]; [reflexivity|].
  cbn [map filter fst]. destruct (keqb lw (location_week c)); [|exact IH].
  cbn [map flat_map]. rewrite IH. f_equal.
  unfold row_QOS, PA_RATIO_at, mul_cells. cbn [fst snd].
  destruct (find _ par) as [a|]; [destruct (pa_PA_RATIO a)|];
    destruct (ci_CONSUMPTION_Y c); reflexivity.
Qed.

(** One row per (location, week_start) of the input, whose QOS is the
    weekly sum; PA_RATIO(minute) is the ratio of the one availability row
    with the same key. *)
Definition is_weekly_qos `{Float64Ops} (cci : DataFrame ConsumptionInterpRow)
    (par : DataFrame AvailabilityRow) (qos : DataFrame QosRow) : Prop :=
  NoDup (map (fun r => (qs_LOCATION r, qs_WEEK_START r)) (rows qos)) /\
  (forall lw, In lw (map (fun r => (qs_LOCATION r, qs_WEEK_START r)) (rows qos)) <->
              In lw (map location_week (rows cci))) /\
  (forall r, In r (rows qos) ->
     qs_QOS r = weekly_sum (rows cci) (rows par) (qs_LOCATION r, qs_WEEK_START r)) /\
  (forall c, In c (rows cci) ->
     exists a, In a (rows par) /\ availability_key a = interp_key c /\
               PA_RATIO_at (rows par) c = pa_PA_RATIO a).

(** C1. When the rows of the interpolated consumption curves and of the
    product availability ratio match one-to-one on (location,
    consumption_profile_curve_id, week_start, minute),
    calc_quality_of_service returns exactly one row per (location,
    week_start) of the input, and its QOS is the float64 sum, taken in the
    order of the table, of the float64 products
    PA_RATIO(minute) * CONSUMPTION_Y(minute) over the minutes of that
    location and week (a minute with a null factor is skipped). *)
Theorem quality_of_service_is_weekly_sum `{Float64Ops} :
  forall cci par,
    same_columns interp_columns (columns cci) ->
    same_columns availability_columns (columns par) ->
    NoDup (map interp_key (rows cci)) ->
    NoDup (map availability_key (rows par)) ->
    (forall k, In k (map interp_key (rows cci)) <->
               In k (map availability_key (rows par))) ->
    exists qos,
      returned calc_quality_of_service (cci, par) = Ok qos /\
      is_weekly_qos cci par qos.
Proof.
  intros cci par Hc Hp Hl Hr Hkeys.
  eexists. split; [apply (calc_quality_of_service_Ok cci par Hc Hp Hl Hr)|].
  unfold is_weekly_qos. cbn [rows].
  set (merged := map (fun c => (c, find (fun a => keqb (interp_key c) (availability_key a))
                                     (rows par))) (rows cci)).
  set (agg := fun g : list (ConsumptionInterpRow * option AvailabilityRow) =>
                nansum (map row_QOS g)).
  assert (Ekeys : map (fun r => (qs_LOCATION r, qs_WEEK_START r))
                    (map qos_row (groupby_agg (fun p => location_week (fst p)) agg merged))
                  = group_keys (map location_week (rows cci))).
  { rewrite map_map.
    transitivity (map fst (groupby_agg (fun p => location_week (fst p)) agg merged)).
    - apply map_ext. intros [[l w] q]. reflexivity.
    - rewrite groupby_agg_keys. f_equal. unfold merged. rewrite map_map. reflexivity. }
  repeat split.
  - rewrite Ekeys. apply group_keys_NoDup.
  - rewrite Ekeys. apply group_keys_In.
  - rewrite Ekeys. apply group_keys_In.
  - intros r Hr'. apply in_map_iff in Hr'. destruct Hr' as [[lw q] [<- Hin]].
    apply groupby_agg_In in Hin. destruct Hin as [_ ->]. cbn [qos_row qs_QOS fst snd].
    destruct lw as [l w].
    exact (group_sum_weekly (rows cci) (rows par) (l, w)).
  - intros c Hin.
    destruct (find_key_In availability_key (rows par) (interp_key c)) as [a Ea].
    + apply Hkeys. now apply in_map.
    + exists a. apply find_key_Some in Ea as Ha. destruct Ha as [Ha Ek].
      repeat split; [assumption | now symmetry |].
      unfold PA_RATIO_at. now rewrite Ea.
Qed.

(** Two minutes of one location and week: ratios 1 and 1/2, consumption
    1/4 and 3/4; the products are 1/4 and 3/8 and the weekly sum is 5/8
    (no operation rounds on these values). *)
Definition two_minutes_interp : DataFrame ConsumptionInterpRow :=
  {| columns := interp_columns;
     rows := [ {| ci_LOCATION := "A"; ci_CONSUMPTION_PROFILE_CURVE_ID := 100;
                  ci_WEEK_START := "2023-06-12"; ci_X := 0;
                  ci_CONSUMPTION_Y := Some (1 # 4) |};
               {| ci_LOCATION := "A"; ci_CONSUMPTION_PROFILE_CURVE_ID := 100;
                  ci_WEEK_START := "2023-06-12"; ci_X := 1;
                  ci_CONSUMPTION_Y := Some (3 # 4) |} ] |}.

Definition two_minutes_availability : DataFrame AvailabilityRow :=
  {| columns := availability_columns;
     rows := [ {| pa_LOCATION := "A"; pa_CONSUMPTION_PROFILE_CURVE_ID := 100;
                  pa_WEEK_START := "2023-06-12"; pa_X := 0;
                  pa_PA_RATIO := Some 1%Q |};
               {| pa_LOCATION := "A"; pa_CONSUMPTION_PROFILE_CURVE_ID := 100;
                  pa_WEEK_START := "2023-06-12"; pa_X := 1;
                  pa_PA_RATIO := Some (1 # 2) |} ] |}.

Lemma quality_of_service_is_weekly_sum_witness :
  exists qos,
    returned calc_quality_of_service (two_minutes_interp, two_minutes_availability)
    = Ok qos /\
    is_weekly_qos two_minutes_interp two_minutes_availability qos /\
    weekly_products (rows two_minutes_interp) (rows two_minutes_availability)
      ("A", "2023-06-12") = [1 * (1 # 4); (1 # 2) * (3 # 4)]%Q /\
    rows qos = [ {| qs_LOCATION := "A"; qs_WEEK_START := "2023-06-12";
                    qs_QOS := 5 # 8 |} ].
Proof.
  destruct (quality_of_service_is_weekly_sum
              two_minutes_interp two_minutes_availability) as [qos [HOk Hweekly]].
  - intro c. tauto.
  - intro c. tauto.
  - apply is_unique_NoDup. reflexivity.
  - apply is_unique_NoDup. reflexivity.
  - intro k. simpl. tauto.
  - exists qos. split; [exact HOk|]. split; [exact Hweekly|]. split; [reflexivity|].
    vm_compute in HOk. injection HOk as <-. reflexivity.
Defined.

(** ** The availability ratio *)

(** Product 1 of location A is listed under two inventory curves, 11 and
    12, both of the week of 2023-06-12 and both with stock all week. *)
Definition qos_data_two_curves : DataFrame QosDataRow :=
  {| columns := ["LOCATION"; "PRODUCT"; "INVENTORY_CURVE_ID";
                 "CONSUMPTION_PROFILE_CURVE_ID"; "DATE"];
     rows := [ {| qd_LOCATION := "A"; qd_PRODUCT := 1; qd_INVENTORY_CURVE_ID := 11;
                  qd_CONSUMPTION_PROFILE_CURVE_ID := 100;
                  qd_DATE := Some "2023-06-12" |};
               {| qd_LOCATION := "A"; qd_PRODUCT := 1; qd_INVENTORY_CURVE_ID := 12;
                  qd_CONSUMPTION_PROFILE_CURVE_ID := 100;
                  qd_DATE := Some "2023-06-13" |} ] |}.

Definition qos_curves_two_curves : DataFrame CurveRow :=
  {| columns := ["CURVE_ID"; "CURVE_TYPE"; "WEEK_START"; "X"; "Y"];
     rows := [ {| cv_CURVE_ID := 11; cv_CURVE_TYPE := "inventory";
                  cv_WEEK_START := "2023-06-12";
                  cv_X := [0; 10079]; cv_Y := [5; 5]%Q |};
               {| cv_CURVE_ID := 12; cv_CURVE_TYPE := "inventory";
                  cv_WEEK_START := "2023-06-12";
                  cv_X := [0; 10079]; cv_Y := [4; 4]%Q |};
               {| cv_CURVE_ID := 100; cv_CURVE_TYPE := "consumption_profile";
                  cv_WEEK_START := "2023-06-12";
                  cv_X := [0; 10079]; cv_Y := [1 # 10080; 1 # 10080]%Q |} ] |}.

Definition inventory_two_curves : DataFrame InventoryCurveRecord :=
  {| columns := inventory_columns;
     rows := [ {| ic_LOCATION := "A"; ic_PRODUCT := 1; ic_INVENTORY_CURVE_ID := 11;
                  ic_CONSUMPTION_PROFILE_CURVE_ID := 100;
                  ic_WEEK_START := "2023-06-12";
                  ic_X := [0; 10079]; ic_Y := [5; 5]%Q |};
               {| ic_LOCATION := "A"; ic_PRODUCT := 1; ic_INVENTORY_CURVE_ID := 12;
                  ic_CONSUMPTION_PROFILE_CURVE_ID := 100;
                  ic_WEEK_START := "2023-06-12";
                  ic_X := [0; 10079]; ic_Y := [4; 4]%Q |} ] |}.

Definition consumption_flat : DataFrame ConsumptionCurveRecord :=
  {| columns := consumption_columns;
     rows := [ {| cc_LOCATION := "A"; cc_CONSUMPTION_PROFILE_CURVE_ID := 100;
                  cc_WEEK_START := "2023-06-12";
                  cc_X := [0; 10079]; cc_Y := [1 # 10080; 1 # 10080]%Q |} ] |}.

Definition inventory_row (x curve : Z) (y : Q) : ProductInventoryRow :=
  {| pi_LOCATION := "A"; pi_WEEK_START := "2023-06-12"; pi_X := x;
     pi_INVENTORY_CURVE_ID := curve; pi_PRODUCT := 1;
     pi_CONSUMPTION_PROFILE_CURVE_ID := Some 100;
     pi_Y := Some y; pi_PRODUCT_IN_STOCK := None |}.

Definition product_inventory_two_curves : DataFrame ProductInventoryRow :=
  {| columns := ["LOCATION"; "WEEK_START"; "X"; "INVENTORY_CURVE_ID"; "PRODUCT";
                 "CONSUMPTION_PROFILE_CURVE_ID"; "Y"];
     rows := [ inventory_row 0 11 5; inventory_row 10079 11 5;
               inventory_row 0 12 4; inventory_row 10079 12 4 ] |}.


(** ** Forward fill *)

Section FfillFacts.
Context {K : Type} `{Key K} {A V : Type}.
Variable key : A -> K.
Variable get : A -> option V.
Variable set : A -> option V -> A.

(** The values remembered per group once the rows of [l] have been seen. *)
Fixpoint state_after (seen : list (K * V)) (l : list A) : list (K * V) :=
  match l with
  | [] => seen
  | a :: t =>
      state_after (match get a with
                   | Some v => remember seen (key a) v
                   | None => seen
                   end) t
  end.

(** What forward fill makes of row [a] when [o] is the last value seen in
    its group. *)
Definition fill_row (a : A) (o : option V) : A :=
  match get a with
  | Some _ => a
  | None => set a o
  end.

Lemma last_seen_remember (seen : list (K * V)) (k k' : K) (v : V) :
  last_seen (remember seen k v) k'
  = if keqb k' k then Some v else last_seen seen k'.
Proof.
  induction seen as [|[k0 v0] seen IH]; simpl.
  - reflexivity.
  - destruct (keqb k k0) eqn:E; simpl.
    + apply keqb_eq in E. subst k0. destruct (keqb k' k); reflexivity.
    + destruct (keqb k' k0) eqn:E0.
      * apply keqb_eq in E0. subst k0.
        rewrite keqb_sym in E. now rewrite E.
      * exact IH.
Qed.

Lemma state_after_app (seen : list (K * V)) (l1 l2 : list A) :
  state_after seen (l1 ++ l2) = state_after (state_after seen l1) l2.
Proof.
  revert seen. induction l1 as [|a l1 IH]; intro seen; simpl; [reflexivity|].
  apply IH.
Qed.

Lemma ffill_from_In (seen : list (K * V)) (l : list A) (b : A) :
  In b (ffill_from key get set seen l) ->
  exists pre a post,
    l = pre ++ a :: post /\
    b = fill_row a (last_seen (state_after seen pre) (key a)).
Proof.
  revert seen. induction l as [|a l IH]; intro seen; simpl; [tauto|].
  destruct (get a) as [v|] eqn:Ea.
  - intros [<-|Hin].
    + exists [], a, l. split; [reflexivity|]. unfold fill_row. now rewrite Ea.
    + destruct (IH _ Hin) as [pre [x [post [-> Eb]]]].
      exists (a :: pre), x, post. split; [reflexivity|]. simpl. now rewrite Ea.
  - intros [<-|Hin].
    + exists [], a, l. split; [reflexivity|]. unfold fill_row. now rewrite Ea.
    + destruct (IH _ Hin) as [pre [x [post [-> Eb]]]].
      exists (a :: pre), x, post. split; [reflexivity|]. simpl. now rewrite Ea.
Qed.

(** Forward fill leaves every column other than the filled one as it was. *)
Lemma ffill_from_map {B} (f : A -> B) (seen : list (K * V)) (l : list A) :
  (forall a o, f (set a o) = f a) ->
  map f (ffill_from key get set seen l) = map f l.
Proof.
  intro Hf. revert seen. induction l as [|a l IH]; intro seen; simpl; [reflexivity|].
  destruct (get a); simpl; rewrite IH; [reflexivity|]. now rewrite Hf.
Qed.

(** The last value seen in group [k] is [v] as soon as, from some row of
    group [k] holding [v] on, the rows of the group hold [v] or nothing. *)
Lemma last_seen_state_after (seen : list (K * V)) (l : list A) (k : K) (v : V) :
  (forall b, In b l -> key b = k -> get b = None \/ get b = Some v) ->
  last_seen seen k = Some v \/ (exists q, In q l /\ key q = k /\ get q = Some v) ->
  last_seen (state_after seen l) k = Some v.
Proof.
  revert seen. induction l as [|b l IH]; intros seen Hall Hsome; simpl.
  - destruct Hsome as [E|[q [[] _]]]. exact E.
  - apply IH; [intros x Hx; apply Hall; now right|].
    destruct (keqb k (key b)) eqn:Ek.
    + apply keqb_eq in Ek. destruct (Hall b (or_introl eq_refl) (eq_sym Ek)) as [Eb|Eb];
        rewrite Eb.
      * destruct Hsome as [E|[q [[<-|Hq] [Ekq Eq]]]]; [now left | congruence |].
        right. eauto.
      * left. rewrite last_seen_remember. rewrite <- Ek. now rewrite keqb_refl.
    + destruct (get b) as [w|] eqn:Eb.
      * rewrite last_seen_remember, Ek.
        destruct Hsome as [E|[q [[<-|Hq] [Ekq Eq]]]]; [now left | |right; eauto].
        rewrite Ekq, keqb_refl in Ek. discriminate.
      * destruct Hsome as [E|[q [[<-|Hq] [Ekq Eq]]]]; [now left | congruence |].
        right. eauto.
Qed.

End FfillFacts.

(** ** Lists *)

Lemma NoDup_map_injective {A B} (f : A -> B) (l : list A) (x y : A) :
  NoDup (map f l) -> In x l -> In y l -> f x = f y -> x = y.
Proof.
  induction l as [|a l IH]; simpl; [tauto|].
  intros Hnd Hx Hy E. inversion Hnd as [|b bs Hnin Hnd']; subst.
  destruct Hx as [<-|Hx], Hy as [<-|Hy]; auto.
  - exfalso. apply Hnin. rewrite E. now apply in_map.
  - exfalso. apply Hnin. rewrite <- E. now apply in_map.
Qed.

Lemma combine_functional {A B} (x : list A) (y : list B) (a : A) (b b' : B) :
  NoDup x -> In (a, b) (combine x y) -> In (a, b') (combine x y) -> b = b'.
Proof.
  revert y. induction x as [|a0 x IH]; intros y Hnd; simpl; [tauto|].
  destruct y as [|b0 y]; simpl; [tauto|].
  inversion Hnd as [|a1 x1 Hnin Hnd']; subst.
  intros [E|Hin] [E'|Hin'].
  - congruence.
  - injection E as -> ->. apply in_combine_l in Hin'. contradiction.
  - injection E' as -> ->. apply in_combine_l in Hin. contradiction.
  - eapply IH; eassumption.
Qed.

Lemma in_combine_exists {A B} (x : list A) (y : list B) (a : A) :
  List.length x = List.length y -> In a x -> exists b, In (a, b) (combine x y).
Proof.
  revert y. induction x as [|a0 x IH]; intros y Hlen; simpl; [tauto|].
  destruct y as [|b0 y]; simpl in Hlen; [discriminate|].
  intros [<-|Hin].
  - exists b0. now left.
  - destruct (IH y) as [b Hb]; [congruence | assumption|]. exists b. now right.
Qed.

(** The greatest element of a list of minutes that does not exceed [x]. *)
Lemma greatest_or_none (l : list Z) (x : Z) :
  (forall m, In m l -> x < m) \/
  (exists m, In m l /\ m <= x /\ forall m', In m' l -> m' <= x -> m' <= m).
Proof.
  induction l as [|a l IH]; [left; intros m []|].
  destruct (Z_le_gt_dec a x) as [Ha|Ha], IH as [Hnone|[m [Hm [Lm Hmax]]]].
  - right. exists a. repeat split; [now left | assumption |].
    intros m' [<-|Hm'] Hle'; [lia|]. specialize (Hnone m' Hm'). lia.
  - right. destruct (Z_le_gt_dec a m).
    + exists m. repeat split; [now right | assumption |].
      intros m' [<-|Hm'] Hle'; auto.
    + exists a. repeat split; [now left | assumption |].
      intros m' [<-|Hm'] Hle'; [lia|]. specialize (Hmax m' Hm' Hle'). lia.
  - left. intros m [<-|Hm]; [lia | auto].
  - right. exists m. repeat split; [now right | assumption |].
    intros m' [<-|Hm'] Hle'; [lia | auto].
Qed.

Lemma greatest_at_or_before (l : list Z) (x : Z) :
  (exists m, In m l /\ m <= x) ->
  exists m, In m l /\ m <= x /\ forall m', In m' l -> m' <= x -> m' <= m.
Proof.
  intros [m0 [Hin Hle]]. destruct (greatest_or_none l x) as [Hnone|Hmax]; [|assumption].
  specialize (Hnone m0 Hin). lia.
Qed.

Lemma match_or_none {K} `{Key K} {L R} (kl : L -> K) (kr : R -> K)
    (right : list R) (l : L) :
  (exists r, In r right /\ kl l = kr r) \/ (forall r, In r right -> kl l <> kr r).
Proof.
  destruct (matches kl kr right l) as [|m ms] eqn:Em.
  - right. intros r Hr Ek.
    assert (Hm : In r (matches kl kr right l)) by (apply in_matches; auto).
    rewrite Em in Hm. destruct Hm.
  - left. exists m. apply in_matches. rewrite Em. now left.
Qed.

(** ** The inventory grid *)

Definition samples_of (c : InventoryCurveRecord) : list (Z * Q) :=
  combine (ic_X c) (ic_Y c).

Definition exploded_inventory (recs : list InventoryCurveRecord) : list InventorySample :=
  flat_map (fun c => map (fun p => inventory_sample c (fst p) (snd p)) (samples_of c)) recs.

Definition record_curve_id (c : InventoryCurveRecord) : CurveId :=
  (ic_LOCATION c, ic_INVENTORY_CURVE_ID c, ic_PRODUCT c, ic_WEEK_START c).

Lemma in_exploded_inventory (recs : list InventoryCurveRecord) (s : InventorySample) :
  In s (exploded_inventory recs) <->
  exists c m v, In c recs /\ In (m, v) (samples_of c) /\ s = inventory_sample c m v.
Proof.
  unfold exploded_inventory. rewrite in_flat_map. split.
  - intros [c [Hc Hs]]. apply in_map_iff in Hs. destruct Hs as [[m v] [<- Hmv]].
    exists c, m, v. auto.
  - intros [c [m [v [Hc [Hmv ->]]]]]. exists c. split; [assumption|].
    apply in_map_iff. exists (m, v). auto.
Qed.

Lemma in_matched {L R} (l : list (L * option R)) (x : L) (y : R) :
  In (x, y) (matched l) <-> In (x, Some y) l.
Proof.
  unfold matched. rewrite in_flat_map. split.
  - intros [[x' [y'|]] [Hin Hxy]]; simpl in Hxy; [|destruct Hxy].
    destruct Hxy as [E|[]]. now injection E as -> ->.
  - intro Hin. exists (x, Some y). split; [assumption | now left].
Qed.

Lemma in_inventory_time_point_grid (ex : list InventorySample) (t : Minute) (cid : CurveId) :
  In (t, cid) (matched (inventory_time_point_grid ex)) <->
  In t (map minute_of ex) /\ In cid (map curve_id_of ex) /\
  fst t = (fst (fst (fst cid)), snd cid).
Proof.
  rewrite in_matched. unfold inventory_time_point_grid.
  rewrite in_merge_left, !drop_duplicates_values. tauto.
Qed.

Lemma inventory_time_point_grid_matched (ex : list InventorySample)
    (t : Minute) (o : option CurveId) :
  In (t, o) (inventory_time_point_grid ex) -> o <> None.
Proof.
  unfold inventory_time_point_grid. rewrite in_merge_left, drop_duplicates_values.
  intros [Ht Ho] ->. apply in_map_iff in Ht. destruct Ht as [s [<- Hs]].
  apply (Ho (curve_id_of s)); [|reflexivity].
  apply drop_duplicates_values. now apply in_map.
Qed.

(** Whether the joined CONSUMPTION_PROFILE_CURVE_ID column is float64. *)
Definition ids_as_float (ex : list InventorySample) : bool :=
  some_unmatched
    (merge_left grid_key sample_key (matched (inventory_time_point_grid ex)) ex).

Lemma in_joined_inventory_grid (ex : list InventorySample) (r : ProductInventoryRow) :
  In r (joined_inventory_grid ex) <->
  exists t cid o,
    In t (map minute_of ex) /\ In cid (map curve_id_of ex) /\
    fst t = (fst (fst (fst cid)), snd cid) /\
    match o with
    | Some s => In s ex /\ grid_key (t, cid) = sample_key s
    | None => forall s, In s ex -> grid_key (t, cid) <> sample_key s
    end /\
    r = product_inventory_row (ids_as_float ex) ((t, cid), o).
Proof.
  unfold joined_inventory_grid. cbv zeta. fold (ids_as_float ex).
  rewrite in_map_iff. split.
  - intros [[[t cid] o] [<- Hin]]. apply in_merge_left in Hin.
    destruct Hin as [Hg Ho]. apply in_inventory_time_point_grid in Hg.
    exists t, cid, o. tauto.
  - intros [t [cid [o [Ht [Hc [Et [Ho ->]]]]]]].
    exists ((t, cid), o). split; [reflexivity|].
    apply in_merge_left. split; [|assumption].
    apply in_inventory_time_point_grid. tauto.
Qed.

Section InventoryGrid.
Variable recs : list InventoryCurveRecord.
Hypothesis curve_ids_unique : NoDup (map ic_INVENTORY_CURVE_ID recs).
Hypothesis minutes_unique : forall c, In c recs -> NoDup (ic_X c).
Hypothesis samples_accepted : forall c, In c recs -> accepted_sample (ic_X c) (ic_Y c).

(** The grid row of curve [c] at minute [x], joined with [o]. *)
Definition grid_row_of (as_float : bool) (c : InventoryCurveRecord) (x : Z)
    (o : option InventorySample) : ProductInventoryRow :=
  product_inventory_row as_float
    (((ic_LOCATION c, ic_WEEK_START c, x), record_curve_id c), o).

Lemma record_of_curve_id (c c' : InventoryCurveRecord) :
  In c recs -> In c' recs ->
  ic_INVENTORY_CURVE_ID c = ic_INVENTORY_CURVE_ID c' -> c = c'.
Proof. intros Hc Hc'. now apply NoDup_map_injective with (l := recs). Qed.

Lemma joined_row_inv (r : ProductInventoryRow) :
  In r (joined_inventory_grid (exploded_inventory recs)) ->
  exists c x o,
    In c recs /\ 0 <= x /\
    r = grid_row_of (ids_as_float (exploded_inventory recs)) c x o /\
    match o with
    | Some s => exists v, In (x, v) (samples_of c) /\ s = inventory_sample c x v
    | None => forall v, ~ In (x, v) (samples_of c)
    end.
Proof.
  intro Hr. apply in_joined_inventory_grid in Hr.
  destruct Hr as [t [cid [o [Ht [Hc [Et [Ho ->]]]]]]].
  apply in_map_iff in Hc. destruct Hc as [s0 [<- Hs0]].
  apply in_exploded_inventory in Hs0. destruct Hs0 as [c [m0 [v0 [Hc [Hmv0 ->]]]]].
  apply in_map_iff in Ht. destruct Ht as [s1 [<- Hs1]].
  apply in_exploded_inventory in Hs1. destruct Hs1 as [c1 [m1 [v1 [Hc1 [Hmv1 ->]]]]].
  simpl in Et. injection Et as El Ew.
  exists c, m1. 
  assert (Hpos : 0 <= m1).
  { apply in_combine_l in Hmv1. destruct (samples_accepted c1 Hc1) as [[_ [_ Hr]] _].
    apply Hr in Hmv1. lia. }
  destruct o as [s|].
  - destruct Ho as [Hs Ek]. apply in_exploded_inventory in Hs.
    destruct Hs as [c2 [m2 [v2 [Hc2 [Hmv2 ->]]]]].
    unfold grid_key, sample_key in Ek. simpl in Ek.
    injection Ek as _ Eid _ _ Em.
    assert (c2 = c) by (apply record_of_curve_id; auto). subst c2. subst m2.
    exists (Some (inventory_sample c m1 v2)). repeat split; [assumption | assumption | |].
    + unfold grid_row_of, record_curve_id, curve_id_of, minute_of,
        product_inventory_row. simpl. now rewrite El, Ew.
    + exists v2. auto.
  - exists None. repeat split; [assumption | assumption | |].
    + unfold grid_row_of, record_curve_id, curve_id_of, minute_of,
        product_inventory_row. simpl. now rewrite El, Ew.
    + intros v Hv. apply (Ho (inventory_sample c m1 v)).
      * apply in_exploded_inventory. exists c, m1, v. auto.
      * unfold grid_key, sample_key. simpl. now rewrite El, Ew.
Qed.

Lemma joined_row_intro (c c' : InventoryCurveRecord) (x : Z) :
  In c recs -> In c' recs ->
  ic_LOCATION c' = ic_LOCATION c -> ic_WEEK_START c' = ic_WEEK_START c ->
  In x (ic_X c') ->
  exists o, In (grid_row_of (ids_as_float (exploded_inventory recs)) c x o)
               (joined_inventory_grid (exploded_inventory recs)).
Proof.
  intros Hc Hc' El Ew Hx.
  destruct (in_combine_exists (ic_X c') (ic_Y c') x) as [v' Hv'];
    [apply (samples_accepted c' Hc') | assumption|].
  destruct (samples_accepted c Hc) as [[H0 _] Hlen].
  destruct (in_combine_exists (ic_X c) (ic_Y c) 0 Hlen H0) as [v0 Hv0].
  assert (Ht : In (ic_LOCATION c, ic_WEEK_START c, x)
                 (map minute_of (exploded_inventory recs))).
  { apply in_map_iff. exists (inventory_sample c' x v'). split.
    - unfold minute_of. simpl. now rewrite El, Ew.
    - apply in_exploded_inventory. exists c', x, v'. auto. }
  assert (Hcid : In (record_curve_id c) (map curve_id_of (exploded_inventory recs))).
  { apply in_map_iff. exists (inventory_sample c 0 v0). split; [reflexivity|].
    apply in_exploded_inventory. exists c, 0, v0. auto. }
  destruct (match_or_none grid_key sample_key (exploded_inventory recs)
              ((ic_LOCATION c, ic_WEEK_START c, x), record_curve_id c)) as [[s [Hs Ek]]|Hnone].
  - exists (Some s). apply in_joined_inventory_grid.
    exists (ic_LOCATION c, ic_WEEK_START c, x), (record_curve_id c), (Some s).
    repeat split; auto.
  - exists None. apply in_joined_inventory_grid.
    exists (ic_LOCATION c, ic_WEEK_START c, x), (record_curve_id c), None.
    repeat split; auto.
Qed.

End InventoryGrid.

Lemma StronglySorted_middle {A} (R : A -> A -> Prop) (l1 l2 : list A) (x : A) :
  StronglySorted R (l1 ++ x :: l2) ->
  (forall y, In y l1 -> R y x) /\ (forall y, In y l2 -> R x y).
Proof.
  induction l1 as [|a l1 IH]; simpl; intro Hs.
  - apply StronglySorted_inv in Hs. destruct Hs as [_ F].
    rewrite Forall_forall in F. split; [tauto | assumption].
  - apply StronglySorted_inv in Hs. destruct Hs as [Hs F].
    rewrite Forall_forall in F. destruct (IH Hs) as [H1 H2]. split; [|assumption].
    intros y [<-|Hy]; [|auto]. apply F. apply in_or_app. right. now left.
Qed.

Lemma kleb_same_fst {A B} `{Key A} `{Key B} (a : A) (b b' : B) :
  kleb (a, b) (a, b') = kleb b b'.
Proof. simpl. unfold pair_leb. simpl. now rewrite keqb_refl. Qed.

Section ForwardFill.
Variable recs : list InventoryCurveRecord.
Hypothesis curve_ids_unique : NoDup (map ic_INVENTORY_CURVE_ID recs).
Hypothesis minutes_unique : forall c, In c recs -> NoDup (ic_X c).
Hypothesis samples_accepted : forall c, In c recs -> accepted_sample (ic_X c) (ic_Y c).

Let joined : list ProductInventoryRow :=
  joined_inventory_grid (exploded_inventory recs).

(** A joined row holds the sample of its curve at its minute, if any. *)
Lemma joined_row_value (r : ProductInventoryRow) (c : InventoryCurveRecord) (v : Q) :
  In r joined -> In c recs -> ic_INVENTORY_CURVE_ID c = pi_INVENTORY_CURVE_ID r ->
  (pi_Y r = Some v <-> In (pi_X r, v) (samples_of c)).
Proof.
  intros Hr Hc Eid.
  destruct (joined_row_inv recs curve_ids_unique samples_accepted r Hr)
    as [c' [x [o [Hc' [_ [-> Ho]]]]]].
  simpl in Eid.
  assert (c = c') by (now apply (record_of_curve_id recs curve_ids_unique)).
  subst c'. simpl. destruct o as [s|]; simpl.
  - destruct Ho as [w [Hw ->]]. simpl. split.
    + intro E. injection E as <-. exact Hw.
    + intro Hv. f_equal.
      exact (combine_functional _ _ _ _ _ (minutes_unique c Hc) Hw Hv).
  - split; [discriminate|]. intro Hv. exfalso. exact (Ho v Hv).
Qed.

Lemma forward_fill_sorted (pre post : list ProductInventoryRow) (a : ProductInventoryRow) :
  sort_values (fun r => (pi_INVENTORY_CURVE_ID r, pi_X r)) joined = pre ++ a :: post ->
  exists c m v,
    In c recs /\ ic_INVENTORY_CURVE_ID c = pi_INVENTORY_CURVE_ID a /\
    In (m, v) (samples_of c) /\ m <= pi_X a /\
    (forall m', In m' (ic_X c) -> m' <= pi_X a -> m' <= m) /\
    pi_Y (fill_row pi_Y set_pi_Y a
            (last_seen (state_after pi_INVENTORY_CURVE_ID pi_Y [] pre)
               (pi_INVENTORY_CURVE_ID a))) = Some v.
Proof.
  intro EL.
  set (by_ := fun r => (pi_INVENTORY_CURVE_ID r, pi_X r)) in *.
  pose proof (sort_values_sorted by_ joined) as Hsorted.
  assert (HinL : forall r, In r (pre ++ a :: post) -> In r joined).
  { intros r Hr. rewrite <- EL in Hr. now apply sort_values_In in Hr. }
  assert (Ha : In a joined) by (apply HinL, in_or_app; right; now left).
  destruct (joined_row_inv recs curve_ids_unique samples_accepted a Ha)
    as [c [x [o [Hc [Hx [Ea Ho]]]]]].
  assert (Eid : ic_INVENTORY_CURVE_ID c = pi_INVENTORY_CURVE_ID a) by (now subst a).
  assert (Ex : pi_X a = x) by (now subst a).
  exists c.
  destruct (pi_Y a) as [v|] eqn:EY.
  - (* the row holds a sample of its own *)
    exists x, v. rewrite <- Ex.
    repeat split; [assumption | assumption | | lia | auto |].
    + now apply (joined_row_value a c v Ha Hc Eid).
    + unfold fill_row. now rewrite EY.
  - (* the value comes from the last sample before the row *)
    destruct (samples_accepted c Hc) as [[H0 _] Hlen].
    destruct (greatest_at_or_before (ic_X c) x) as [m [Hm [Lm Hmax]]];
      [exists 0; auto|].
    destruct (in_combine_exists (ic_X c) (ic_Y c) m Hlen Hm) as [v Hv].
    assert (Hlt : m < x).
    { destruct (Z.eq_dec m x) as [->|]; [|lia].
      rewrite <- Ex in Hv. apply (joined_row_value a c v Ha Hc Eid) in Hv. congruence. }
    destruct (joined_row_intro recs samples_accepted c c m Hc Hc eq_refl eq_refl Hm)
      as [oq Hq].
    set (q := grid_row_of _ c m oq) in *.
    assert (Eq_id : ic_INVENTORY_CURVE_ID c = pi_INVENTORY_CURVE_ID q) by reflexivity.
    assert (Eq_x : pi_X q = m) by reflexivity.
    assert (Eq_y : pi_Y q = Some v).
    { apply (joined_row_value q c v Hq Hc Eq_id). now rewrite Eq_x. }
    assert (HqL : In q (pre ++ a :: post)).
    { rewrite <- EL. now apply sort_values_In. }
    rewrite EL in Hsorted.
    destruct (StronglySorted_middle _ _ _ _ Hsorted) as [Hbefore Hafter].
    assert (Hq_pre : In q pre).
    { apply in_app_or in HqL. destruct HqL as [|[E|Hpost]]; [assumption | |].
      - rewrite E, Eq_x in Ex. lia.
      - apply Hafter in Hpost. unfold key_le, by_ in Hpost.
        rewrite <- Eq_id, <- Eid, kleb_same_fst in Hpost.
        apply Z.leb_le in Hpost. lia. }
    apply in_split in Hq_pre. destruct Hq_pre as [p1 [p2 Epre]].
    exists m, v. rewrite Ex.
    repeat split; [assumption | assumption | assumption | lia | assumption |].
    unfold fill_row. rewrite EY. simpl.
    rewrite Epre, state_after_app, <- Eid.
    apply last_seen_state_after.
    + intros b Hb Eb.
      assert (Hb_pre : In b pre).
      { rewrite Epre. apply in_or_app. now right. }
      assert (Hb_joined : In b joined).
      { apply HinL, in_or_app. now left. }
      destruct (pi_Y b) as [w|] eqn:EbY; [right | now left].
      apply (joined_row_value b c w Hb_joined Hc (eq_sym Eb)) in EbY as Hw.
      assert (Hle : pi_X b <= x).
      { pose proof (Hbefore b Hb_pre) as Hk. unfold key_le, by_ in Hk.
        rewrite Eb, <- Eid, kleb_same_fst in Hk. apply Z.leb_le in Hk. lia. }
      assert (Hge : m <= pi_X b).
      { destruct Hb as [<-|Hb2]; [lia|].
        rewrite Epre, <- app_assoc in Hsorted. simpl in Hsorted.
        destruct (StronglySorted_middle _ _ _ _ Hsorted) as [_ Hafter_q].
        assert (Hk : key_le by_ q b).
        { apply Hafter_q. apply in_or_app. now left. }
        unfold key_le, by_ in Hk.
        rewrite <- Eq_id, Eb, kleb_same_fst in Hk. apply Z.leb_le in Hk. lia. }
      assert (pi_X b = m).
      { apply in_combine_l in Hw as Hbx. specialize (Hmax _ Hbx Hle). lia. }
      f_equal. rewrite H in Hw.
      exact (combine_functional _ _ _ _ _ (minutes_unique c Hc) Hw Hv).
    + right. exists q. split; [now left|]. split; [now symmetry | assumption].
Qed.

End ForwardFill.

Lemma create_product_inventory_Ok_inv
    (inv : DataFrame InventoryCurveRecord) (out : DataFrame ProductInventoryRow) :
  returned create_product_inventory inv = Ok out ->
  same_columns inventory_columns (columns inv) /\
  (forall c, In c (rows inv) -> accepted_sample (ic_X c) (ic_Y c)) /\
  rows out = densify_inventory (exploded_inventory (rows inv)).
Proof.
  unfold returned, create_product_inventory, bind, get_args, lift, ret.
  unfold check_columns at 1.
  destruct (same_column_set inventory_columns (columns inv)) eqn:Ec; [|discriminate].
  cbn [ret].
  destruct (check_boundary_cases (map ic_X (rows inv)) inv) as [Eb|Eb]; rewrite Eb;
    [|discriminate].
  pose proof (check_boundary_Ok_inv (map ic_X (rows inv)) inv (tt, inv) Eb) as Hcov.
  unfold explode_XY.
  destruct (forallb _ (rows inv)) eqn:Ef; [|discriminate].
  cbn [fst]. intro E. injection E as <-.
  split; [now apply same_column_set_spec|]. split; [|reflexivity].
  intros c Hc. assert (Hcw : covers_week (ic_X c)) by (apply Hcov; now apply in_map).
  split; [assumption|].
  rewrite forallb_forall in Ef. apply Ef in Hc. apply Nat.eqb_eq in Hc.
  pose proof (covers_week_length _ Hcw) as Hlen.
  rewrite (mylen_long _ Hlen) in Hc.
  destruct (ic_Y c) as [|y ys]; simpl in Hc; [lia | exact Hc].
Qed.

Lemma fill_row_pi_Y_keeps (a : ProductInventoryRow) (o : option Q) :
  pi_INVENTORY_CURVE_ID (fill_row pi_Y set_pi_Y a o) = pi_INVENTORY_CURVE_ID a /\
  pi_X (fill_row pi_Y set_pi_Y a o) = pi_X a.
Proof. unfold fill_row. destruct (pi_Y a); split; reflexivity. Qed.

(** The output of create_product_inventory is the forward fill of the
    input curves: every minute sampled at the location and week of a curve
    has a row for that curve, and every row holds the value of the last
    sample of its curve at or before its minute. *)
Definition forward_filled (inv : DataFrame InventoryCurveRecord)
    (out : DataFrame ProductInventoryRow) : Prop :=
  (forall c c' m,
     In c (rows inv) -> In c' (rows inv) ->
     ic_LOCATION c' = ic_LOCATION c -> ic_WEEK_START c' = ic_WEEK_START c ->
     In m (ic_X c') ->
     exists r, In r (rows out) /\
               pi_INVENTORY_CURVE_ID r = ic_INVENTORY_CURVE_ID c /\ pi_X r = m) /\
  (forall r, In r (rows out) ->
     exists c m v,
       In c (rows inv) /\ ic_INVENTORY_CURVE_ID c = pi_INVENTORY_CURVE_ID r /\
       In (m, v) (samples_of c) /\ m <= pi_X r /\
       (forall m', In m' (ic_X c) -> m' <= pi_X r -> m' <= m) /\
       pi_Y r = Some v).

(** C4 (as the code has it). For inventory curve records with distinct
    inventory_curve_ids and distinct minutes within a record (the stage
    checks neither), whenever create_product_inventory
    returns (the boundary validation has passed), the stock Y of every
    grid row equals the value of the last sample of its curve at or
    before its minute, and no grid minute of a curve is left unfilled. *)
Theorem inventory_forward_fill :
  forall inv out,
    NoDup (map ic_INVENTORY_CURVE_ID (rows inv)) ->
    (forall c, In c (rows inv) -> NoDup (ic_X c)) ->
    returned create_product_inventory inv = Ok out ->
    forward_filled inv out.
Proof.
  intros inv out Hids Hmin HOk.
  destruct (create_product_inventory_Ok_inv inv out HOk) as [_ [Hacc Erows]].
  set (by_ := fun r => (pi_INVENTORY_CURVE_ID r, pi_X r)).
  set (joined := joined_inventory_grid (exploded_inventory (rows inv))).
  set (sorted := sort_values by_ joined).
  set (filled := groupby_ffill pi_INVENTORY_CURVE_ID pi_Y set_pi_Y sorted).
  assert (Eout : rows out
                 = groupby_ffill (fun r => (pi_LOCATION r, pi_WEEK_START r))
                     pi_CONSUMPTION_PROFILE_CURVE_ID
                     set_pi_CONSUMPTION_PROFILE_CURVE_ID filled) by exact Erows.
  split.
  - intros c c' m Hc Hc' El Ew Hm.
    destruct (joined_row_intro (rows inv) Hacc c c' m Hc Hc' El Ew Hm) as [o Hq].
    assert (Hin : In (by_ (grid_row_of (ids_as_float (exploded_inventory (rows inv))) c m o))
                     (map by_ (rows out))).
    { rewrite Eout. unfold groupby_ffill.
      rewrite (ffill_from_map _ _ _ by_) by reflexivity.
      unfold filled, groupby_ffill.
      rewrite (ffill_from_map _ _ _ by_) by reflexivity.
      apply in_map. unfold sorted. now apply sort_values_In. }
    apply in_map_iff in Hin. destruct Hin as [r [Er Hr]].
    exists r. split; [assumption|]. unfold by_ in Er. simpl in Er.
    injection Er as E1 E2. auto.
  - intros r Hr.
    set (f := fun r => (pi_INVENTORY_CURVE_ID r, pi_X r, pi_Y r)).
    assert (Hin : In (f r) (map f filled)).
    { rewrite Eout in Hr. unfold groupby_ffill in Hr.
      rewrite <- (ffill_from_map (fun r => (pi_LOCATION r, pi_WEEK_START r))
                    pi_CONSUMPTION_PROFILE_CURVE_ID
                    set_pi_CONSUMPTION_PROFILE_CURVE_ID f [] filled) by reflexivity.
      now apply in_map. }
    apply in_map_iff in Hin. destruct Hin as [r1 [Ef Hr1]].
    unfold f in Ef. injection Ef as Eid Ex Ey.
    unfold filled, groupby_ffill in Hr1. apply ffill_from_In in Hr1.
    destruct Hr1 as [pre [a [post [EL ->]]]].
    destruct (forward_fill_sorted (rows inv) Hids Hmin Hacc pre post a EL)
      as [c [m [v [Hc [Ec [Hv [Hle [Hmax EY]]]]]]]].
    destruct (fill_row_pi_Y_keeps a
                (last_seen (state_after pi_INVENTORY_CURVE_ID pi_Y [] pre)
                   (pi_INVENTORY_CURVE_ID a))) as [Kid Kx].
    exists c, m, v. rewrite <- Eid, <- Ex, <- Ey, Kid, Kx.
    repeat split; assumption.
Qed.

Definition inventory_scenario : DataFrame InventoryCurveRecord :=
  {| columns := inventory_columns;
     rows := [ {| ic_LOCATION := "A"; ic_PRODUCT := 1; ic_INVENTORY_CURVE_ID := 11;
                  ic_CONSUMPTION_PROFILE_CURVE_ID := 100;
                  ic_WEEK_START := "2023-06-12";
                  ic_X := [0; 10079]; ic_Y := [5; 5]%Q |};
               {| ic_LOCATION := "A"; ic_PRODUCT := 2; ic_INVENTORY_CURVE_ID := 12;
                  ic_CONSUMPTION_PROFILE_CURVE_ID := 100;
                  ic_WEEK_START := "2023-06-12";
                  ic_X := [0; 5000; 10079]; ic_Y := [3; 0; 0]%Q |} ] |}.

Definition scenario_row (x curve product : Z) (y : Q) : ProductInventoryRow :=
  {| pi_LOCATION := "A"; pi_WEEK_START := "2023-06-12"; pi_X := x;
     pi_INVENTORY_CURVE_ID := curve; pi_PRODUCT := product;
     pi_CONSUMPTION_PROFILE_CURVE_ID := Some 100;
     pi_Y := Some y; pi_PRODUCT_IN_STOCK := None |}.

(** Curve 11 has no sample at minute 5000: its row there holds 5, the
    value of its sample at minute 0. *)
Definition product_inventory_scenario : DataFrame ProductInventoryRow :=
  {| columns := ["LOCATION"; "WEEK_START"; "X"; "INVENTORY_CURVE_ID"; "PRODUCT";
                 "CONSUMPTION_PROFILE_CURVE_ID"; "Y"];
     rows := [ scenario_row 0 11 1 5; scenario_row 5000 11 1 5;
               scenario_row 10079 11 1 5;
               scenario_row 0 12 2 3; scenario_row 5000 12 2 0;
               scenario_row 10079 12 2 0 ] |}.

Lemma inventory_forward_fill_witness :
  returned create_product_inventory inventory_scenario = Ok product_inventory_scenario /\
  forward_filled inventory_scenario product_inventory_scenario.
Proof.
  assert (HOk : returned create_product_inventory inventory_scenario
                = Ok product_inventory_scenario) by (vm_compute; reflexivity).
  split; [exact HOk|].
  apply inventory_forward_fill.
  - apply is_unique_NoDup. reflexivity.
  - intros c [<-|[<-|[]]]; apply is_unique_NoDup; reflexivity.
  - exact HOk.
Defined.

(** Two records under one inventory_curve_id: products 1 and 2 of
    location A are both listed under curve 11.  Product 1 is sampled at
    minutes 0 and 10079 with stock 5; product 2 at 0, 5000 and 10079 with
    stock 3, 0 and 0. *)
Definition inventory_shared_curve_id : DataFrame InventoryCurveRecord :=
  {| columns := inventory_columns;
     rows := [ {| ic_LOCATION := "A"; ic_PRODUCT := 1; ic_INVENTORY_CURVE_ID := 11;
                  ic_CONSUMPTION_PROFILE_CURVE_ID := 100;
                  ic_WEEK_START := "2023-06-12";
                  ic_X := [0; 10079]; ic_Y := [5; 5]%Q |};
               {| ic_LOCATION := "A"; ic_PRODUCT := 2; ic_INVENTORY_CURVE_ID := 11;
                  ic_CONSUMPTION_PROFILE_CURVE_ID := 100;
                  ic_WEEK_START := "2023-06-12";
                  ic_X := [0; 5000; 10079]; ic_Y := [3; 0; 0]%Q |} ] |}.

Definition product_inventory_shared_curve_id : DataFrame ProductInventoryRow :=
  {| columns := ["LOCATION"; "WEEK_START"; "X"; "INVENTORY_CURVE_ID"; "PRODUCT";
                 "CONSUMPTION_PROFILE_CURVE_ID"; "Y"];
     rows := [ scenario_row 0 11 1 5; scenario_row 0 11 2 3;
               scenario_row 5000 11 1 3; scenario_row 5000 11 2 0;
               scenario_row 10079 11 1 5; scenario_row 10079 11 2 0 ] |}.

(** C4 does not hold as stated: create_product_inventory does not check
    that the inventory_curve_ids are distinct, and the forward fill is
    grouped by INVENTORY_CURVE_ID only.  With products 1 and 2 under curve
    11 the rows of both records alternate in the sorted group, and the row
    of product 1 at minute 5000, where product 1 has no sample, takes the
    stock 3 of product 2 at minute 0: it is neither the last sample of
    product 1 at or before minute 5000 (5, at minute 0) nor the sample of
    product 2 at minute 5000 (0). *)
Lemma shared_inventory_curve_id_mixes_records :
  returned create_product_inventory inventory_shared_curve_id
  = Ok product_inventory_shared_curve_id /\
  In (scenario_row 5000 11 1 3) (rows product_inventory_shared_curve_id) /\
  map samples_of (rows inventory_shared_curve_id)
  = [ [(0, 5%Q); (10079, 5%Q)]; [(0, 3%Q); (5000, 0%Q); (10079, 0%Q)] ] /\
  ~ forward_filled inventory_shared_curve_id product_inventory_shared_curve_id.
Proof.
  split; [vm_compute; reflexivity|].
  assert (Hrow : In (scenario_row 5000 11 1 3) (rows product_inventory_shared_curve_id))
    by (simpl; tauto).
  split; [exact Hrow|]. split; [reflexivity|].
  intros [_ Hfill].
  destruct (Hfill _ Hrow) as [c [m [v [Hc [_ [Hs [_ [Hmax Ey]]]]]]]].
  cbn [scenario_row pi_Y pi_X] in Hmax, Ey. injection Ey as <-.
  destruct Hc as [<-|[<-|[]]].
  - destruct Hs as [E|[E|[]]]; discriminate E.
  - destruct Hs as [E|[E|[E|[]]]]; try discriminate E.
    injection E as <-. specialize (Hmax 5000). cbn [ic_X] in Hmax.
    assert (5000 <= 0) by (apply Hmax; [simpl; tauto | lia]). lia.
Qed.

(** ** Linear interpolation *)

Lemma interpolate_from_length `{Float64Ops} (prev : option Q) (gap : Z) (l : list (option Q)) :
  List.length (interpolate_from prev gap l) = List.length l.
Proof.
  revert prev gap. induction l as [|[v|] l IH]; intros prev gap; simpl;
    [reflexivity | |]; now rewrite IH.
Qed.

(** Known values are kept. *)
Lemma interpolate_from_known `{Float64Ops} (prev : option Q) (gap : Z) (l : list (option Q))
    (k : nat) (v : Q) :
  nth_error l k = Some (Some v) ->
  nth_error (interpolate_from prev gap l) k = Some (Some v).
Proof.
  revert prev gap k. induction l as [|x l IH]; intros prev gap k.
  - destruct k; discriminate.
  - destruct k as [|k]; simpl.
    + intro E. injection E as ->. reflexivity.
    + intro E. destruct x; simpl; now apply IH.
Qed.

Lemma next_known_after_nulls (l : list (option Q)) (n : nat) (b : Q) :
  (forall p, (p < n)%nat -> nth_error l p = Some None) ->
  nth_error l n = Some (Some b) ->
  next_known l = Some (Z.of_nat n + 1, b).
Proof.
  revert n. induction l as [|x l IH]; intros n Hnull Hb.
  - destruct n; discriminate.
  - destruct n as [|n].
    + simpl in Hb. injection Hb as ->. reflexivity.
    + assert (Hx : x = None).
      { specialize (Hnull O (Nat.lt_0_succ n)). simpl in Hnull. congruence. }
      subst x. simpl.
      rewrite (IH n); [f_equal; f_equal; lia | | exact Hb].
      intros p Hp. apply (Hnull (S p)). lia.
Qed.

(** After a known value [a], [g] positions back, and before the next
    known value [b], [n] positions ahead, a null takes the value
    [numpy.interp] gives on the line from [a] to [b]. *)
Lemma interpolate_from_run `{Float64Ops} (a b : Q) (g : Z) (l : list (option Q)) (n p : nat) :
  (forall q, (q < n)%nat -> nth_error l q = Some None) ->
  nth_error l n = Some (Some b) ->
  (p < n)%nat ->
  nth_error (interpolate_from (Some a) g l) p
  = Some (Some (np_interp a b (g + Z.of_nat p) (g + Z.of_nat n))).
Proof.
  revert g n p. induction l as [|x l IH]; intros g n p Hnull Hb Hp.
  - destruct n; discriminate.
  - destruct n as [|n]; [lia|].
    assert (Hx : x = None).
    { specialize (Hnull O (Nat.lt_0_succ n)). simpl in Hnull. congruence. }
    subst x.
    assert (Hnull' : forall q, (q < n)%nat -> nth_error l q = Some None).
    { intros q Hq. apply (Hnull (S q)). lia. }
    simpl in Hb. destruct p as [|p].
    + cbn [interpolate_from nth_error].
      rewrite (next_known_after_nulls l n b Hnull' Hb).
      replace (g + Z.of_nat 0) with g by lia.
      replace (g + Z.of_nat (S n)) with (g + (Z.of_nat n + 1)) by lia.
      reflexivity.
    + cbn [interpolate_from nth_error].
      rewrite (IH (g + 1) n p Hnull' Hb) by lia.
      replace (g + 1 + Z.of_nat p) with (g + Z.of_nat (S p)) by lia.
      replace (g + 1 + Z.of_nat n) with (g + Z.of_nat (S n)) by lia.
      reflexivity.
Qed.

(** Between two known values with only nulls in between, position [k]
    takes the value of the line through them. *)
Lemma interpolate_from_between `{Float64Ops} (prev : option Q) (gap : Z) (l : list (option Q))
    (i j k : nat) (a b : Q) :
  (i < k < j)%nat ->
  nth_error l i = Some (Some a) ->
  nth_error l j = Some (Some b) ->
  (forall p, (i < p < j)%nat -> nth_error l p = Some None) ->
  nth_error (interpolate_from prev gap l) k
  = Some (Some (np_interp a b (Z.of_nat k - Z.of_nat i) (Z.of_nat j - Z.of_nat i))).
Proof.
  revert prev gap i j k. induction l as [|x l IH]; intros prev gap i j k Hk Ha Hb Hnull.
  - destruct i; discriminate.
  - destruct k as [|k]; [lia|]. destruct j as [|j]; [lia|].
    destruct i as [|i].
    + simpl in Ha. injection Ha as ->. cbn [interpolate_from nth_error].
      simpl in Hb.
      rewrite (interpolate_from_run a b 1 l j k); [| |exact Hb|lia].
      * replace (1 + Z.of_nat k) with (Z.of_nat (S k) - Z.of_nat 0) by lia.
        replace (1 + Z.of_nat j) with (Z.of_nat (S j) - Z.of_nat 0) by lia.
        reflexivity.
      * intros q Hq. apply (Hnull (S q)). lia.
    + simpl in Ha, Hb.
      assert (E : nth_error (interpolate_from prev gap (x :: l)) (S k)
                  = nth_error (interpolate_from
                                 (match x with Some v => Some v | None => prev end)
                                 (match x with Some _ => 1 | None => gap + 1 end) l) k).
      { destruct x; reflexivity. }
      rewrite E, (IH _ _ i j k); [| lia | exact Ha | exact Hb |].
      * replace (Z.of_nat (S k) - Z.of_nat (S i)) with (Z.of_nat k - Z.of_nat i) by lia.
        replace (Z.of_nat (S j) - Z.of_nat (S i)) with (Z.of_nat j - Z.of_nat i) by lia.
        reflexivity.
      * intros p Hp. apply (Hnull (S p)). lia.
Qed.

Lemma interpolate_linear_known `{Float64Ops} (l : list (option Q)) (k : nat) (v : Q) :
  nth_error l k = Some (Some v) ->
  nth_error (interpolate_linear l) k = Some (Some v).
Proof. apply interpolate_from_known. Qed.

Lemma interpolate_linear_between `{Float64Ops} (l : list (option Q)) (i j k : nat) (a b : Q) :
  (i < k < j)%nat ->
  nth_error l i = Some (Some a) ->
  nth_error l j = Some (Some b) ->
  (forall p, (i < p < j)%nat -> nth_error l p = Some None) ->
  nth_error (interpolate_linear l) k
  = Some (Some (np_interp a b (Z.of_nat k - Z.of_nat i) (Z.of_nat j - Z.of_nat i))).
Proof. apply interpolate_from_between. Qed.

Lemma interpolate_linear_length `{Float64Ops} (l : list (option Q)) :
  List.length (interpolate_linear l) = List.length l.
Proof. apply interpolate_from_length. Qed.

Lemma same_option {A} (o : option A) (x y : A) : o = Some x -> o = Some y -> x = y.
Proof. congruence. Qed.

(** A column made of blocks that each start and end with a known value
    is interpolated block by block. *)
Definition closed_block (b : list (option Q)) : Prop :=
  (exists v t, b = Some v :: t) /\ (exists t w, b = t ++ [Some w]).

Lemma next_known_closed (l1 l2 : list (option Q)) (w : Q) :
  next_known ((l1 ++ [Some w]) ++ l2) = next_known (l1 ++ [Some w]).
Proof.
  induction l1 as [|[v|] l1 IH]; simpl; [reflexivity | reflexivity |].
  now rewrite IH.
Qed.

Lemma interpolate_from_closed `{Float64Ops} (prev : option Q) (gap : Z)
    (l1 l2 : list (option Q)) (w : Q) :
  interpolate_from prev gap ((l1 ++ [Some w]) ++ l2)
  = interpolate_from prev gap (l1 ++ [Some w]) ++ interpolate_from (Some w) 1 l2.
Proof.
  revert prev gap. induction l1 as [|[v|] l1 IH]; intros prev gap.
  - reflexivity.
  - cbn [app interpolate_from]. now rewrite IH.
  - cbn [app interpolate_from]. rewrite IH, next_known_closed. reflexivity.
Qed.

Lemma interpolate_from_start `{Float64Ops} (prev prev' : option Q) (gap gap' : Z)
    (v : Q) (t : list (option Q)) :
  interpolate_from prev gap (Some v :: t) = interpolate_from prev' gap' (Some v :: t).
Proof. reflexivity. Qed.

Lemma interpolate_blocks `{Float64Ops}
    (prev : option Q) (gap : Z) (blocks : list (list (option Q))) :
  (forall b, In b blocks -> closed_block b) ->
  interpolate_from prev gap (List.concat blocks) = List.concat (map interpolate_linear blocks).
Proof.
  revert prev gap. induction blocks as [|b blocks IH]; intros prev gap Hclosed;
    [reflexivity|].
  destruct (Hclosed b (or_introl eq_refl)) as [[v [t Eb]] [t' [w Eb']]].
  cbn [List.concat map]. rewrite Eb' at 1. rewrite interpolate_from_closed, <- Eb'.
  rewrite IH by (intros b' Hb'; apply Hclosed; now right).
  f_equal. unfold interpolate_linear. rewrite Eb. apply interpolate_from_start.
Qed.

(** ** The consumption grid *)

Definition consumption_samples (c : ConsumptionCurveRecord) : list (Z * Q) :=
  combine (cc_X c) (cc_Y c).

Definition exploded_consumption (recs : list ConsumptionCurveRecord)
  : list ConsumptionSample :=
  flat_map (fun c => map (fun p => consumption_sample c (fst p) (snd p))
                       (consumption_samples c)) recs.

Definition grid_point (c : ConsumptionCurveRecord) (m : Z) : TimePoint :=
  {| tg_LOCATION := cc_LOCATION c;
     tg_CONSUMPTION_PROFILE_CURVE_ID := cc_CONSUMPTION_PROFILE_CURVE_ID c;
     tg_WEEK_START := cc_WEEK_START c;
     tg_X := m |}.

Definition curve_location_week (c : ConsumptionCurveRecord) : string * string :=
  (cc_LOCATION c, cc_WEEK_START c).

(** The sample joined to a grid point, when sample keys are unique. *)
Definition sample_at (ex : list ConsumptionSample) (g : TimePoint)
  : option ConsumptionSample :=
  find (fun s => keqb (time_point_key g) (consumption_sample_key s)) ex.

(** The joined rows of one curve, minute by minute. *)
Definition curve_block (ex : list ConsumptionSample) (c : ConsumptionCurveRecord)
  : list (TimePoint * option ConsumptionSample) :=
  map (fun m => (grid_point c m, sample_at ex (grid_point c m))) time_range.

Definition grid_sort_key (p : TimePoint * option ConsumptionSample)
  : string * string * Z :=
  (tg_LOCATION (fst p), tg_WEEK_START (fst p), tg_X (fst p)).

Lemma in_exploded_consumption (recs : list ConsumptionCurveRecord) (s : ConsumptionSample) :
  In s (exploded_consumption recs) <->
  exists c m v, In c recs /\ In (m, v) (consumption_samples c) /\
                s = consumption_sample c m v.
Proof.
  unfold exploded_consumption. rewrite in_flat_map. split.
  - intros [c [Hc Hs]]. apply in_map_iff in Hs. destruct Hs as [[m v] [<- Hmv]].
    exists c, m, v. auto.
  - intros [c [m [v [Hc [Hmv ->]]]]]. exists c. split; [assumption|].
    apply in_map_iff. exists (m, v). auto.
Qed.

Lemma map_fst_combine {A B} (x : list A) (y : list B) :
  List.length x = List.length y -> map fst (combine x y) = x.
Proof.
  revert y. induction x as [|a x IH]; intros [|b y] Hlen; simpl in *;
    try reflexivity; try discriminate.
  f_equal. apply IH. congruence.
Qed.

Lemma map_flat_map {A B C} (f : B -> C) (g : A -> list B) (l : list A) :
  map f (flat_map g l) = flat_map (fun a => map f (g a)) l.
Proof.
  induction l as [|a l IH]; [reflexivity|].
  cbn [flat_map]. now rewrite map_app, IH.
Qed.

Lemma combine_flat_map {A B C} (f : A -> list B) (g : A -> list C) (l : list A) :
  (forall a, In a l -> List.length (f a) = List.length (g a)) ->
  combine (flat_map f l) (flat_map g l) = flat_map (fun a => combine (f a) (g a)) l.
Proof.
  induction l as [|a l IH]; intro Hlen; [reflexivity|].
  cbn [flat_map]. rewrite <- IH by (intros a' Ha'; apply Hlen; now right).
  assert (E := Hlen a (or_introl eq_refl)).
  revert E. generalize (f a) (g a) (flat_map f l) (flat_map g l).
  intros x. induction x as [|b x IHx]; intros [|c y] r1 r2 E; simpl in *;
    try reflexivity; try discriminate.
  f_equal. apply IHx. congruence.
Qed.

Lemma StronglySorted_app_intro {A} (R : A -> A -> Prop) (l1 l2 : list A) :
  StronglySorted R l1 -> StronglySorted R l2 ->
  (forall x y, In x l1 -> In y l2 -> R x y) ->
  StronglySorted R (l1 ++ l2).
Proof.
  induction l1 as [|a l1 IH]; intros H1 H2 Hc; simpl; [assumption|].
  apply StronglySorted_inv in H1. destruct H1 as [H1 F1].
  constructor.
  - apply IH; [assumption | assumption|]. intros x y Hx Hy. apply Hc; [now right | assumption].
  - apply Forall_app. split; [assumption|].
    apply Forall_forall. intros y Hy. apply Hc; [now left | assumption].
Qed.

(** Two sorted lists with the same rows are equal when no two distinct
    rows sort alike. *)
Lemma sorted_unique {A} (R : A -> A -> Prop) (l1 l2 : list A) :
  StronglySorted R l1 -> StronglySorted R l2 -> Permutation l1 l2 ->
  (forall a b, In a l1 -> In b l1 -> R a b -> R b a -> a = b) ->
  l1 = l2.
Proof.
  revert l2. induction l1 as [|a l1 IH]; intros l2 H1 H2 Hp Hanti.
  - apply Permutation_nil in Hp. now subst.
  - destruct l2 as [|b l2].
    + symmetry in Hp. apply Permutation_nil in Hp. discriminate.
    + apply StronglySorted_inv in H1. destruct H1 as [H1 F1].
      apply StronglySorted_inv in H2. destruct H2 as [H2 F2].
      rewrite Forall_forall in F1, F2.
      assert (Hb : In b (a :: l1)).
      { apply (Permutation_in b (Permutation_sym Hp)). now left. }
      assert (Ha : In a (b :: l2)).
      { apply (Permutation_in a Hp). now left. }
      assert (E : a = b).
      { destruct Hb as [E|Hb]; [assumption|].
        destruct Ha as [E|Ha]; [now symmetry|].
        apply Hanti; [now left | now right | now apply F1 | now apply F2]. }
      subst b. f_equal. apply IH; [assumption | assumption | |].
      * now apply Permutation_cons_inv in Hp.
      * intros x y Hx Hy. apply Hanti; now right.
Qed.

Lemma minutes_sorted (a n : nat) :
  StronglySorted Z.le (map Z.of_nat (seq a n)).
Proof.
  revert a. induction n as [|n IH]; intro a; simpl; constructor; [apply IH|].
  apply Forall_forall. intros y Hy. apply in_map_iff in Hy.
  destruct Hy as [k [<- Hk]]. apply in_seq in Hk. lia.
Qed.

Lemma in_time_range (m : Z) : In m time_range <-> 0 <= m < 10080.
Proof.
  unfold time_range. rewrite in_map_iff. split.
  - intros [k [<- Hk]]. apply in_seq in Hk. lia.
  - intro Hm. exists (Z.to_nat m). split; [lia|]. apply in_seq. lia.
Qed.

Lemma nth_error_time_range (k : nat) :
  Z.of_nat k < 10080 -> nth_error time_range k = Some (Z.of_nat k).
Proof.
  intro Hk. unfold time_range. rewrite nth_error_map, nth_error_seq.
  assert (E : Nat.ltb k (Z.to_nat 10080) = true) by (apply Nat.ltb_lt; lia).
  now rewrite E.
Qed.

Lemma time_range_first : exists t, time_range = 0 :: t.
Proof.
  unfold time_range. replace (Z.to_nat 10080) with (S (Z.to_nat 10079)) by lia.
  cbn [seq map]. eauto.
Qed.

Lemma time_range_last : exists t, time_range = t ++ [10079].
Proof.
  unfold time_range. replace (Z.to_nat 10080) with (S (Z.to_nat 10079)) by lia.
  rewrite seq_S, map_app. cbn [map].
  replace (Z.of_nat (0 + Z.to_nat 10079)) with 10079 by lia. eauto.
Qed.

(** ** Product availability ratio *)

Lemma NoDup_map_of_injective {A B} (f : A -> B) (l : list A) :
  (forall x y, f x = f y -> x = y) -> NoDup l -> NoDup (map f l).
Proof.
  intros Hf Hnd. induction Hnd as [|a l Hnin Hnd IH]; simpl; constructor; [|assumption].
  intro Hin. apply in_map_iff in Hin. destruct Hin as [x [E Hx]].
  apply Hf in E. now subst.
Qed.

Lemma time_range_NoDup : NoDup time_range.
Proof.
  unfold time_range. apply NoDup_map_of_injective; [|apply seq_NoDup].
  intros x y E. lia.
Qed.

(** The tables calc_product_availability_ratio builds on the way. *)
Definition distinct_products_of (pig : list ProductInventoryRow)
  : list ((string * string) * Z) :=
  groupby_agg (fun r => (pi_WEEK_START r, pi_LOCATION r))
    (fun g => nunique (map pi_PRODUCT g)) pig.

Definition products_in_stock_of (pig : list ProductInventoryRow) : list (Minute * Z) :=
  groupby_agg (fun r => (pi_LOCATION r, pi_WEEK_START r, pi_X r))
    (fun g => sum_Z (map stock_of g)) (map set_pi_PRODUCT_IN_STOCK pig).

Definition week_location (d : (string * string) * Z) : string * string :=
  (snd (fst d), fst (fst d)).

Definition par_data_of (pig : list ProductInventoryRow) : list (Minute * option Q) :=
  map (fun p => (fst (fst p), pa_ratio p))
    (merge_left (fun s : Minute * Z => fst (fst s)) week_location
       (products_in_stock_of pig) (distinct_products_of pig)).

Definition ratio_on_grid (pig : list ProductInventoryRow) (g : TimePoint) : AvailabilityRow :=
  availability_row (g, find (fun d => keqb (time_point_minute g) (fst d)) (par_data_of pig)).

Lemma distinct_products_keys_NoDup (pig : list ProductInventoryRow) :
  NoDup (map week_location (distinct_products_of pig)).
Proof.
  unfold distinct_products_of.
  replace (map week_location (groupby_agg (fun r => (pi_WEEK_START r, pi_LOCATION r))
             (fun g => nunique (map pi_PRODUCT g)) pig))
    with (map (fun k : string * string => (snd k, fst k))
            (map fst (groupby_agg (fun r => (pi_WEEK_START r, pi_LOCATION r))
               (fun g => nunique (map pi_PRODUCT g)) pig)))
    by (rewrite map_map; reflexivity).
  rewrite groupby_agg_keys. apply NoDup_map_of_injective; [|apply group_keys_NoDup].
  intros [a b] [a' b'] E. simpl in E. congruence.
Qed.

Lemma par_data_keys_NoDup (pig : list ProductInventoryRow) :
  NoDup (map fst (par_data_of pig)).
Proof.
  unfold par_data_of.
  rewrite (merge_left_unique _ _ _ _ (distinct_products_keys_NoDup pig)).
  rewrite !map_map. cbn [fst].
  change (map (fun x : Minute * Z => fst x) (products_in_stock_of pig))
    with (map fst (products_in_stock_of pig)).
  unfold products_in_stock_of. rewrite groupby_agg_keys. apply group_keys_NoDup.
Qed.

Lemma calc_product_availability_ratio_Ok
    (pig : DataFrame ProductInventoryRow) (tpg : DataFrame TimePoint) :
  same_columns inventory_columns (columns pig) ->
  same_columns time_grid_columns (columns tpg) ->
  NoDup (map time_point_minute (rows tpg)) ->
  returned calc_product_availability_ratio (pig, tpg)
  = Ok {| columns := ratio_columns (columns tpg);
          rows := groupby_ffill (fun r => (pa_LOCATION r, pa_WEEK_START r))
                    pa_PA_RATIO set_pa_PA_RATIO
                    (sort_values (fun r => (pa_LOCATION r, pa_WEEK_START r, pa_X r))
                       (map (ratio_on_grid (rows pig)) (rows tpg))) |}.
Proof.
  intros Hp Ht Hnd.
  unfold returned, calc_product_availability_ratio, bind, get_args, put_args.
  cbn [fst snd columns rows].
  rewrite (check_columns_ok _ _ _ Hp), (check_columns_ok _ _ _ Ht).
  unfold lift, ret. cbn [fst snd columns rows].
  fold (distinct_products_of (rows pig)). fold (products_in_stock_of (rows pig)).
  fold week_location.
  unfold validate_many_to_one.
  rewrite (proj2 (is_unique_NoDup _) (distinct_products_keys_NoDup (rows pig))).
  fold (par_data_of (rows pig)).
  rewrite (proj2 (validate_one_to_one_Ok time_point_minute fst _ _)
             (conj Hnd (par_data_keys_NoDup (rows pig)))).
  cbn [fst].
  rewrite (merge_left_unique _ _ _ _ (par_data_keys_NoDup (rows pig))).
  rewrite map_map. reflexivity.
Qed.

Lemma par_data_two_curves :
  par_data_of (rows product_inventory_two_curves)
  = [ (("A", "2023-06-12", 0), Some (2 # 1)); (("A", "2023-06-12", 10079), Some (2 # 1)) ].
Proof. vm_compute. reflexivity. Qed.

Definition flat_curve : ConsumptionCurveRecord :=
  {| cc_LOCATION := "A"; cc_CONSUMPTION_PROFILE_CURVE_ID := 100;
     cc_WEEK_START := "2023-06-12";
     cc_X := [0; 10079]; cc_Y := [1 # 10080; 1 # 10080]%Q |}.

(** On the grid of the flat curve the ratio joined at minute [m]. *)
Lemma ratio_on_grid_two_curves (m : Z) :
  ratio_on_grid (rows product_inventory_two_curves) (grid_point flat_curve m)
  = {| pa_LOCATION := "A"; pa_CONSUMPTION_PROFILE_CURVE_ID := 100;
       pa_WEEK_START := "2023-06-12"; pa_X := m;
       pa_PA_RATIO := if Z.eqb m 0 || Z.eqb m 10079 then Some (2 # 1) else None |}.
Proof.
  unfold ratio_on_grid. rewrite par_data_two_curves.
  unfold time_point_minute, grid_point, flat_curve.
  cbn [tg_LOCATION tg_WEEK_START tg_X cc_LOCATION cc_WEEK_START
       cc_CONSUMPTION_PROFILE_CURVE_ID find fst].
  change (keqb ("A", "2023-06-12", m) ("A", "2023-06-12", 0)) with (Z.eqb m 0 && true).
  change (keqb ("A", "2023-06-12", m) ("A", "2023-06-12", 10079))
    with (Z.eqb m 10079 && true).
  rewrite !andb_true_r.
  destruct (Z.eqb m 0); [reflexivity|]. destruct (Z.eqb m 10079); reflexivity.
Qed.

Section FfillGroup.
Context {K : Type} `{Key K} {A V : Type}.
Variable key : A -> K.
Variable get : A -> option V.
Variable set : A -> option V -> A.
Hypothesis get_set : forall a o, get (set a o) = o.

(** When the first row holds [v] and every row is of one group and holds
    [v] or nothing, forward fill leaves [v] in every row. *)
Lemma ffill_constant_group (k : K) (v : V) (a0 : A) (l : list A) :
  get a0 = Some v ->
  (forall b, In b (a0 :: l) -> key b = k /\ (get b = None \/ get b = Some v)) ->
  forall r, In r (groupby_ffill key get set (a0 :: l)) -> get r = Some v.
Proof.
  intros E0 Hall r Hr. unfold groupby_ffill in Hr.
  apply ffill_from_In in Hr. destruct Hr as [pre [a [post [El ->]]]].
  assert (Ha : In a (a0 :: l)) by (rewrite El; apply in_or_app; right; now left).
  destruct (Hall a Ha) as [Ek [Ea|Ea]]; unfold fill_row; rewrite Ea; [|exact Ea].
  rewrite get_set, Ek.
  destruct pre as [|p pre]; simpl in El.
  - injection El as -> _. congruence.
  - injection El as <- El.
    apply last_seen_state_after.
    + intros b Hb _. apply Hall. destruct Hb as [<-|Hb]; [now left|].
      right. rewrite El. apply in_or_app. now left.
    + right. exists a0. split; [now left|]. split; [apply Hall; now left | assumption].
Qed.
End FfillGroup.

Definition availability_sort_key (r : AvailabilityRow) : string * string * Z :=
  (pa_LOCATION r, pa_WEEK_START r, pa_X r).

(** The first row of a sorted non-empty table sorts no later than any row. *)
Lemma sort_values_head {K} `{Key K} {A} (by_ : A -> K) (l : list A) (a : A) :
  In a l ->
  exists a0 t, sort_values by_ l = a0 :: t /\ In a0 l /\ kleb (by_ a0) (by_ a) = true.
Proof.
  intro Ha. pose proof (sort_values_sorted by_ l) as Hs.
  apply (sort_values_In by_) in Ha.
  destruct (sort_values by_ l) as [|a0 t] eqn:E; [destruct Ha|].
  exists a0, t. split; [reflexivity|]. split.
  - apply (sort_values_In by_). rewrite E. now left.
  - apply StronglySorted_inv in Hs. destruct Hs as [_ F]. rewrite Forall_forall in F.
    destruct Ha as [<-|Ha]; [apply kleb_refl | now apply F].
Qed.

Lemma week_of_two_curves (r : AvailabilityRow) :
  In r (groupby_ffill (fun r => (pa_LOCATION r, pa_WEEK_START r))
          pa_PA_RATIO set_pa_PA_RATIO
          (sort_values availability_sort_key
             (map (ratio_on_grid (rows product_inventory_two_curves))
                (flat_map grid_rows_of [flat_curve])))) ->
  pa_PA_RATIO r = Some (2 # 1).
Proof.
  set (l := map (ratio_on_grid (rows product_inventory_two_curves))
              (flat_map grid_rows_of [flat_curve])).
  assert (Hl : forall b, In b l ->
            exists m, 0 <= m < 10080 /\
              b = ratio_on_grid (rows product_inventory_two_curves) (grid_point flat_curve m)).
  { intros b Hb. apply in_map_iff in Hb. destruct Hb as [g [<- Hg]].
    cbn [flat_map] in Hg. rewrite app_nil_r in Hg. apply in_map_iff in Hg.
    destruct Hg as [m [<- Hm]]. apply in_time_range in Hm. exists m. split; [assumption|].
    reflexivity. }
  assert (H0 : In (ratio_on_grid (rows product_inventory_two_curves)
                     (grid_point flat_curve 0)) l).
  { apply in_map. cbn [flat_map]. rewrite app_nil_r.
    apply (in_map (grid_point flat_curve)), in_time_range. lia. }
  destruct (sort_values_head availability_sort_key l _ H0) as [a0 [t [Es [Ha0 Hle]]]].
  rewrite Es. 
  destruct (Hl a0 Ha0) as [m0 [Hm0 E0]].
  rewrite E0, !ratio_on_grid_two_curves in Hle.
  unfold availability_sort_key in Hle. cbn [pa_LOCATION pa_WEEK_START pa_X] in Hle.
  rewrite kleb_same_fst in Hle. apply Z.leb_le in Hle.
  assert (m0 = 0) by lia. subst m0.
  apply (ffill_constant_group (fun r => (pa_LOCATION r, pa_WEEK_START r))
           pa_PA_RATIO set_pa_PA_RATIO (fun a o => eq_refl) ("A", "2023-06-12")).
  - rewrite E0, ratio_on_grid_two_curves. reflexivity.
  - intros b Hb. assert (Hb' : In b l).
    { apply (sort_values_In availability_sort_key). rewrite Es. exact Hb. }
    destruct (Hl b Hb') as [m [Hm ->]]. rewrite ratio_on_grid_two_curves.
    cbn [pa_LOCATION pa_WEEK_START pa_PA_RATIO]. split; [reflexivity|].
    destruct (Z.eqb m 0 || Z.eqb m 10079); auto.
Qed.

Lemma groupby_ffill_length {K} `{Key K} {A V} (key : A -> K) (get : A -> option V)
    (set : A -> option V -> A) (l : list A) :
  List.length (groupby_ffill key get set l) = List.length l.
Proof.
  unfold groupby_ffill.
  rewrite <- (length_map (fun _ => tt) (ffill_from key get set [] l)).
  rewrite (ffill_from_map key get set (fun _ => tt)); [apply length_map | reflexivity].
Qed.

Lemma sort_values_length {K} `{Key K} {A} (by_ : A -> K) (l : list A) :
  List.length (sort_values by_ l) = List.length l.
Proof. symmetry. apply Permutation_length, sort_values_perm. Qed.

Lemma one_curve_grid_minutes_NoDup (c : ConsumptionCurveRecord) :
  NoDup (map time_point_minute (flat_map grid_rows_of [c])).
Proof.
  cbn [flat_map]. rewrite app_nil_r. unfold grid_rows_of. rewrite map_map.
  apply NoDup_map_of_injective; [|apply time_range_NoDup].
  intros x y E. unfold time_point_minute in E. cbn [tg_X] in E. congruence.
Qed.

Lemma time_grid_columns_same : same_columns time_grid_columns time_grid_columns.
Proof. intro c. tauto. Qed.

(** C2 fails on the code. With one product under two inventory curves
    of the same location and week, the per-minute count sums one row per
    curve while the total counts distinct products: the pipeline stages
    return, and every PA_RATIO of the week is 2. *)
Theorem availability_ratio_of_product_under_two_curves :
  exists time_point_grid product_availability_ratio,
    returned transform_qos_data (qos_data_two_curves, qos_curves_two_curves)
    = Ok (inventory_two_curves, consumption_flat) /\
    returned create_product_inventory inventory_two_curves
    = Ok product_inventory_two_curves /\
    returned create_full_time_grid consumption_flat = Ok time_point_grid /\
    returned calc_product_availability_ratio
      (product_inventory_two_curves, time_point_grid)
    = Ok product_availability_ratio /\
    Z.of_nat (List.length (rows product_availability_ratio)) = 10080 /\
    forall r, In r (rows product_availability_ratio) ->
      exists q, pa_PA_RATIO r = Some q /\ (q == 2)%Q.
Proof.
  eexists. eexists.
  split; [vm_compute; reflexivity|].
  split; [vm_compute; reflexivity|].
  split; [unfold returned;
          now rewrite (create_full_time_grid_Ok consumption_flat consumption_columns_same)|].
  split.
  { apply calc_product_availability_ratio_Ok.
    - intro c. simpl. tauto.
    - apply time_grid_columns_same.
    - exact (one_curve_grid_minutes_NoDup flat_curve). }
  cbn [rows]. split.
  - rewrite groupby_ffill_length, sort_values_length, length_map.
    exact (time_grid_length [flat_curve]).
  - intros r Hr. exists (2 # 1). split; [|reflexivity].
    exact (week_of_two_curves r Hr).
Qed.

(** ** The joined consumption grid, curve by curve *)

Section ConsumptionGrid.
Context `{Float64Ops}.
Variable recs : list ConsumptionCurveRecord.
Hypothesis one_curve_per_week : NoDup (map curve_location_week recs).
Hypothesis minutes_unique : forall c, In c recs -> NoDup (cc_X c).
Hypothesis samples_accepted : forall c, In c recs -> accepted_sample (cc_X c) (cc_Y c).

Let ex : list ConsumptionSample := exploded_consumption recs.

Lemma record_of_location_week (c c' : ConsumptionCurveRecord) :
  In c recs -> In c' recs -> curve_location_week c = curve_location_week c' -> c = c'.
Proof. intros Hc Hc'. now apply NoDup_map_injective with (l := recs). Qed.

Lemma exploded_consumption_keys_NoDup :
  NoDup (map consumption_sample_key ex).
Proof.
  unfold ex, exploded_consumption. clear ex.
  induction recs as [|c l IH]; [constructor|].
  cbn [flat_map]. rewrite map_app. apply NoDup_app.
  - rewrite map_map.
    apply NoDup_map_NoDup_ForallPairs.
    + intros [m v] [m' v'] Hp Hp' E. unfold consumption_sample_key in E. simpl in E.
      injection E as ->. f_equal.
      exact (combine_functional _ _ _ _ _
               (minutes_unique c (or_introl eq_refl)) Hp Hp').
    + apply (NoDup_map_inv fst). unfold consumption_samples.
      rewrite map_fst_combine by apply (samples_accepted c (or_introl eq_refl)).
      apply minutes_unique. now left.
  - apply IH.
    + now inversion one_curve_per_week.
    + intros c' Hc'. apply minutes_unique. now right.
    + intros c' Hc'. apply samples_accepted. now right.
  - intros k Hk Hk'. apply in_map_iff in Hk. destruct Hk as [s [<- Hs]].
    apply in_map_iff in Hs. destruct Hs as [[m v] [<- Hmv]].
    apply in_map_iff in Hk'. destruct Hk' as [s' [Ek Hs']].
    apply in_flat_map in Hs'. destruct Hs' as [c' [Hc' Hs']].
    apply in_map_iff in Hs'. destruct Hs' as [[m' v'] [<- Hmv']].
    unfold consumption_sample_key in Ek. simpl in Ek. injection Ek as El _ Ew _.
    inversion one_curve_per_week as [|x xs Hnin _]; subst.
    apply Hnin. apply in_map_iff. exists c'. split; [|assumption].
    unfold curve_location_week. congruence.
Qed.

Lemma merged_blocks :
  merge_left time_point_key consumption_sample_key (flat_map grid_rows_of recs) ex
  = flat_map (curve_block ex) recs.
Proof.
  rewrite (merge_left_unique _ _ _ _ exploded_consumption_keys_NoDup).
  rewrite map_flat_map. apply flat_map_ext. intro c.
  unfold grid_rows_of, curve_block. rewrite map_map. reflexivity.
Qed.

(** The value joined at minute [m] of curve [c]: its sample there, or
    null when the curve has no sample at that minute. *)
Lemma joined_Y_spec (c : ConsumptionCurveRecord) (m : Z) :
  In c recs ->
  (forall v, In (m, v) (consumption_samples c) ->
     joined_Y (grid_point c m, sample_at ex (grid_point c m)) = Some v) /\
  (~ In m (cc_X c) ->
     joined_Y (grid_point c m, sample_at ex (grid_point c m)) = None).
Proof.
  intro Hc. unfold joined_Y, sample_at. cbn [snd].
  destruct (find _ ex) as [s|] eqn:Ef.
  - apply find_key_Some in Ef. destruct Ef as [Hs Ek].
    apply in_exploded_consumption in Hs. destruct Hs as [c' [m' [v' [Hc' [Hmv' ->]]]]].
    unfold time_point_key, consumption_sample_key in Ek. simpl in Ek.
    injection Ek as El _ Ew Em.
    assert (c = c').
    { apply record_of_location_week; [assumption | assumption|].
      unfold curve_location_week. congruence. }
    subst c' m'. simpl. split.
    + intros v Hv. f_equal.
      exact (combine_functional _ _ _ _ _ (minutes_unique c Hc) Hmv' Hv).
    + intro Hn. exfalso. apply Hn. now apply in_combine_l in Hmv'.
  - split; [|reflexivity]. intros v Hv. exfalso.
    pose proof (find_none _ _ Ef (consumption_sample c m v)) as N.
    cbv beta in N. rewrite (proj2 (keqb_eq _ _)) in N; [|reflexivity].
    assert (Hin : In (consumption_sample c m v) ex).
    { apply in_exploded_consumption. exists c, m, v. auto. }
    specialize (N Hin). discriminate.
Qed.

Lemma curve_block_sorted (c : ConsumptionCurveRecord) :
  StronglySorted (key_le grid_sort_key) (curve_block ex c).
Proof.
  unfold curve_block, time_range.
  generalize (minutes_sorted 0 (Z.to_nat 10080)).
  generalize (map Z.of_nat (seq 0 (Z.to_nat 10080))). intros l Hl.
  induction Hl as [|m l Hl IH F]; cbn [map]; constructor; [assumption|].
  rewrite Forall_forall in *. intros p Hp. apply in_map_iff in Hp.
  destruct Hp as [m' [<- Hm']]. unfold key_le, grid_sort_key. cbn [fst grid_point
    tg_LOCATION tg_WEEK_START tg_X].
  rewrite kleb_same_fst. apply Z.leb_le. now apply F.
Qed.

Lemma blocks_sorted (l : list ConsumptionCurveRecord) :
  StronglySorted (key_le curve_location_week) l ->
  NoDup (map curve_location_week l) ->
  StronglySorted (key_le grid_sort_key) (flat_map (curve_block ex) l).
Proof.
  induction l as [|c l IH]; intros Hs Hnd; [constructor|].
  cbn [flat_map]. apply StronglySorted_inv in Hs. destruct Hs as [Hs F].
  inversion Hnd as [|x xs Hnin Hnd']; subst.
  apply StronglySorted_app_intro; [apply curve_block_sorted | now apply IH |].
  intros p p' Hp Hp'.
  apply in_map_iff in Hp. destruct Hp as [m [<- _]].
  apply in_flat_map in Hp'. destruct Hp' as [c' [Hc' Hp']].
  apply in_map_iff in Hp'. destruct Hp' as [m' [<- _]].
  rewrite Forall_forall in F. specialize (F c' Hc').
  unfold key_le in *. unfold grid_sort_key. cbn [fst grid_point
    tg_LOCATION tg_WEEK_START tg_X].
  change (kleb (curve_location_week c, m) (curve_location_week c', m') = true).
  cbn [kleb Key_pair]. unfold pair_leb at 1. cbn [fst snd].
  destruct (keqb (curve_location_week c) (curve_location_week c')) eqn:E;
    [|exact F].
  exfalso. apply keqb_eq in E. apply Hnin. rewrite E. now apply in_map.
Qed.

Lemma sorted_blocks :
  sort_values grid_sort_key (flat_map (curve_block ex) recs)
  = flat_map (curve_block ex) (sort_values curve_location_week recs).
Proof.
  apply sorted_unique with (R := key_le grid_sort_key).
  - apply sort_values_sorted.
  - apply blocks_sorted; [apply sort_values_sorted|].
    eapply Permutation_NoDup; [|exact one_curve_per_week].
    apply Permutation_map, sort_values_perm.
  - etransitivity; [symmetry; apply sort_values_perm|].
    apply Permutation_flat_map, sort_values_perm.
  - intros a b Ha Hb Hab Hba.
    apply sort_values_In in Ha, Hb.
    apply in_flat_map in Ha. destruct Ha as [c [Hc Ha]].
    apply in_map_iff in Ha. destruct Ha as [m [<- _]].
    apply in_flat_map in Hb. destruct Hb as [c' [Hc' Hb]].
    apply in_map_iff in Hb. destruct Hb as [m' [<- _]].
    unfold key_le in Hab, Hba.
    pose proof (kleb_antisym _ _ Hab Hba) as E.
    unfold grid_sort_key in E. cbn [fst grid_point tg_LOCATION tg_WEEK_START tg_X] in E.
    injection E as El Ew Em.
    assert (c = c').
    { apply record_of_location_week; [assumption | assumption|].
      unfold curve_location_week. congruence. }
    now subst.
Qed.

(** The interpolated values of curve [c], minute by minute. *)
Definition curve_values (c : ConsumptionCurveRecord) : list (option Q) :=
  map joined_Y (curve_block ex c).

Lemma curve_values_closed (c : ConsumptionCurveRecord) :
  In c recs -> closed_block (curve_values c).
Proof.
  intro Hc. destruct (samples_accepted c Hc) as [[H0 [H1 _]] Hlen].
  destruct (in_combine_exists _ _ _ Hlen H0) as [v0 Hv0].
  destruct (in_combine_exists _ _ _ Hlen H1) as [v1 Hv1].
  unfold curve_values, curve_block. rewrite map_map. split.
  - destruct time_range_first as [t ->]. cbn [map].
    rewrite (proj1 (joined_Y_spec c 0 Hc) v0 Hv0). eauto.
  - destruct time_range_last as [t ->]. rewrite map_app. cbn [map].
    rewrite (proj1 (joined_Y_spec c 10079 Hc) v1 Hv1). eauto.
Qed.

(** The rows interpolate_on_grid makes of curve [c]. *)
Definition curve_interp_rows (c : ConsumptionCurveRecord) : list ConsumptionInterpRow :=
  map consumption_interp_row
    (combine (curve_block ex c) (interpolate_linear (curve_values c))).

(** On the grid of the curves themselves the interpolation of the whole
    column is the interpolation of every curve by itself. *)
Lemma interpolate_on_grid_blocks :
  interpolate_on_grid (flat_map grid_rows_of recs) ex
  = flat_map curve_interp_rows (sort_values curve_location_week recs).
Proof.
  unfold interpolate_on_grid. rewrite merged_blocks.
  change (fun p : TimePoint * option ConsumptionSample =>
            (tg_LOCATION (fst p), tg_WEEK_START (fst p), tg_X (fst p)))
    with grid_sort_key.
  rewrite sorted_blocks.
  set (rs := sort_values curve_location_week recs).
  assert (Hrs : forall c, In c rs -> In c recs).
  { intros c Hc. now apply sort_values_In in Hc. }
  rewrite map_flat_map. fold curve_values.
  change (fun a => map joined_Y (curve_block ex a)) with curve_values.
  rewrite (flat_map_concat_map curve_values rs).
  unfold interpolate_linear at 1.
  rewrite interpolate_blocks.
  - rewrite map_map, <- flat_map_concat_map.
    rewrite combine_flat_map.
    + rewrite map_flat_map. apply flat_map_ext. intro c.
      unfold curve_interp_rows. reflexivity.
    + intros c Hc. unfold interpolate_linear.
      rewrite interpolate_from_length. unfold curve_values. now rewrite length_map.
  - intros b Hb. apply in_map_iff in Hb. destruct Hb as [c [<- Hc]].
    apply curve_values_closed. auto.
Qed.

End ConsumptionGrid.

Lemma nth_error_combine {A B} (x : list A) (y : list B) (k : nat) (a : A) (b : B) :
  nth_error (combine x y) k = Some (a, b) <->
  nth_error x k = Some a /\ nth_error y k = Some b.
Proof.
  revert y k. induction x as [|a0 x IH]; intros y k.
  - destruct k; simpl; split; try discriminate; intros [E _]; discriminate.
  - destruct y as [|b0 y].
    + destruct k; simpl; split; try discriminate; intros [_ E]; discriminate.
    + destruct k as [|k]; simpl.
      * split; [intro E; now injection E as -> -> | intros [E E']; congruence].
      * apply IH.
Qed.

Lemma nth_error_time_range_inv (k : nat) (m : Z) :
  nth_error time_range k = Some m -> m = Z.of_nat k /\ Z.of_nat k < 10080.
Proof.
  unfold time_range. rewrite nth_error_map, nth_error_seq.
  destruct (Nat.ltb k (Z.to_nat 10080)) eqn:E; [|discriminate].
  apply Nat.ltb_lt in E. simpl. intro E'. injection E' as <-. lia.
Qed.

(** The line through the samples [(m0, v0)] and [(m1, v1)] at minute [x],
    as [numpy.interp] evaluates it in float64: [x - m0] minutes after
    [v0], with [v1] lying [m1 - m0] minutes after [v0]. *)
Definition on_line `{Float64Ops} (m0 : Z) (v0 : Q) (m1 : Z) (v1 : Q) (x : Z) : Q :=
  np_interp v0 v1 (x - m0) (m1 - m0).

(** What interpolate_consumption_curves returns for the curves [cc] on
    their own time grid: a row for every minute of the week of every
    curve; the row of a sampled minute holds the sample; the row of a
    minute between two neighbouring samples of its curve holds the value
    of the line through these two samples. *)
Definition linearly_interpolated `{Float64Ops} (cc : DataFrame ConsumptionCurveRecord)
    (out : DataFrame ConsumptionInterpRow) : Prop :=
  (forall c m, In c (rows cc) -> 0 <= m < 10080 ->
     exists r, In r (rows out) /\ interp_key r = time_point_key (grid_point c m)) /\
  (forall r, In r (rows out) ->
     exists c,
       In c (rows cc) /\
       interp_key r = time_point_key (grid_point c (ci_X r)) /\
       0 <= ci_X r <= 10079 /\
       (forall v, In (ci_X r, v) (consumption_samples c) ->
          ci_CONSUMPTION_Y r = Some v) /\
       (forall m0 v0 m1 v1,
          In (m0, v0) (consumption_samples c) ->
          In (m1, v1) (consumption_samples c) ->
          m0 < ci_X r < m1 ->
          (forall m, In m (cc_X c) -> m <= m0 \/ m1 <= m) ->
          ci_CONSUMPTION_Y r = Some (on_line m0 v0 m1 v1 (ci_X r)))).

Section InterpolatedRows.
Context `{Float64Ops}.
Variable recs : list ConsumptionCurveRecord.
Hypothesis one_curve_per_week : NoDup (map curve_location_week recs).
Hypothesis minutes_unique : forall c, In c recs -> NoDup (cc_X c).
Hypothesis samples_accepted : forall c, In c recs -> accepted_sample (cc_X c) (cc_Y c).

Let ex : list ConsumptionSample := exploded_consumption recs.

Lemma curve_values_nth (c : ConsumptionCurveRecord) (k : nat) :
  Z.of_nat k < 10080 ->
  nth_error (curve_values recs c) k
  = Some (joined_Y (grid_point c (Z.of_nat k),
                    sample_at ex (grid_point c (Z.of_nat k)))).
Proof.
  intro Hk. unfold curve_values, curve_block.
  rewrite map_map, nth_error_map, (nth_error_time_range k Hk). reflexivity.
Qed.

Lemma curve_values_sample (c : ConsumptionCurveRecord) (m : Z) (v : Q) :
  In c recs -> In (m, v) (consumption_samples c) ->
  nth_error (curve_values recs c) (Z.to_nat m) = Some (Some v).
Proof.
  intros Hc Hv.
  assert (Hm : 0 <= m <= 10079).
  { apply in_combine_l in Hv as Hx.
    destruct (samples_accepted c Hc) as [[_ [_ Hr]] _]. now apply Hr. }
  rewrite curve_values_nth by lia. rewrite Z2Nat.id by lia.
  f_equal. now apply (joined_Y_spec recs one_curve_per_week minutes_unique c m Hc).
Qed.

Lemma curve_values_null (c : ConsumptionCurveRecord) (k : nat) :
  In c recs -> Z.of_nat k < 10080 -> ~ In (Z.of_nat k) (cc_X c) ->
  nth_error (curve_values recs c) k = Some None.
Proof.
  intros Hc Hk Hn. rewrite curve_values_nth by assumption. f_equal.
  now apply (joined_Y_spec recs one_curve_per_week minutes_unique c _ Hc).
Qed.

(** A row of curve [c] is the grid point of a minute [m] together with
    the interpolated value at position [m] of the curve's column. *)
Lemma curve_interp_rows_In (c : ConsumptionCurveRecord) (r : ConsumptionInterpRow) :
  In r (curve_interp_rows recs c) <->
  exists k y,
    Z.of_nat k < 10080 /\
    nth_error (interpolate_linear (curve_values recs c)) k = Some y /\
    r = consumption_interp_row
          ((grid_point c (Z.of_nat k), sample_at ex (grid_point c (Z.of_nat k))), y).
Proof.
  unfold curve_interp_rows. rewrite in_map_iff. split.
  - intros [[p y] [<- Hin]]. apply In_nth_error in Hin. destruct Hin as [k Hk].
    apply nth_error_combine in Hk. destruct Hk as [Hp Hy].
    unfold curve_block in Hp. rewrite nth_error_map in Hp.
    destruct (nth_error time_range k) as [m|] eqn:Em; [|discriminate].
    apply nth_error_time_range_inv in Em. destruct Em as [-> Hlt].
    simpl in Hp. injection Hp as <-. exists k, y. auto.
  - intros [k [y [Hk [Hy ->]]]]. eexists. split; [reflexivity|].
    apply (nth_error_In _ k). apply nth_error_combine. split; [|exact Hy].
    unfold curve_block. rewrite nth_error_map, (nth_error_time_range k Hk).
    reflexivity.
Qed.

Lemma interpolated_rows (out : list ConsumptionInterpRow) :
  out = flat_map (curve_interp_rows recs) (sort_values curve_location_week recs) ->
  (forall c m, In c recs -> 0 <= m < 10080 ->
     exists r, In r out /\ interp_key r = time_point_key (grid_point c m)) /\
  (forall r, In r out ->
     exists c,
       In c recs /\
       interp_key r = time_point_key (grid_point c (ci_X r)) /\
       0 <= ci_X r <= 10079 /\
       (forall v, In (ci_X r, v) (consumption_samples c) ->
          ci_CONSUMPTION_Y r = Some v) /\
       (forall m0 v0 m1 v1,
          In (m0, v0) (consumption_samples c) ->
          In (m1, v1) (consumption_samples c) ->
          m0 < ci_X r < m1 ->
          (forall m, In m (cc_X c) -> m <= m0 \/ m1 <= m) ->
          ci_CONSUMPTION_Y r = Some (on_line m0 v0 m1 v1 (ci_X r)))).
Proof.
  intros ->. split.
  - intros c m Hc Hm.
    assert (Hlen : (Z.to_nat m < List.length (interpolate_linear (curve_values recs c)))%nat).
    { rewrite interpolate_linear_length. unfold curve_values, curve_block.
      rewrite !length_map. pose proof time_range_length. lia. }
    apply nth_error_Some in Hlen.
    destruct (nth_error (interpolate_linear (curve_values recs c)) (Z.to_nat m))
      as [y|] eqn:Ey; [|congruence].
    eexists. split.
    + apply in_flat_map. exists c. split; [now apply sort_values_In|].
      apply curve_interp_rows_In. exists (Z.to_nat m), y.
      split; [lia|]. split; [exact Ey | reflexivity].
    + rewrite Z2Nat.id by lia. reflexivity.
  - intros r Hr. apply in_flat_map in Hr. destruct Hr as [c [Hc Hr]].
    apply sort_values_In in Hc.
    apply curve_interp_rows_In in Hr. destruct Hr as [k [y [Hk [Hy ->]]]].
    exists c. cbn [consumption_interp_row fst snd ci_X ci_CONSUMPTION_Y grid_point tg_X].
    split; [assumption|]. split; [reflexivity|]. split; [lia|]. split.
    + intros v Hv.
      pose proof (curve_values_sample c _ v Hc Hv) as Hs.
      rewrite Nat2Z.id in Hs.
      exact (same_option _ _ _ Hy (interpolate_linear_known _ k v Hs)).
    + intros m0 v0 m1 v1 H0 H1 Hbetween Hnone.
      assert (Hm0 : 0 <= m0 <= 10079).
      { apply in_combine_l in H0.
        destruct (samples_accepted c Hc) as [[_ [_ Hr]] _]. now apply Hr. }
      assert (Hm1 : 0 <= m1 <= 10079).
      { apply in_combine_l in H1.
        destruct (samples_accepted c Hc) as [[_ [_ Hr]] _]. now apply Hr. }
      assert (Hline := interpolate_linear_between (curve_values recs c)
                         (Z.to_nat m0) (Z.to_nat m1) k v0 v1).
      rewrite !Z2Nat.id in Hline by lia. unfold on_line.
      refine (same_option _ _ _ Hy (Hline _ _ _ _)).
      * lia.
      * now apply curve_values_sample.
      * now apply curve_values_sample.
      * intros p Hp. apply curve_values_null; [assumption | lia |].
        intro Hin. destruct (Hnone _ Hin); lia.
Qed.

End InterpolatedRows.

Lemma create_full_time_grid_Ok_inv
    (cc : DataFrame ConsumptionCurveRecord) (tpg : DataFrame TimePoint) :
  returned create_full_time_grid cc = Ok tpg ->
  rows tpg = flat_map grid_rows_of (rows cc).
Proof.
  destruct (same_column_set consumption_columns (columns cc)) eqn:Ec.
  - apply same_column_set_spec in Ec. unfold returned.
    rewrite (create_full_time_grid_Ok cc Ec). cbn [fst].
    intro E. injection E as <-. reflexivity.
  - unfold returned, create_full_time_grid, bind, get_args, check_columns.
    rewrite Ec. discriminate.
Qed.

Lemma interpolate_consumption_curves_Ok_inv `{Float64Ops}
    (cc : DataFrame ConsumptionCurveRecord) (tpg : DataFrame TimePoint)
    (out : DataFrame ConsumptionInterpRow) :
  returned interpolate_consumption_curves (cc, tpg) = Ok out ->
  (forall c, In c (rows cc) -> accepted_sample (cc_X c) (cc_Y c)) /\
  rows out = interpolate_on_grid (rows tpg) (exploded_consumption (rows cc)).
Proof.
  unfold returned, interpolate_consumption_curves, bind, get_args, lift, ret.
  cbn [fst snd].
  destruct (check_boundary_cases (map cc_X (rows cc)) (cc, tpg)) as [Eb|Eb]; rewrite Eb;
    [|discriminate].
  pose proof (check_boundary_Ok_inv (map cc_X (rows cc)) (cc, tpg) (tt, (cc, tpg)) Eb)
    as Hcov.
  unfold explode_XY.
  destruct (forallb _ (rows cc)) eqn:Ef; [|discriminate].
  cbn [fst]. intro E. injection E as <-.
  split; [|reflexivity].
  intros c Hc. assert (Hcw : covers_week (cc_X c)) by (apply Hcov; now apply in_map).
  split; [assumption|].
  rewrite forallb_forall in Ef. apply Ef in Hc. apply Nat.eqb_eq in Hc.
  pose proof (covers_week_length _ Hcw) as Hlen.
  rewrite (mylen_long _ Hlen) in Hc.
  destruct (cc_Y c) as [|y ys]; simpl in Hc; [lia | exact Hc].
Qed.

(** The scenario of the specification: a curve sampled at minutes 0,
    5000 and 10079 with values 0, 1/2 and 1 holds its samples at these
    minutes, the interpolation between (0, 0) and (5000, 1/2) before
    minute 5000 and the interpolation between (5000, 1/2) and (10079, 1)
    after. *)
Definition ramp_scenario `{Float64Ops} (cc : DataFrame ConsumptionCurveRecord)
    (out : DataFrame ConsumptionInterpRow) : Prop :=
  forall c r,
    In c (rows cc) -> cc_X c = [0; 5000; 10079] -> cc_Y c = [0; 1 # 2; 1]%Q ->
    In r (rows out) -> interp_key r = time_point_key (grid_point c (ci_X r)) ->
    (ci_X r = 0 -> ci_CONSUMPTION_Y r = Some 0%Q) /\
    (0 < ci_X r < 5000 ->
     ci_CONSUMPTION_Y r = Some (on_line 0 0 5000 (1 # 2) (ci_X r))) /\
    (ci_X r = 5000 -> ci_CONSUMPTION_Y r = Some (1 # 2)) /\
    (5000 < ci_X r < 10079 ->
     ci_CONSUMPTION_Y r = Some (on_line 5000 (1 # 2) 10079 1 (ci_X r))) /\
    (ci_X r = 10079 -> ci_CONSUMPTION_Y r = Some 1%Q).

(** Evaluated without rounding, the two interpolations of the scenario
    are minute/5000 * 1/2 and the ramp from 1/2 to 1. *)
Definition ramp_lines_without_rounding : Prop :=
  forall x : Z,
    (on_line (H := exact_arithmetic) 0 0 5000 (1 # 2) x
     == inject_Z x / 5000 * (1 # 2))%Q /\
    (on_line (H := exact_arithmetic) 5000 (1 # 2) 10079 1 x
     == (1 # 2) + (inject_Z x - 5000) / 5079 * (1 # 2))%Q.

Lemma ramp_lines_exact : ramp_lines_without_rounding.
Proof.
  intro x. unfold on_line. cbn [np_interp exact_arithmetic]. split.
  - rewrite Z.sub_0_r. change (inject_Z (5000 - 0)) with 5000%Q. field.
  - unfold Z.sub at 1. rewrite inject_Z_plus.
    change (inject_Z (10079 - 5000)) with 5079%Q.
    change (inject_Z (- (5000))) with (- (5000))%Q. field.
Qed.

Lemma ramp_scenario_holds `{Float64Ops} (cc : DataFrame ConsumptionCurveRecord)
    (out : DataFrame ConsumptionInterpRow) :
  NoDup (map curve_location_week (rows cc)) ->
  linearly_interpolated cc out -> ramp_scenario cc out.
Proof.
  intros Hnd [_ Hrows] c r Hc EX EY Hr Ek.
  destruct (Hrows r Hr) as [c' [Hc' [Ek' [Hx [Hsample Hline]]]]].
  assert (c' = c).
  { apply (NoDup_map_injective curve_location_week (rows cc)); auto.
    rewrite Ek in Ek'. unfold time_point_key, grid_point in Ek'. simpl in Ek'.
    injection Ek' as El _ Ew. unfold curve_location_week. congruence. }
  subst c'. unfold consumption_samples in *. rewrite EX, EY in *.
  assert (H0 : In (0, 0%Q) (combine [0; 5000; 10079] [0; 1 # 2; 1]%Q)) by (simpl; auto).
  assert (H1 : In (5000, 1 # 2) (combine [0; 5000; 10079] [0; 1 # 2; 1]%Q))
    by (simpl; auto).
  assert (H2 : In (10079, 1%Q) (combine [0; 5000; 10079] [0; 1 # 2; 1]%Q))
    by (simpl; auto).
  repeat split.
  - intro E. rewrite E in Hsample. now apply Hsample.
  - intro Hlt. apply Hline; [assumption | assumption | lia |].
    intros m [<-|[<-|[<-|[]]]]; lia.
  - intro E. rewrite E in Hsample. now apply Hsample.
  - intro Hlt. apply Hline; [assumption | assumption | lia |].
    intros m [<-|[<-|[<-|[]]]]; lia.
  - intro E. rewrite E in Hsample. now apply Hsample.
Qed.

(** C5 (as the code has it). For consumption curves with one curve per
    (location, week_start) and distinct minutes within a curve,
    interpolated on the time grid create_full_time_grid builds from these
    curves: whenever interpolate_consumption_curves returns (the boundary
    validation has passed), every minute of the week of every curve has a
    row; a sampled minute holds its sample and a minute without sample
    holds the value numpy's linear interpolation computes in float64 from
    the nearest preceding and the nearest following sample of the same
    curve.  The curve sampled at 0, 5000 and 10079 with values 0, 1/2 and
    1 yields the interpolation between (0, 0) and (5000, 1/2) up to minute
    5000 and the interpolation between (5000, 1/2) and (10079, 1) after;
    without rounding these are minute/5000 * 1/2 and the ramp from 1/2
    to 1. *)
Theorem consumption_linear_interpolation `{Float64Ops} :
  forall cc tpg out,
    NoDup (map curve_location_week (rows cc)) ->
    (forall c, In c (rows cc) -> NoDup (cc_X c)) ->
    returned create_full_time_grid cc = Ok tpg ->
    returned interpolate_consumption_curves (cc, tpg) = Ok out ->
    linearly_interpolated cc out /\ ramp_scenario cc out /\
    ramp_lines_without_rounding.
Proof.
  intros cc tpg out Hweek Hmin Hgrid HOk.
  apply create_full_time_grid_Ok_inv in Hgrid.
  destruct (interpolate_consumption_curves_Ok_inv cc tpg out HOk) as [Hacc Erows].
  assert (Hlin : linearly_interpolated cc out).
  { unfold linearly_interpolated.
    apply (interpolated_rows (rows cc) Hweek Hmin Hacc).
    rewrite Erows, Hgrid.
    apply (interpolate_on_grid_blocks (rows cc) Hweek Hmin Hacc). }
  split; [exact Hlin|]. split; [now apply ramp_scenario_holds | exact ramp_lines_exact].
Qed.

Definition ramp_curve : ConsumptionCurveRecord :=
  {| cc_LOCATION := "A"; cc_CONSUMPTION_PROFILE_CURVE_ID := 100;
     cc_WEEK_START := "2023-06-12";
     cc_X := [0; 5000; 10079]; cc_Y := [0; 1 # 2; 1]%Q |}.

Definition ramp_table : DataFrame ConsumptionCurveRecord :=
  {| columns := consumption_columns; rows := [ramp_curve] |}.

Lemma ramp_curve_accepted : accepted_sample (cc_X ramp_curve) (cc_Y ramp_curve).
Proof.
  split; [|reflexivity]. split; [simpl; tauto|]. split; [simpl; tauto|].
  intros y [<-|[<-|[<-|[]]]]; lia.
Qed.

Lemma consumption_linear_interpolation_witness :
  exists tpg out,
    returned create_full_time_grid ramp_table = Ok tpg /\
    returned interpolate_consumption_curves (ramp_table, tpg) = Ok out /\
    linearly_interpolated ramp_table out /\ ramp_scenario ramp_table out /\
    ramp_lines_without_rounding.
Proof.
  assert (Hacc : forall c, In c (rows ramp_table) -> accepted_sample (cc_X c) (cc_Y c)).
  { intros c [<-|[]]. exact ramp_curve_accepted. }
  assert (Hgrid : returned create_full_time_grid ramp_table
                  = Ok {| columns := time_grid_columns;
                          rows := flat_map grid_rows_of (rows ramp_table) |}).
  { unfold returned.
    now rewrite (create_full_time_grid_Ok ramp_table consumption_columns_same). }
  eexists. eexists.
  split; [exact Hgrid|].
  assert (HOk := interpolate_consumption_curves_Ok ramp_table
                   {| columns := time_grid_columns;
                      rows := flat_map grid_rows_of (rows ramp_table) |} Hacc).
  apply (f_equal fst) in HOk. cbn [fst] in HOk.
  split; [exact HOk|].
  refine (consumption_linear_interpolation ramp_table _ _ _ _ Hgrid HOk).
  - apply is_unique_NoDup. reflexivity.
  - intros c [<-|[]]. apply is_unique_NoDup. reflexivity.
Defined.

(** Two consumption curves of one location and week, as
    transform_qos_data lets through: curve 100 rises from 0 to 1 and
    curve 200 is constant 10. *)
Definition constant_curve : ConsumptionCurveRecord :=
  {| cc_LOCATION := "A"; cc_CONSUMPTION_PROFILE_CURVE_ID := 200;
     cc_WEEK_START := "2023-06-12";
     cc_X := [0; 10079]; cc_Y := [10; 10]%Q |}.

Definition shared_week_table : DataFrame ConsumptionCurveRecord :=
  {| columns := consumption_columns; rows := [one_curve; constant_curve] |}.

Definition row_at {R} (k : nat) (r : result (DataFrame R)) : option R :=
  match r with
  | Ok d => nth_error (rows d) k
  | Raise _ => None
  end.

Lemma time_range_increasing : StronglySorted Z.lt time_range.
Proof.
  unfold time_range. generalize (Z.to_nat 10080). generalize 0%nat.
  intros a n. revert a. induction n as [|n IH]; intro a; simpl; constructor; [apply IH|].
  apply Forall_forall. intros y Hy. apply in_map_iff in Hy.
  destruct Hy as [k [<- Hk]]. apply in_seq in Hk. lia.
Qed.

(** Rows taken two by two. *)
Lemma nth_error_two_by_two {A B} (u v : A -> B) (l : list A) (q : nat) :
  nth_error (flat_map (fun a => [u a; v a]) l) (2 * q) = option_map u (nth_error l q) /\
  nth_error (flat_map (fun a => [u a; v a]) l) (2 * q + 1) = option_map v (nth_error l q).
Proof.
  revert q. induction l as [|a l IH]; intro q.
  - cbn [flat_map]. rewrite !nth_error_nil. destruct q; split; reflexivity.
  - destruct q as [|q].
    + split; reflexivity.
    + replace (2 * S q)%nat with (S (S (2 * q))) by lia.
      replace (S (S (2 * q)) + 1)%nat with (S (S (2 * q + 1))) by lia.
      cbn [flat_map app nth_error]. apply IH.
Qed.

Definition shared_week_samples : list ConsumptionSample :=
  exploded_consumption [one_curve; constant_curve].

(** The joined rows of the two curves and their [Y] before interpolation. *)
Definition rising_row (m : Z) : TimePoint * option ConsumptionSample :=
  (grid_point one_curve m, sample_at shared_week_samples (grid_point one_curve m)).

Definition constant_row (m : Z) : TimePoint * option ConsumptionSample :=
  (grid_point constant_curve m, sample_at shared_week_samples (grid_point constant_curve m)).

Lemma rising_row_Y (m : Z) :
  joined_Y (rising_row m)
  = if Z.eqb m 0 then Some 0%Q else if Z.eqb m 10079 then Some 1%Q else None.
Proof.
  cbv -[Z.eqb]. destruct (Z.eqb m 0), (Z.eqb m 10079); reflexivity.
Qed.

Lemma constant_row_Y (m : Z) :
  joined_Y (constant_row m)
  = if Z.eqb m 0 then Some 10%Q else if Z.eqb m 10079 then Some 10%Q else None.
Proof.
  cbv -[Z.eqb]. destruct (Z.eqb m 0), (Z.eqb m 10079); reflexivity.
Qed.

Lemma shared_week_sorted :
  sort_values grid_sort_key
    (merge_left time_point_key consumption_sample_key
       (flat_map grid_rows_of [one_curve; constant_curve]) shared_week_samples)
  = flat_map (fun m => [rising_row m; constant_row m]) time_range.
Proof.
  rewrite merge_left_unique by (apply is_unique_NoDup; reflexivity).
  cbn [flat_map]. rewrite app_nil_r, map_app. unfold grid_rows_of. rewrite !map_map.
  apply (sort_values_two_blocks grid_sort_key rising_row constant_row time_range).
  - apply time_range_increasing.
  - reflexivity.
  - intros m m' Hm. unfold grid_sort_key, rising_row.
    cbn [fst grid_point tg_LOCATION tg_WEEK_START tg_X].
    rewrite kleb_same_fst. now apply Z.leb_le.
  - intros m m' E. unfold grid_sort_key, rising_row in E.
    cbn [fst grid_point tg_LOCATION tg_WEEK_START tg_X] in E. congruence.
Qed.

Definition rising_Y (m : Z) : option Q :=
  if Z.eqb m 0 then Some 0%Q else if Z.eqb m 10079 then Some 1%Q else None.

Definition constant_Y (m : Z) : option Q :=
  if Z.eqb m 0 then Some 10%Q else if Z.eqb m 10079 then Some 10%Q else None.

Lemma shared_week_rows :
  interpolate_on_grid (flat_map grid_rows_of [one_curve; constant_curve])
    shared_week_samples
  = map consumption_interp_row
      (combine (flat_map (fun m => [rising_row m; constant_row m]) time_range)
         (interpolate_linear (flat_map (fun m => [rising_Y m; constant_Y m]) time_range))).
Proof.
  unfold interpolate_on_grid.
  change (fun p : TimePoint * option ConsumptionSample =>
            (tg_LOCATION (fst p), tg_WEEK_START (fst p), tg_X (fst p)))
    with grid_sort_key.
  rewrite shared_week_sorted, map_flat_map.
  rewrite (flat_map_ext (fun m => map joined_Y [rising_row m; constant_row m])
             (fun m => [rising_Y m; constant_Y m])); [reflexivity|].
  intro m. cbn [map]. rewrite rising_row_Y, constant_row_Y. reflexivity.
Qed.

Lemma shared_week_column (q : nat) :
  Z.of_nat q < 10080 ->
  nth_error (flat_map (fun m => [rising_Y m; constant_Y m]) time_range) (2 * q)
  = Some (rising_Y (Z.of_nat q)) /\
  nth_error (flat_map (fun m => [rising_Y m; constant_Y m]) time_range) (2 * q + 1)
  = Some (constant_Y (Z.of_nat q)).
Proof.
  intro Hq. destruct (nth_error_two_by_two rising_Y constant_Y time_range q) as [E0 E1].
  rewrite E0, E1, (nth_error_time_range q Hq). split; reflexivity.
Qed.

Lemma shared_week_minute_1 :
  nth_error (interpolate_on_grid (flat_map grid_rows_of [one_curve; constant_curve])
               shared_week_samples) 2
  = Some {| ci_LOCATION := "A"; ci_CONSUMPTION_PROFILE_CURVE_ID := 100;
            ci_WEEK_START := "2023-06-12"; ci_X := 1;
            ci_CONSUMPTION_Y := Some (201561 # 20157) |}.
Proof.
  rewrite shared_week_rows, nth_error_map.
  assert (Hrow : nth_error (flat_map (fun m => [rising_row m; constant_row m]) time_range) 2
                 = Some (rising_row 1)).
  { change 2%nat with (2 * 1)%nat.
    rewrite (proj1 (nth_error_two_by_two rising_row constant_row time_range 1)).
    rewrite (nth_error_time_range 1) by lia. reflexivity. }
  assert (Hval : nth_error (interpolate_linear
                    (flat_map (fun m => [rising_Y m; constant_Y m]) time_range)) 2
                 = Some (Some (201561 # 20157))).
  { assert (H := interpolate_linear_between
                   (flat_map (fun m => [rising_Y m; constant_Y m]) time_range)
                   1 (2 * Z.to_nat 10079) 2 10 1).
    replace (Z.of_nat (2 * Z.to_nat 10079)) with 20158 in H by lia.
    apply H; clear H.
    - lia.
    - change 1%nat with (2 * 0 + 1)%nat.
      rewrite (proj2 (shared_week_column 0 ltac:(lia))). reflexivity.
    - rewrite (proj1 (shared_week_column (Z.to_nat 10079) ltac:(lia))).
      rewrite Z2Nat.id by lia. reflexivity.
    - intros p Hp.
      assert (Enone : forall q, (1 <= q < Z.to_nat 10079)%nat ->
                rising_Y (Z.of_nat q) = None /\ constant_Y (Z.of_nat q) = None).
      { intros q Hq. unfold rising_Y, constant_Y.
        assert (E0 : Z.eqb (Z.of_nat q) 0 = false) by (apply Z.eqb_neq; lia).
        assert (E1 : Z.eqb (Z.of_nat q) 10079 = false) by (apply Z.eqb_neq; lia).
        rewrite E0, E1. split; reflexivity. }
      destruct (Nat.Even_or_Odd p) as [[q ->]|[q ->]].
      + rewrite (proj1 (shared_week_column q ltac:(lia))).
        now rewrite (proj1 (Enone q ltac:(lia))).
      + rewrite (proj2 (shared_week_column q ltac:(lia))).
        now rewrite (proj2 (Enone q ltac:(lia))). }
  rewrite (proj2 (nth_error_combine _ _ 2 _ _) (conj Hrow Hval)). reflexivity.
Qed.
(** C5 does not hold as stated: the interpolation runs over the whole
    column sorted by (location, week_start, minute), so with two curves
    in one location and week the rows of the curves alternate and minute 1
    of curve 100 is interpolated between values of both curves: evaluated
    without rounding it holds 201561/20157 (about 10), where the line
    through that curve's samples (0, 0) and (10079, 1) gives 1/10079. *)
Lemma interpolation_mixes_curves_of_a_week :
  exists tpg,
    returned create_full_time_grid shared_week_table = Ok tpg /\
    row_at 2 (returned interpolate_consumption_curves (shared_week_table, tpg))
    = Some {| ci_LOCATION := "A"; ci_CONSUMPTION_PROFILE_CURVE_ID := 100;
              ci_WEEK_START := "2023-06-12"; ci_X := 1;
              ci_CONSUMPTION_Y := Some (201561 # 20157) |} /\
    In (0, 0%Q) (consumption_samples one_curve) /\
    In (10079, 1%Q) (consumption_samples one_curve) /\
    (on_line 0 0 10079 1 1 == 1 # 10079)%Q /\
    (1 # 10079 < 201561 # 20157)%Q.
Proof.
  exists {| columns := time_grid_columns;
            rows := flat_map grid_rows_of (rows shared_week_table) |}.
  split.
  { unfold returned.
    now rewrite (create_full_time_grid_Ok shared_week_table consumption_columns_same). }
  split.
  { unfold returned. rewrite interpolate_consumption_curves_Ok.
    - exact shared_week_minute_1.
    - intros c [<-|[<-|[]]]; (split; [|reflexivity]); (split; [simpl; tauto|]);
        (split; [simpl; tauto|]); intros y [<-|[<-|[]]]; lia. }
  split; [simpl; auto|]. split; [simpl; auto|].
  split; reflexivity.
Qed.

(** * Further properties of the stages *)

(** ** calc_product_availability_ratio: the merge checks *)

Lemma validate_one_to_one_left_dup {K} `{Key K} {L R} (kl : L -> K) (kr : R -> K)
    (left : list L) (right : list R) :
  ~ NoDup (map kl left) -> validate_one_to_one kl kr left right = Raise MergeError.
Proof.
  intro N. destruct (validate_one_to_one_cases kl kr left right) as [E|E]; [|assumption].
  apply validate_one_to_one_Ok in E. tauto.
Qed.

Lemma calc_product_availability_ratio_cases
    (pig : DataFrame ProductInventoryRow) (tpg : DataFrame TimePoint) :
  returned calc_product_availability_ratio (pig, tpg)
  = if same_column_set inventory_columns (columns pig)
       && same_column_set time_grid_columns (columns tpg)
    then if is_unique (map time_point_minute (rows tpg))
         then Ok {| columns := ratio_columns (columns tpg);
                    rows := groupby_ffill (fun r => (pa_LOCATION r, pa_WEEK_START r))
                              pa_PA_RATIO set_pa_PA_RATIO
                              (sort_values availability_sort_key
                                 (map (ratio_on_grid (rows pig)) (rows tpg))) |}
         else Raise MergeError
    else Raise ValueError.
Proof.
  destruct (same_column_set inventory_columns (columns pig)) eqn:Ep.
  - destruct (same_column_set time_grid_columns (columns tpg)) eqn:Et; cbn [andb].
    + apply same_column_set_spec in Ep, Et.
      destruct (is_unique (map time_point_minute (rows tpg))) eqn:Eu.
      * apply is_unique_NoDup in Eu.
        exact (calc_product_availability_ratio_Ok pig tpg Ep Et Eu).
      * apply is_unique_false in Eu.
        unfold returned, calc_product_availability_ratio, bind, get_args, put_args.
        cbn [fst snd columns rows].
        rewrite (check_columns_ok _ _ _ Ep), (check_columns_ok _ _ _ Et).
        unfold lift, ret. cbn [fst snd columns rows].
        fold (distinct_products_of (rows pig)). fold week_location.
        unfold validate_many_to_one.
        rewrite (proj2 (is_unique_NoDup _) (distinct_products_keys_NoDup (rows pig))).
        rewrite (validate_one_to_one_left_dup time_point_minute fst _ _ Eu). reflexivity.
    + unfold returned, calc_product_availability_ratio, bind, get_args, check_columns.
      cbn [fst snd]. rewrite Ep. unfold ret. cbn [fst snd]. rewrite Et. reflexivity.
  - unfold returned, calc_product_availability_ratio, bind, get_args, check_columns.
    cbn [fst snd]. rewrite Ep. reflexivity.
Qed.

(** X1: the merge checks of calc_product_availability_ratio.  Once both
    column checks have passed, the many-to-one check on the product counts
    never fails, and the one-to-one check fails exactly when two rows of
    the time point grid share (LOCATION, WEEK_START, X): then MergeError
    is raised, otherwise a table is returned. *)
Theorem calc_product_availability_ratio_merge_check :
  forall pig tpg,
    same_columns inventory_columns (columns pig) ->
    same_columns time_grid_columns (columns tpg) ->
    (NoDup (map time_point_minute (rows tpg)) ->
     exists out, returned calc_product_availability_ratio (pig, tpg) = Ok out) /\
    (~ NoDup (map time_point_minute (rows tpg)) ->
     returned calc_product_availability_ratio (pig, tpg) = Raise MergeError).
Proof.
  intros pig tpg Hp Ht. rewrite calc_product_availability_ratio_cases.
  rewrite (proj2 (same_column_set_spec _ _) Hp), (proj2 (same_column_set_spec _ _) Ht).
  cbn [andb]. split.
  - intro Hnd. rewrite (proj2 (is_unique_NoDup _) Hnd). eauto.
  - intro Hdup. now rewrite (proj2 (is_unique_false _) Hdup).
Qed.

(** ** The time grid and the location-weeks of the consumption curves *)

Lemma grid_minutes_of (recs : list ConsumptionCurveRecord) :
  map time_point_minute (flat_map grid_rows_of recs)
  = flat_map (fun c => map (fun m => (curve_location_week c, m)) time_range) recs.
Proof.
  rewrite map_flat_map. apply flat_map_ext. intro c.
  unfold grid_rows_of. rewrite map_map. reflexivity.
Qed.

Lemma NoDup_app_disjoint {A} (l1 l2 : list A) (a : A) :
  NoDup (l1 ++ l2) -> In a l1 -> In a l2 -> False.
Proof.
  induction l1 as [|x l1 IH]; simpl; [tauto|].
  intros Hnd [<-|H1] H2; inversion Hnd as [|y ys Hnin Hnd']; subst.
  - apply Hnin. apply in_or_app. now right.
  - now apply IH.
Qed.

(** The grid repeats a (location, week, minute) exactly when two
    consumption curves share a (location, week). *)
Lemma grid_minutes_NoDup (recs : list ConsumptionCurveRecord) :
  NoDup (map curve_location_week recs) <->
  NoDup (map time_point_minute (flat_map grid_rows_of recs)).
Proof.
  rewrite grid_minutes_of. induction recs as [|c recs IH]; cbn [map flat_map].
  - split; constructor.
  - split.
    + intro Hnd. inversion Hnd as [|x xs Hnin Hnd']; subst.
      apply NoDup_app.
      * apply NoDup_map_of_injective; [|apply time_range_NoDup]. intros x y E. congruence.
      * now apply IH.
      * intros k Hk Hk'. apply in_map_iff in Hk. destruct Hk as [m [<- _]].
        apply in_flat_map in Hk'. destruct Hk' as [c' [Hc' Hk']].
        apply in_map_iff in Hk'. destruct Hk' as [m' [E _]].
        apply Hnin. assert (E' : curve_location_week c' = curve_location_week c)
          by congruence.
        rewrite <- E'. now apply in_map.
    + intro Hnd. constructor.
      * intro Hin. apply in_map_iff in Hin. destruct Hin as [c' [E Hc']].
        assert (H0 : In 0 time_range) by (apply in_time_range; lia).
        apply (NoDup_app_disjoint _ _ (curve_location_week c, 0) Hnd).
        -- now apply (in_map (fun m => (curve_location_week c, m))).
        -- apply in_flat_map. exists c'. split; [assumption|]. rewrite E.
           now apply (in_map (fun m => (curve_location_week c, m))).
      * apply IH. eapply NoDup_app_remove_l. exact Hnd.
Qed.

(** X2: when two consumption curves share a (location, week_start), the
    grid create_full_time_grid builds from them repeats every minute of
    that location and week, and calc_product_availability_ratio raises
    MergeError on it; when no two curves do, it returns. *)
Theorem shared_location_week_raises_MergeError :
  forall cc tpg pig,
    same_columns inventory_columns (columns pig) ->
    returned create_full_time_grid cc = Ok tpg ->
    (NoDup (map curve_location_week (rows cc)) ->
     exists out, returned calc_product_availability_ratio (pig, tpg) = Ok out) /\
    (~ NoDup (map curve_location_week (rows cc)) ->
     returned calc_product_availability_ratio (pig, tpg) = Raise MergeError).
Proof.
  intros cc tpg pig Hp Hgrid.
  assert (Ht : same_columns time_grid_columns (columns tpg)).
  { destruct (same_column_set consumption_columns (columns cc)) eqn:Ec.
    - apply same_column_set_spec in Ec. unfold returned in Hgrid.
      rewrite (create_full_time_grid_Ok cc Ec) in Hgrid. cbn [fst] in Hgrid.
      injection Hgrid as <-. apply time_grid_columns_same.
    - unfold returned, create_full_time_grid, bind, get_args, check_columns in Hgrid.
      rewrite Ec in Hgrid. discriminate. }
  pose proof (create_full_time_grid_Ok_inv cc tpg Hgrid) as Erows.
  rewrite calc_product_availability_ratio_cases.
  rewrite (proj2 (same_column_set_spec _ _) Hp), (proj2 (same_column_set_spec _ _) Ht).
  cbn [andb]. rewrite Erows. split.
  - intro Hnd. apply grid_minutes_NoDup in Hnd.
    rewrite (proj2 (is_unique_NoDup _) Hnd). eauto.
  - intro Hdup. rewrite (proj2 (is_unique_false _)); [reflexivity|].
    intro Hnd. apply Hdup. now apply grid_minutes_NoDup.
Qed.

(** ** calc_product_availability_ratio: the rows returned *)

Lemma calc_product_availability_ratio_Ok_inv
    (pig : DataFrame ProductInventoryRow) (tpg : DataFrame TimePoint)
    (out : DataFrame AvailabilityRow) :
  returned calc_product_availability_ratio (pig, tpg) = Ok out ->
  same_columns inventory_columns (columns pig) /\
  same_columns time_grid_columns (columns tpg) /\
  NoDup (map time_point_minute (rows tpg)) /\
  out = {| columns := ratio_columns (columns tpg);
           rows := groupby_ffill (fun r => (pa_LOCATION r, pa_WEEK_START r))
                     pa_PA_RATIO set_pa_PA_RATIO
                     (sort_values availability_sort_key
                        (map (ratio_on_grid (rows pig)) (rows tpg))) |}.
Proof.
  rewrite calc_product_availability_ratio_cases.
  destruct (same_column_set inventory_columns (columns pig)) eqn:Ep; [|discriminate].
  destruct (same_column_set time_grid_columns (columns tpg)) eqn:Et; [|discriminate].
  cbn [andb].
  destruct (is_unique (map time_point_minute (rows tpg))) eqn:Eu; [|discriminate].
  intro E. injection E as <-.
  apply same_column_set_spec in Ep, Et. apply is_unique_NoDup in Eu. auto.
Qed.

Lemma sorted_by_keys {K} `{Key K} {A B} (f : A -> K) (g : B -> K)
    (l : list A) (l' : list B) :
  map f l = map g l' ->
  StronglySorted (key_le f) l -> StronglySorted (key_le g) l'.
Proof.
  revert l'. induction l as [|a l IH]; intros [|b l'] E Hs; try discriminate;
    [constructor|].
  cbn [map] in E. injection E as Eab E.
  apply StronglySorted_inv in Hs. destruct Hs as [Hs F].
  constructor; [now apply IH|].
  rewrite Forall_forall in *. intros y Hy.
  assert (Hin : In (g y) (map f l)) by (rewrite E; now apply in_map).
  apply in_map_iff in Hin. destruct Hin as [x [Ex Hx]].
  unfold key_le in *. rewrite <- Eab, <- Ex. now apply F.
Qed.

Lemma ratio_on_grid_key (pig : list ProductInventoryRow) (g : TimePoint) :
  availability_key (ratio_on_grid pig g) = time_point_key g.
Proof. reflexivity. Qed.

Lemma drop_column_absent (c : string) (cols : list string) :
  ~ In c cols -> drop_column c cols = cols.
Proof.
  unfold drop_column. induction cols as [|x cols IH]; intro N; [reflexivity|].
  cbn [filter]. destruct (String.eqb x c) eqn:E.
  - apply String.eqb_eq in E. subst. exfalso. apply N. now left.
  - cbn [negb]. f_equal. apply IH. intro Hin. apply N. now right.
Qed.

(** For a grid that passes the column check, the merge adds PA_RATIO
    after the columns of the grid. *)
Lemma ratio_columns_of_grid (cols : list string) :
  same_columns time_grid_columns cols ->
  ratio_columns cols = cols ++ ["PA_RATIO"] /\
  same_columns availability_columns (ratio_columns cols).
Proof.
  intro Hc.
  assert (E : ratio_columns cols = (cols ++ ["PA_RATIO"])%list).
  { unfold ratio_columns, drop_column. rewrite !filter_app.
    fold (drop_column "PRODUCT_IN_STOCK" cols).
    rewrite (drop_column_absent "PRODUCT_IN_STOCK" cols).
    - fold (drop_column "TOTAL_PRODUCT_COUNT" cols).
      rewrite (drop_column_absent "TOTAL_PRODUCT_COUNT" cols); [reflexivity|].
      intro Hin. apply Hc in Hin. simpl in Hin.
      repeat (destruct Hin as [Hin|Hin]; [discriminate|]). exact Hin.
    - intro Hin. apply Hc in Hin. simpl in Hin.
      repeat (destruct Hin as [Hin|Hin]; [discriminate|]). exact Hin. }
  split; [exact E|]. rewrite E. intro c. rewrite in_app_iff, <- (Hc c). simpl. tauto.
Qed.

(** X3: the table calc_product_availability_ratio returns has the columns
    of the time point grid, in the order of the grid, followed by
    PA_RATIO (as a set: LOCATION, CONSUMPTION_PROFILE_CURVE_ID, WEEK_START,
    X, PA_RATIO), and exactly the rows of the time point grid (one row per
    grid row, with the same four key values), ordered by
    (LOCATION, WEEK_START, X). *)
Theorem calc_product_availability_ratio_rows :
  forall pig tpg out,
    returned calc_product_availability_ratio (pig, tpg) = Ok out ->
    columns out = columns tpg ++ ["PA_RATIO"] /\
    same_columns availability_columns (columns out) /\
    Permutation (map time_point_key (rows tpg)) (map availability_key (rows out)) /\
    StronglySorted (key_le availability_sort_key) (rows out).
Proof.
  intros pig tpg out HOk.
  destruct (calc_product_availability_ratio_Ok_inv pig tpg out HOk) as [_ [Ht [_ ->]]].
  cbn [columns rows].
  destruct (ratio_columns_of_grid (columns tpg) Ht) as [Ecols Hset].
  split; [exact Ecols|]. split; [exact Hset|].
  set (joined := map (ratio_on_grid (rows pig)) (rows tpg)).
  set (sorted := sort_values availability_sort_key joined).
  split.
  - unfold groupby_ffill. rewrite ffill_from_map by reflexivity.
    transitivity (map availability_key joined).
    + unfold joined. rewrite map_map. reflexivity.
    + apply Permutation_map, sort_values_perm.
  - apply (sorted_by_keys availability_sort_key availability_sort_key sorted).
    + unfold groupby_ffill. now rewrite ffill_from_map by reflexivity.
    + apply sort_values_sorted.
Qed.

(** ** calc_quality_of_service: checks and null cells *)

Lemma calc_quality_of_service_cases `{Float64Ops}
    (cci : DataFrame ConsumptionInterpRow) (par : DataFrame AvailabilityRow) :
  returned calc_quality_of_service (cci, par)
  = if same_column_set interp_columns (columns cci)
       && same_column_set availability_columns (columns par)
    then if is_unique (map interp_key (rows cci))
            && is_unique (map availability_key (rows par))
         then Ok {| columns := ["QOS"];
                    rows := map qos_row
                      (groupby_agg (fun p => location_week (fst p))
                         (fun g => nansum (map row_QOS g))
                         (merge_left interp_key availability_key (rows cci) (rows par))) |}
         else Raise MergeError
    else Raise ValueError.
Proof.
  unfold returned, calc_quality_of_service, bind, get_args, check_columns, lift, ret, raise.
  cbn [fst snd].
  destruct (same_column_set interp_columns (columns cci)); [|reflexivity].
  destruct (same_column_set availability_columns (columns par)); [|reflexivity].
  cbn [andb fst snd]. unfold validate_one_to_one.
  destruct (is_unique (map interp_key (rows cci)) &&
            is_unique (map availability_key (rows par))); reflexivity.
Qed.

Lemma calc_quality_of_service_Ok_inv `{Float64Ops}
    (cci : DataFrame ConsumptionInterpRow) (par : DataFrame AvailabilityRow)
    (qos : DataFrame QosRow) :
  returned calc_quality_of_service (cci, par) = Ok qos ->
  NoDup (map interp_key (rows cci)) /\
  NoDup (map availability_key (rows par)) /\
  rows qos = map qos_row
               (groupby_agg (fun p => location_week (fst p))
                  (fun g => nansum (map row_QOS g))
                  (map (fun c => (c, find (fun a => keqb (interp_key c) (availability_key a))
                                        (rows par))) (rows cci))).
Proof.
  rewrite calc_quality_of_service_cases.
  destruct (_ && _); [|discriminate].
  destruct (is_unique (map interp_key (rows cci))) eqn:El; [|discriminate].
  destruct (is_unique (map availability_key (rows par))) eqn:Er; [|discriminate].
  cbn [andb]. intro E. injection E as <-.
  apply is_unique_NoDup in El, Er. cbn [rows].
  rewrite (merge_left_unique _ _ _ _ Er). auto.
Qed.

(** The QOS of a returned row is the aggregate of its location and week. *)
Lemma qos_row_inv `{Float64Ops}
    (cci : DataFrame ConsumptionInterpRow) (par : DataFrame AvailabilityRow)
    (qos : DataFrame QosRow) (r : QosRow) :
  returned calc_quality_of_service (cci, par) = Ok qos ->
  In r (rows qos) ->
  In (qs_LOCATION r, qs_WEEK_START r) (map location_week (rows cci)) /\
  qs_QOS r
  = nansum (map row_QOS
      (group_rows (fun p => location_week (fst p))
         (map (fun c => (c, find (fun a => keqb (interp_key c) (availability_key a))
                               (rows par))) (rows cci))
         (qs_LOCATION r, qs_WEEK_START r))).
Proof.
  intros HOk Hr.
  destruct (calc_quality_of_service_Ok_inv cci par qos HOk) as [_ [_ Erows]].
  rewrite Erows in Hr. apply in_map_iff in Hr. destruct Hr as [[[l w] q] [<- Hin]].
  apply groupby_agg_In in Hin. destruct Hin as [Hk ->]. cbn [qos_row qs_QOS qs_LOCATION
    qs_WEEK_START fst snd]. split; [|reflexivity].
  rewrite map_map in Hk. exact Hk.
Qed.

(** X4: once the column checks have passed, calc_quality_of_service raises
    MergeError exactly when one of the two tables repeats a
    (LOCATION, CONSUMPTION_PROFILE_CURVE_ID, WEEK_START, X) key;
    a consumption row without availability row is no error. *)
Theorem calc_quality_of_service_merge_check `{Float64Ops} :
  forall cci par,
    same_columns interp_columns (columns cci) ->
    same_columns availability_columns (columns par) ->
    (NoDup (map interp_key (rows cci)) /\ NoDup (map availability_key (rows par)) ->
     exists qos, returned calc_quality_of_service (cci, par) = Ok qos) /\
    (~ (NoDup (map interp_key (rows cci)) /\ NoDup (map availability_key (rows par))) ->
     returned calc_quality_of_service (cci, par) = Raise MergeError).
Proof.
  intros cci par Hc Hp. rewrite calc_quality_of_service_cases.
  rewrite (proj2 (same_column_set_spec _ _) Hc), (proj2 (same_column_set_spec _ _) Hp).
  cbn [andb]. rewrite <- !is_unique_NoDup.
  destruct (is_unique (map interp_key (rows cci))),
           (is_unique (map availability_key (rows par))); cbn [andb]; split;
    try (intros _; eauto; fail); try (intros [? ?]; discriminate);
    intro N; try reflexivity; exfalso; apply N; auto.
Qed.

Lemma nansum_nulls `{Float64Ops} (l : list (option Q)) :
  (forall o, In o l -> o = None) -> nansum l = 0%Q.
Proof.
  intro Hl. unfold nansum.
  assert (E : known l = []).
  { induction l as [|o l IH]; [reflexivity|].
    unfold known in *. cbn [flat_map]. rewrite (Hl o (or_introl eq_refl)). cbn [app].
    apply IH. intros x Hx. apply Hl. now right. }
  rewrite E. apply group_sum_nil.
Qed.

(** X6: a location and week none of whose minutes has both a PA_RATIO
    and a CONSUMPTION_Y (no availability row of that key, or a null cell)
    still gets a row, and its QOS is 0, not null. *)
Theorem quality_of_service_without_data_is_zero `{Float64Ops} :
  forall cci par qos,
    returned calc_quality_of_service (cci, par) = Ok qos ->
    forall r, In r (rows qos) ->
      (forall c, In c (rows cci) ->
         location_week c = (qs_LOCATION r, qs_WEEK_START r) ->
         PA_RATIO_at (rows par) c = None \/ ci_CONSUMPTION_Y c = None) ->
      qs_QOS r = 0%Q.
Proof.
  intros cci par qos HOk r Hr Hnull.
  destruct (qos_row_inv cci par qos r HOk Hr) as [_ ->].
  apply nansum_nulls. intros o Ho. apply in_map_iff in Ho. destruct Ho as [p [<- Hp]].
  unfold group_rows in Hp. apply filter_In in Hp. destruct Hp as [Hp Ek].
  apply in_map_iff in Hp. destruct Hp as [c [<- Hc]]. cbn [fst] in Ek.
  apply keqb_eq in Ek. unfold row_QOS. cbn [fst snd].
  destruct (Hnull c Hc (eq_sym Ek)) as [E|E].
  - unfold PA_RATIO_at in E. rewrite E. reflexivity.
  - rewrite E. destruct (match find _ (rows par) with Some a => pa_PA_RATIO a | None => None end);
      reflexivity.
Qed.

(** ** interpolate_consumption_curves: the rows returned *)

Lemma NoDup_combine_fst {A B} (x : list A) (y : list B) :
  NoDup x -> NoDup (map fst (combine x y)).
Proof.
  revert y. induction x as [|a x IH]; intros [|b y] Hnd; simpl; try constructor.
  - inversion Hnd as [|a' x' Hnin _]; subst. intro Hin. apply Hnin.
    apply in_map_iff in Hin. destruct Hin as [[a' b'] [<- Hp]].
    now apply in_combine_l in Hp.
  - apply IH. now inversion Hnd.
Qed.

(** No two samples have the same (location, curve, week, minute) when no
    two curves share (location, curve id, week) and no curve repeats a
    minute. *)
Lemma exploded_consumption_keys_unique (recs : list ConsumptionCurveRecord) :
  NoDup (map curve_triple recs) ->
  (forall c, In c recs -> NoDup (cc_X c)) ->
  NoDup (map consumption_sample_key (exploded_consumption recs)).
Proof.
  unfold exploded_consumption.
  induction recs as [|c l IH]; intros Htri Hmin; [constructor|].
  cbn [flat_map]. rewrite map_app. inversion Htri as [|x xs Hnin Htri']; subst.
  apply NoDup_app.
  - rewrite map_map.
    replace (map (fun p => consumption_sample_key (consumption_sample c (fst p) (snd p)))
               (consumption_samples c))
      with (map (fun m => (cc_LOCATION c, cc_CONSUMPTION_PROFILE_CURVE_ID c,
                           cc_WEEK_START c, m))
              (map fst (consumption_samples c)))
      by (rewrite map_map; reflexivity).
    apply NoDup_map_of_injective; [intros x y E; congruence|].
    apply NoDup_combine_fst, Hmin. now left.
  - apply IH; [assumption|]. intros c' Hc'. apply Hmin. now right.
  - intros k Hk Hk'. apply in_map_iff in Hk. destruct Hk as [s [<- Hs]].
    apply in_map_iff in Hs. destruct Hs as [[m v] [<- Hmv]].
    apply in_map_iff in Hk'. destruct Hk' as [s' [Ek Hs']].
    apply in_flat_map in Hs'. destruct Hs' as [c' [Hc' Hs']].
    apply in_map_iff in Hs'. destruct Hs' as [[m' v'] [<- Hmv']].
    unfold consumption_sample_key in Ek. simpl in Ek. injection Ek as El Ei Ew _.
    apply Hnin. apply in_map_iff. exists c'. split; [|assumption].
    unfold curve_triple. congruence.
Qed.

Definition interp_sort_key (r : ConsumptionInterpRow) : string * string * Z :=
  (ci_LOCATION r, ci_WEEK_START r, ci_X r).

Lemma map_fst_combine_interp `{Float64Ops} {A} (l : list A) (f : A -> option Q) :
  map fst (combine l (interpolate_linear (map f l))) = l.
Proof.
  apply map_fst_combine. now rewrite interpolate_linear_length, length_map.
Qed.

(** With unique sample keys the join, the sort and the interpolation keep
    the rows of the grid and put them in (LOCATION, WEEK_START, X) order. *)
Lemma interpolate_on_grid_keys `{Float64Ops}
    (grid : list TimePoint) (ex : list ConsumptionSample) :
  NoDup (map consumption_sample_key ex) ->
  Permutation (map time_point_key grid) (map interp_key (interpolate_on_grid grid ex)) /\
  StronglySorted (key_le interp_sort_key) (interpolate_on_grid grid ex).
Proof.
  intro Hnd. unfold interpolate_on_grid.
  change (fun p : TimePoint * option ConsumptionSample =>
            (tg_LOCATION (fst p), tg_WEEK_START (fst p), tg_X (fst p)))
    with grid_sort_key.
  set (sorted := sort_values grid_sort_key
                   (merge_left time_point_key consumption_sample_key grid ex)).
  assert (Efst : forall {B} (f : TimePoint * option ConsumptionSample -> B),
            map (fun x => f (fst x))
              (combine sorted (interpolate_linear (map joined_Y sorted)))
            = map f sorted).
  { intros B f. rewrite <- (map_map fst f), map_fst_combine_interp. reflexivity. }
  assert (E4 : map interp_key
                 (map consumption_interp_row
                    (combine sorted (interpolate_linear (map joined_Y sorted))))
               = map (fun p => time_point_key (fst p)) sorted).
  { rewrite map_map. exact (Efst _ (fun p => time_point_key (fst p))). }
  assert (E3 : map interp_sort_key
                 (map consumption_interp_row
                    (combine sorted (interpolate_linear (map joined_Y sorted))))
               = map grid_sort_key sorted).
  { rewrite map_map. exact (Efst _ grid_sort_key). }
  split.
  - rewrite E4. transitivity (map (fun p => time_point_key (fst p))
                       (merge_left time_point_key consumption_sample_key grid ex)).
    + rewrite (merge_left_unique _ _ _ _ Hnd), map_map. reflexivity.
    + apply Permutation_map, sort_values_perm.
  - apply (sorted_by_keys grid_sort_key interp_sort_key sorted); [now rewrite E3|].
    apply sort_values_sorted.
Qed.

(** X7: with no two curves of the same (location, curve id, week) and no
    minute twice in a curve, the table interpolate_consumption_curves
    returns has exactly the rows of the time point grid (one row per grid
    row, with the same four key values), ordered by
    (LOCATION, WEEK_START, X). *)
Theorem interpolate_consumption_curves_rows `{Float64Ops} :
  forall cc tpg out,
    NoDup (map curve_triple (rows cc)) ->
    (forall c, In c (rows cc) -> NoDup (cc_X c)) ->
    returned interpolate_consumption_curves (cc, tpg) = Ok out ->
    Permutation (map time_point_key (rows tpg)) (map interp_key (rows out)) /\
    StronglySorted (key_le interp_sort_key) (rows out).
Proof.
  intros cc tpg out Htri Hmin HOk.
  destruct (interpolate_consumption_curves_Ok_inv cc tpg out HOk) as [_ ->].
  apply interpolate_on_grid_keys. now apply exploded_consumption_keys_unique.
Qed.

(** ** interpolate_consumption_curves: no null is left *)

Lemma interpolate_from_filled `{Float64Ops}
    (a : Q) (gap : Z) (l : list (option Q)) (o : option Q) :
  In o (interpolate_from (Some a) gap l) -> o <> None.
Proof.
  revert a gap. induction l as [|[v|] l IH]; intros a gap; cbn [interpolate_from].
  - intros [].
  - intros [<-|Hin]; [discriminate | now apply (IH v 1)].
  - intros [<-|Hin]; [|now apply (IH a (gap + 1))].
    destruct (next_known l) as [[d b]|]; discriminate.
Qed.

Lemma interpolate_linear_filled `{Float64Ops} (v : Q) (l : list (option Q)) (o : option Q) :
  In o (interpolate_linear (Some v :: l)) -> o <> None.
Proof.
  unfold interpolate_linear. cbn [interpolate_from].
  intros [<-|Hin]; [discriminate | now apply (interpolate_from_filled v 1 l)].
Qed.

(** On the grid of the curves themselves the first row of the sorted join
    is a minute 0, which every accepted curve samples. *)
Lemma own_grid_first_row (recs : list ConsumptionCurveRecord) :
  (forall c, In c recs -> accepted_sample (cc_X c) (cc_Y c)) ->
  sort_values grid_sort_key
    (merge_left time_point_key consumption_sample_key
       (flat_map grid_rows_of recs) (exploded_consumption recs)) = [] \/
  exists a v t,
    sort_values grid_sort_key
      (merge_left time_point_key consumption_sample_key
         (flat_map grid_rows_of recs) (exploded_consumption recs)) = a :: t /\
    joined_Y a = Some v.
Proof.
  intro Hacc.
  set (merged := merge_left time_point_key consumption_sample_key
                   (flat_map grid_rows_of recs) (exploded_consumption recs)).
  pose proof (sort_values_sorted grid_sort_key merged) as Hs.
  destruct (sort_values grid_sort_key merged) as [|[g o] t] eqn:Es; [now left|].
  right.
  assert (Hin : In (g, o) merged).
  { apply (sort_values_In grid_sort_key). rewrite Es. now left. }
  apply in_merge_left in Hin. destruct Hin as [Hg Ho].
  apply in_flat_map in Hg. destruct Hg as [c [Hc Hg]].
  apply in_map_iff in Hg. destruct Hg as [m [<- Hm]]. apply in_time_range in Hm.
  fold (grid_point c m) in *.
  destruct (Hacc c Hc) as [[H0 _] Hlen].
  destruct (in_combine_exists _ _ _ Hlen H0) as [v0 Hv0].
  assert (Hs0 : In (consumption_sample c 0 v0) (exploded_consumption recs)).
  { apply in_exploded_consumption. exists c, 0, v0. auto. }
  (* the row of minute 0 of the same curve is in the join *)
  assert (Hrow0 : exists o0, In (grid_point c 0, o0) merged).
  { assert (Hg0 : In (grid_point c 0) (flat_map grid_rows_of recs)).
    { apply in_flat_map. exists c. split; [assumption|].
      apply (in_map (grid_point c)), in_time_range. lia. }
    exists (Some (consumption_sample c 0 v0)). apply in_merge_left.
    split; [assumption|]. split; [assumption | reflexivity]. }
  destruct Hrow0 as [o0 Hrow0].
  assert (Hle : key_le grid_sort_key (grid_point c m, o) (grid_point c 0, o0)).
  { apply (sort_values_In grid_sort_key) in Hrow0. rewrite Es in Hrow0.
    destruct Hrow0 as [E|Hin]; [rewrite E; apply kleb_refl|].
    apply StronglySorted_inv in Hs. destruct Hs as [_ F]. rewrite Forall_forall in F.
    now apply F. }
  unfold key_le, grid_sort_key in Hle. cbn [fst grid_point tg_LOCATION tg_WEEK_START tg_X] in Hle.
  rewrite kleb_same_fst in Hle. apply Z.leb_le in Hle.
  assert (m = 0) by lia. subst m.
  destruct o as [s|].
  - exists (grid_point c 0, Some s), (cs_Y s), t. split; reflexivity.
  - exfalso. exact (Ho _ Hs0 eq_refl).
Qed.

(** X8: on the time grid create_full_time_grid builds from the same
    curves, interpolate_consumption_curves leaves no CONSUMPTION_Y null:
    the first row of the sorted table is a sampled minute 0, and every
    later null lies between two known values or after the last one. *)
Theorem interpolation_leaves_no_null `{Float64Ops} :
  forall cc tpg out,
    returned create_full_time_grid cc = Ok tpg ->
    returned interpolate_consumption_curves (cc, tpg) = Ok out ->
    forall r, In r (rows out) -> ci_CONSUMPTION_Y r <> None.
Proof.
  intros cc tpg out Hgrid HOk r Hr.
  apply create_full_time_grid_Ok_inv in Hgrid.
  destruct (interpolate_consumption_curves_Ok_inv cc tpg out HOk) as [Hacc Erows].
  rewrite Erows, Hgrid in Hr. unfold interpolate_on_grid in Hr.
  change (fun p : TimePoint * option ConsumptionSample =>
            (tg_LOCATION (fst p), tg_WEEK_START (fst p), tg_X (fst p)))
    with grid_sort_key in Hr.
  apply in_map_iff in Hr. destruct Hr as [[p y] [<- Hp]].
  apply in_combine_r in Hp. cbn [consumption_interp_row ci_CONSUMPTION_Y snd].
  destruct (own_grid_first_row (rows cc) Hacc) as [E|[a [v [t [E Ea]]]]];
    rewrite E in Hp.
  - destruct Hp.
  - cbn [map] in Hp. rewrite Ea in Hp. exact (interpolate_linear_filled v _ y Hp).
Qed.

(** ** transform_qos_data: when it returns *)

Definition consumption_curve_rows (qos_curves : DataFrame CurveRow) : list CurveRow :=
  filter (fun c => String.eqb (cv_CURVE_TYPE c) "consumption_profile") (rows qos_curves).

(** The distinct (LOCATION, CONSUMPTION_PROFILE_CURVE_ID) pairs of the
    DemandRecords. *)
Definition location_consumption (qos_data : DataFrame QosDataRow) : list (string * Z) :=
  drop_duplicates (fun p => p)
    (map (fun d => (qd_LOCATION d, qd_CONSUMPTION_PROFILE_CURVE_ID d))
       (demand_records qos_data)).

Definition transform_qos_data_output (qd : DataFrame QosDataRow) (qc : DataFrame CurveRow)
  : DataFrame InventoryCurveRecord * DataFrame ConsumptionCurveRecord :=
  ({| columns := drop_column "CURVE_ID" (drop_column "CURVE_TYPE"
                   (drop_column "DATE" (columns qd) ++ columns qc));
      rows := map inventory_record
                (merge_inner qd_INVENTORY_CURVE_ID cv_CURVE_ID
                   (demand_records qd) (inventory_curve_rows qc)) |},
   {| columns := drop_column "CURVE_ID" (drop_column "CURVE_TYPE"
                   (["LOCATION"; "CONSUMPTION_PROFILE_CURVE_ID"] ++ columns qc));
      rows := map consumption_record
                (merge_inner snd cv_CURVE_ID
                   (location_consumption qd) (consumption_curve_rows qc)) |}).

Lemma transform_qos_data_cases (qd : DataFrame QosDataRow) (qc : DataFrame CurveRow) :
  returned transform_qos_data (qd, qc)
  = if existsb (String.eqb "DATE") (columns qd)
    then if is_unique (map qd_INVENTORY_CURVE_ID (demand_records qd))
            && is_unique (map cv_CURVE_ID (inventory_curve_rows qc))
            && (is_unique (map snd (location_consumption qd))
                && is_unique (map cv_CURVE_ID (consumption_curve_rows qc)))
         then Ok (transform_qos_data_output qd qc)
         else Raise MergeError
    else Raise KeyError.
Proof.
  unfold returned, transform_qos_data, bind, get_args, put_args, lift, ret, raise.
  cbn [fst snd columns rows].
  destruct (existsb (String.eqb "DATE") (columns qd)); [|reflexivity].
  cbn [fst snd]. unfold validate_one_to_one.
  fold (demand_records qd). fold (inventory_curve_rows qc).
  fold (consumption_curve_rows qc). fold (location_consumption qd).
  destruct (is_unique (map qd_INVENTORY_CURVE_ID (demand_records qd)) &&
            is_unique (map cv_CURVE_ID (inventory_curve_rows qc))); [|reflexivity].
  cbn [fst snd andb].
  destruct (is_unique (map snd (location_consumption qd)) &&
            is_unique (map cv_CURVE_ID (consumption_curve_rows qc))); reflexivity.
Qed.

(** The four uniqueness conditions of the two one-to-one joins. *)
Definition one_to_one_curves (qd : DataFrame QosDataRow) (qc : DataFrame CurveRow) : Prop :=
  NoDup (map qd_INVENTORY_CURVE_ID (demand_records qd)) /\
  NoDup (map cv_CURVE_ID (inventory_curve_rows qc)) /\
  NoDup (map snd (location_consumption qd)) /\
  NoDup (map cv_CURVE_ID (consumption_curve_rows qc)).

Lemma one_to_one_curves_spec (qd : DataFrame QosDataRow) (qc : DataFrame CurveRow) :
  is_unique (map qd_INVENTORY_CURVE_ID (demand_records qd))
  && is_unique (map cv_CURVE_ID (inventory_curve_rows qc))
  && (is_unique (map snd (location_consumption qd))
      && is_unique (map cv_CURVE_ID (consumption_curve_rows qc))) = true
  <-> one_to_one_curves qd qc.
Proof.
  unfold one_to_one_curves. rewrite !andb_true_iff, !is_unique_NoDup. tauto.
Qed.

(** X9: with a DATE column in [qos_data], transform_qos_data returns
    exactly when, among the DemandRecords without DATE and duplicates, no
    inventory curve id occurs twice, no consumption profile id belongs to
    two locations, and no curve id occurs twice among the inventory rows
    or among the consumption rows of [qos_curves]; otherwise it raises
    MergeError. *)
Theorem transform_qos_data_returns_iff :
  forall qd qc,
    In "DATE" (columns qd) ->
    (one_to_one_curves qd qc ->
     returned transform_qos_data (qd, qc) = Ok (transform_qos_data_output qd qc)) /\
    (~ one_to_one_curves qd qc ->
     returned transform_qos_data (qd, qc) = Raise MergeError).
Proof.
  intros qd qc HD. rewrite transform_qos_data_cases, (has_DATE qd HD).
  pose proof (one_to_one_curves_spec qd qc) as Hspec.
  destruct (_ && _ && _).
  - split; [reflexivity|]. intro N. exfalso. apply N. now apply Hspec.
  - split; [|reflexivity]. intro H. apply Hspec in H. discriminate.
Qed.

Lemma not_NoDup_map {A B} (f : A -> B) (l : list A) (x y : A) :
  In x l -> In y l -> x <> y -> f x = f y -> ~ NoDup (map f l).
Proof.
  intros Hx Hy N E Hnd. apply N. exact (NoDup_map_injective f l x y Hnd Hx Hy E).
Qed.

Lemma demand_record_of (qd : DataFrame QosDataRow) (d : QosDataRow) :
  In d (rows qd) ->
  exists d', In d' (demand_records qd) /\ qos_data_key d' = qos_data_key d.
Proof.
  intro Hd. unfold demand_records.
  destruct (drop_duplicates_complete qos_data_key (map drop_DATE (rows qd)) (drop_DATE d))
    as [d' [Hd' E]]; [now apply in_map|].
  exists d'. split; [assumption|]. rewrite E. reflexivity.
Qed.

(** X10: a consumption profile curve id used at two locations makes
    transform_qos_data raise MergeError. *)
Theorem shared_consumption_profile_raises_MergeError :
  forall qd qc d1 d2,
    In "DATE" (columns qd) ->
    In d1 (rows qd) -> In d2 (rows qd) ->
    qd_LOCATION d1 <> qd_LOCATION d2 ->
    qd_CONSUMPTION_PROFILE_CURVE_ID d1 = qd_CONSUMPTION_PROFILE_CURVE_ID d2 ->
    returned transform_qos_data (qd, qc) = Raise MergeError.
Proof.
  intros qd qc d1 d2 HD H1 H2 Nloc Ecp.
  rewrite transform_qos_data_cases, (has_DATE qd HD).
  pose proof (one_to_one_curves_spec qd qc) as Hspec.
  destruct (_ && _ && _); [|reflexivity].
  exfalso. destruct (proj1 Hspec eq_refl) as [_ [_ [Hnd _]]]. revert Hnd.
  assert (Hp : forall d, In d (rows qd) ->
            In (qd_LOCATION d, qd_CONSUMPTION_PROFILE_CURVE_ID d) (location_consumption qd)).
  { intros d Hd. destruct (demand_record_of qd d Hd) as [d' [Hd' E]].
    unfold location_consumption. apply drop_duplicates_values.
    apply in_map_iff. exists d'. split; [|assumption].
    unfold qos_data_key in E. congruence. }
  apply (not_NoDup_map snd _ _ _ (Hp d1 H1) (Hp d2 H2)); [congruence | exact Ecp].
Qed.

(** X11: an inventory curve id named by two DemandRecords that differ in
    location, product or consumption profile makes transform_qos_data raise
    MergeError; records that differ in DATE only count once. *)
Theorem shared_inventory_curve_raises_MergeError :
  forall qd qc d1 d2,
    In "DATE" (columns qd) ->
    In d1 (rows qd) -> In d2 (rows qd) ->
    qos_data_key d1 <> qos_data_key d2 ->
    qd_INVENTORY_CURVE_ID d1 = qd_INVENTORY_CURVE_ID d2 ->
    returned transform_qos_data (qd, qc) = Raise MergeError.
Proof.
  intros qd qc d1 d2 HD H1 H2 Nkey Eid.
  rewrite transform_qos_data_cases, (has_DATE qd HD).
  pose proof (one_to_one_curves_spec qd qc) as Hspec.
  destruct (_ && _ && _); [|reflexivity].
  exfalso. destruct (proj1 Hspec eq_refl) as [Hnd _]. revert Hnd.
  destruct (demand_record_of qd d1 H1) as [d1' [Hd1 E1]].
  destruct (demand_record_of qd d2 H2) as [d2' [Hd2 E2]].
  apply (not_NoDup_map qd_INVENTORY_CURVE_ID _ d1' d2' Hd1 Hd2).
  - intro E. apply Nkey. rewrite <- E1, <- E2, E. reflexivity.
  - unfold qos_data_key in E1, E2. congruence.
Qed.

(** ** transform_qos_data: what its outputs guarantee *)

Lemma merge_inner_unique {K} `{Key K} {L R} (kl : L -> K) (kr : R -> K)
    (left : list L) (right : list R) :
  NoDup (map kr right) ->
  merge_inner kl kr left right
  = flat_map (fun l => match find (fun r => keqb (kl l) (kr r)) right with
                       | Some r => [(l, r)]
                       | None => []
                       end) left.
Proof.
  intro Hnd. unfold merge_inner. apply flat_map_ext. intro l.
  rewrite (matches_unique kl kr right l Hnd). destruct (find _ right); reflexivity.
Qed.

Lemma merge_inner_left_keys {K} `{Key K} {L R} (kl : L -> K) (kr : R -> K)
    (left : list L) (right : list R) :
  NoDup (map kl left) -> NoDup (map kr right) ->
  NoDup (map (fun p => kl (fst p)) (merge_inner kl kr left right)).
Proof.
  intros Hl Hr. rewrite (merge_inner_unique kl kr left right Hr).
  induction left as [|l left IH]; [constructor|].
  cbn [flat_map map] in *. inversion Hl as [|k ks Hnin Hl']; subst.
  destruct (find (fun r => keqb (kl l) (kr r)) right) as [r|]; [|now apply IH].
  cbn [app map fst]. constructor; [|now apply IH].
  intro Hin. apply Hnin. apply in_map_iff in Hin. destruct Hin as [[l' r'] [E Hp]].
  cbn [fst] in E. apply in_flat_map in Hp. destruct Hp as [l0 [Hl0 Hp]].
  destruct (find (fun r0 => keqb (kl l0) (kr r0)) right); [|destruct Hp].
  destruct Hp as [Ep|[]]. injection Ep as -> _. rewrite <- E. now apply in_map.
Qed.

(** X12: when transform_qos_data returns, no two InventoryCurveRecords have
    the same INVENTORY_CURVE_ID and no two ConsumptionCurveRecords the same
    CONSUMPTION_PROFILE_CURVE_ID: every curve id stands for one curve of
    one week. *)
Theorem transform_qos_data_unique_curve_ids :
  forall qd qc inv cc,
    returned transform_qos_data (qd, qc) = Ok (inv, cc) ->
    NoDup (map ic_INVENTORY_CURVE_ID (rows inv)) /\
    NoDup (map cc_CONSUMPTION_PROFILE_CURVE_ID (rows cc)).
Proof.
  intros qd qc inv cc HOk. rewrite transform_qos_data_cases in HOk.
  destruct (existsb _ (columns qd)); [|discriminate].
  pose proof (one_to_one_curves_spec qd qc) as Hspec.
  destruct (_ && _ && _); [|discriminate].
  destruct (proj1 Hspec eq_refl) as [Hd [Hi [Hl Hc]]].
  injection HOk as <- <-. cbn [rows]. rewrite !map_map. split.
  - rewrite (map_ext _ (fun p => qd_INVENTORY_CURVE_ID (fst p)))
      by (intros [d c]; reflexivity).
    exact (merge_inner_left_keys qd_INVENTORY_CURVE_ID cv_CURVE_ID _ _ Hd Hi).
  - rewrite (map_ext _ (fun p : (string * Z) * CurveRow => snd (fst p)))
      by (intros [d c]; reflexivity).
    exact (merge_inner_left_keys snd cv_CURVE_ID _ _ Hl Hc).
Qed.

Definition qos_data_columns : list string :=
  ["LOCATION"; "PRODUCT"; "INVENTORY_CURVE_ID"; "CONSUMPTION_PROFILE_CURVE_ID"; "DATE"].

Definition qos_curves_columns : list string :=
  ["CURVE_ID"; "CURVE_TYPE"; "WEEK_START"; "X"; "Y"].

Lemma in_drop_column (c x : string) (cols : list string) :
  In x (drop_column c cols) <-> In x cols /\ x <> c.
Proof.
  unfold drop_column. rewrite filter_In, negb_true_iff, String.eqb_neq. tauto.
Qed.

Lemma transform_qos_data_output_columns (qd : DataFrame QosDataRow) (qc : DataFrame CurveRow) :
  same_columns qos_data_columns (columns qd) ->
  same_columns qos_curves_columns (columns qc) ->
  same_columns inventory_columns (columns (fst (transform_qos_data_output qd qc))) /\
  same_columns consumption_columns (columns (snd (transform_qos_data_output qd qc))).
Proof.
  intros Hd Hc. cbn [fst snd columns transform_qos_data_output]. split.
  - assert (E : same_columns inventory_columns
                  (drop_column "CURVE_ID" (drop_column "CURVE_TYPE"
                     (drop_column "DATE" qos_data_columns ++ qos_curves_columns))))
      by (apply same_column_set_spec; reflexivity).
    intro x. rewrite (E x), !in_drop_column, !in_app_iff, !in_drop_column.
    rewrite (Hd x), (Hc x). reflexivity.
  - assert (E : same_columns consumption_columns
                  (drop_column "CURVE_ID" (drop_column "CURVE_TYPE"
                     (["LOCATION"; "CONSUMPTION_PROFILE_CURVE_ID"] ++ qos_curves_columns))))
      by (apply same_column_set_spec; reflexivity).
    intro x. rewrite (E x), !in_drop_column, !in_app_iff.
    rewrite (Hc x). reflexivity.
Qed.

(** ** The stages in the order of [main] *)

Lemma call_Ok {S A} (stage : M S A) (args : S) (a : A) :
  returned stage args = Ok a -> call stage args = Ok (a, args_after stage args).
Proof.
  unfold returned, args_after, call. destruct (stage args) as [[x|e] s]; cbn [fst snd];
    intro E; [now injection E as -> | discriminate].
Qed.

Lemma call_Raise {S A} (stage : M S A) (args : S) (e : exn) :
  returned stage args = Raise e -> call stage args = Raise e.
Proof.
  unfold returned, call. destruct (stage args) as [[x|e'] s]; cbn [fst];
    intro E; [discriminate | now injection E as ->].
Qed.

(** The pipeline hands the outputs of the stages on as [main] does. *)
Lemma qos_pipeline_stages `{Float64Ops} (qd : DataFrame QosDataRow) (qc : DataFrame CurveRow)
    inv cc pig tpg par cci qos :
  returned transform_qos_data (qd, qc) = Ok (inv, cc) ->
  returned create_product_inventory inv = Ok pig ->
  returned create_full_time_grid cc = Ok tpg ->
  returned calc_product_availability_ratio (pig, tpg) = Ok par ->
  returned interpolate_consumption_curves (cc, tpg) = Ok cci ->
  returned calc_quality_of_service (cci, par) = Ok qos ->
  qos_pipeline qd qc = Ok qos.
Proof.
  intros H1 H2 H3 H4 H5 H6. unfold qos_pipeline.
  rewrite (call_Ok _ _ _ H1). cbn [and_then fst snd].
  rewrite (call_Ok _ _ _ H2). cbn [and_then fst snd].
  rewrite (call_Ok _ _ _ H3). cbn [and_then fst snd].
  rewrite (call_Ok _ _ _ H4). cbn [and_then fst snd].
  assert (E3 : args_after create_full_time_grid cc = cc)
    by apply create_full_time_grid_preserves.
  assert (E4 : snd (args_after calc_product_availability_ratio (pig, tpg)) = tpg).
  { rewrite calc_product_availability_ratio_args. destruct (_ && _); reflexivity. }
  rewrite E3, E4.
  rewrite (call_Ok _ _ _ H5). cbn [and_then fst snd].
  rewrite (call_Ok _ _ _ H6). reflexivity.
Qed.

Lemma availability_rows_keys (pig : list ProductInventoryRow) (grid : list TimePoint) :
  Permutation (map time_point_key grid)
    (map availability_key
       (groupby_ffill (fun r => (pa_LOCATION r, pa_WEEK_START r))
          pa_PA_RATIO set_pa_PA_RATIO
          (sort_values availability_sort_key (map (ratio_on_grid pig) grid)))) /\
  StronglySorted (key_le availability_sort_key)
    (groupby_ffill (fun r => (pa_LOCATION r, pa_WEEK_START r))
       pa_PA_RATIO set_pa_PA_RATIO
       (sort_values availability_sort_key (map (ratio_on_grid pig) grid))).
Proof.
  set (joined := map (ratio_on_grid pig) grid).
  set (sorted := sort_values availability_sort_key joined).
  split.
  - unfold groupby_ffill. rewrite ffill_from_map by reflexivity.
    transitivity (map availability_key joined).
    + unfold joined. rewrite map_map. reflexivity.
    + apply Permutation_map, sort_values_perm.
  - apply (sorted_by_keys availability_sort_key availability_sort_key sorted).
    + unfold groupby_ffill. now rewrite ffill_from_map by reflexivity.
    + apply sort_values_sorted.
Qed.

Lemma NoDup_map_project {A B C} (f : A -> B) (g : B -> C) (l : list A) :
  NoDup (map (fun a => g (f a)) l) -> NoDup (map f l).
Proof.
  intro Hnd. rewrite <- (map_map f g) in Hnd. exact (NoDup_map_inv g _ Hnd).
Qed.

Lemma pig_columns_same :
  same_columns inventory_columns
    ["LOCATION"; "WEEK_START"; "X"; "INVENTORY_CURVE_ID"; "PRODUCT";
     "CONSUMPTION_PROFILE_CURVE_ID"; "Y"].
Proof. apply same_column_set_spec. reflexivity. Qed.

Lemma interp_columns_same :
  same_columns interp_columns
    (drop_column "Y" (time_grid_columns ++ ["Y"; "CONSUMPTION_Y"])).
Proof. apply same_column_set_spec. reflexivity. Qed.

Lemma availability_columns_same : same_columns availability_columns availability_columns.
Proof. intro c. tauto. Qed.

(** After transform_qos_data nothing raises when the samples are accepted,
    no consumption curve repeats a minute and no two consumption curves
    share a (location, week). *)
Lemma downstream_stages_return `{Float64Ops}
    (inv : DataFrame InventoryCurveRecord) (cc : DataFrame ConsumptionCurveRecord) :
  same_columns inventory_columns (columns inv) ->
  same_columns consumption_columns (columns cc) ->
  (forall c, In c (rows inv) -> accepted_sample (ic_X c) (ic_Y c)) ->
  (forall c, In c (rows cc) -> accepted_sample (cc_X c) (cc_Y c)) ->
  (forall c, In c (rows cc) -> NoDup (cc_X c)) ->
  NoDup (map curve_location_week (rows cc)) ->
  exists pig tpg par cci qos,
    returned create_product_inventory inv = Ok pig /\
    returned create_full_time_grid cc = Ok tpg /\
    returned calc_product_availability_ratio (pig, tpg) = Ok par /\
    returned interpolate_consumption_curves (cc, tpg) = Ok cci /\
    returned calc_quality_of_service (cci, par) = Ok qos /\
    rows tpg = flat_map grid_rows_of (rows cc) /\
    Permutation (map time_point_key (rows tpg)) (map interp_key (rows cci)).
Proof.
  intros Hci Hcc Hai Hac Hmin Hweek.
  pose proof (f_equal fst (create_product_inventory_Ok inv Hci Hai)) as H2.
  pose proof (f_equal fst (create_full_time_grid_Ok cc Hcc)) as H3.
  cbn [fst] in H2, H3.
  set (pig := {| columns := ["LOCATION"; "WEEK_START"; "X"; "INVENTORY_CURVE_ID"; "PRODUCT";
                             "CONSUMPTION_PROFILE_CURVE_ID"; "Y"];
                 rows := densify_inventory
                           (flat_map (fun c => map (fun p => inventory_sample c (fst p) (snd p))
                                                 (combine (ic_X c) (ic_Y c))) (rows inv)) |})
    in *.
  set (tpg := {| columns := time_grid_columns;
                 rows := flat_map grid_rows_of (rows cc) |}) in *.
  assert (Hgrid : NoDup (map time_point_minute (rows tpg))).
  { apply grid_minutes_NoDup. exact Hweek. }
  pose proof (calc_product_availability_ratio_Ok pig tpg pig_columns_same
                time_grid_columns_same Hgrid) as H4.
  pose proof (f_equal fst (interpolate_consumption_curves_Ok cc tpg Hac)) as H5.
  cbn [fst] in H5.
  assert (Hsamples : NoDup (map consumption_sample_key (exploded_consumption (rows cc)))).
  { apply exploded_consumption_keys_unique; [|assumption].
    apply (NoDup_map_project curve_triple (fun t => (fst (fst t), snd t))). exact Hweek. }
  destruct (interpolate_on_grid_keys (rows tpg) (exploded_consumption (rows cc)) Hsamples)
    as [Hperm _].
  assert (Hkeys : NoDup (map time_point_key (rows tpg))).
  { apply (NoDup_map_project time_point_key
             (fun k => (fst (fst (fst k)), snd (fst k), snd k))). exact Hgrid. }
  eexists pig, tpg, _, _, _.
  split; [exact H2|]. split; [exact H3|]. split; [exact H4|]. split; [exact H5|].
  split; [|split; [reflexivity | exact Hperm]].
  apply calc_quality_of_service_Ok; cbn [columns rows].
  - exact interp_columns_same.
  - exact availability_columns_same.
  - exact (Permutation_NoDup Hperm Hkeys).
  - exact (Permutation_NoDup (proj1 (availability_rows_keys (rows pig) (rows tpg))) Hkeys).
Qed.

Lemma transform_qos_data_Ok_inv (qd : DataFrame QosDataRow) (qc : DataFrame CurveRow)
    (inv : DataFrame InventoryCurveRecord) (cc : DataFrame ConsumptionCurveRecord) :
  returned transform_qos_data (qd, qc) = Ok (inv, cc) ->
  one_to_one_curves qd qc /\ (inv, cc) = transform_qos_data_output qd qc.
Proof.
  rewrite transform_qos_data_cases.
  destruct (existsb _ (columns qd)); [|discriminate].
  pose proof (one_to_one_curves_spec qd qc) as Hspec.
  destruct (_ && _ && _); [|discriminate].
  intro E. injection E as <- <-. split; [now apply Hspec | reflexivity].
Qed.

Lemma qos_rows_location_weeks `{Float64Ops} (cci : DataFrame ConsumptionInterpRow)
    (par : DataFrame AvailabilityRow) (qos : DataFrame QosRow) (lw : string * string) :
  returned calc_quality_of_service (cci, par) = Ok qos ->
  In lw (map (fun r => (qs_LOCATION r, qs_WEEK_START r)) (rows qos)) <->
  In lw (map location_week (rows cci)).
Proof.
  intro HOk.
  destruct (calc_quality_of_service_Ok_inv cci par qos HOk) as [_ [_ ->]].
  rewrite map_map.
  rewrite (map_ext _ fst) by (intros [[l w] q]; reflexivity).
  rewrite groupby_agg_keys, group_keys_In, map_map. reflexivity.
Qed.

Lemma grid_location_weeks (recs : list ConsumptionCurveRecord) (lw : string * string) :
  In lw (map (fun g => (tg_LOCATION g, tg_WEEK_START g)) (flat_map grid_rows_of recs)) <->
  In lw (map curve_location_week recs).
Proof.
  rewrite !in_map_iff. split.
  - intros [g [<- Hg]]. apply in_flat_map in Hg. destruct Hg as [c [Hc Hg]].
    apply in_map_iff in Hg. destruct Hg as [m [<- _]]. exists c. auto.
  - intros [c [<- Hc]]. exists (grid_point c 0). split; [reflexivity|].
    apply in_flat_map. exists c. split; [assumption|].
    apply (in_map (grid_point c)), in_time_range. lia.
Qed.

(** From the outputs of transform_qos_data on, the pipeline returns, with
    a row for every location and week of the consumption curves. *)
Lemma qos_pipeline_after_transform `{Float64Ops}
    (qd : DataFrame QosDataRow) (qc : DataFrame CurveRow)
    (inv : DataFrame InventoryCurveRecord) (cc : DataFrame ConsumptionCurveRecord) :
  returned transform_qos_data (qd, qc) = Ok (inv, cc) ->
  same_columns inventory_columns (columns inv) ->
  same_columns consumption_columns (columns cc) ->
  (forall c, In c (rows inv) -> accepted_sample (ic_X c) (ic_Y c)) ->
  (forall c, In c (rows cc) -> accepted_sample (cc_X c) (cc_Y c)) ->
  (forall c, In c (rows cc) -> NoDup (cc_X c)) ->
  NoDup (map curve_location_week (rows cc)) ->
  exists qos,
    qos_pipeline qd qc = Ok qos /\
    forall lw, In lw (map (fun r => (qs_LOCATION r, qs_WEEK_START r)) (rows qos)) <->
               In lw (map curve_location_week (rows cc)).
Proof.
  intros H1 Hci Hcc Hai Hac Hmin Hweek.
  destruct (downstream_stages_return inv cc Hci Hcc Hai Hac Hmin Hweek)
    as [pig [tpg [par [cci [qos [H2 [H3 [H4 [H5 [H6 [Egrid Hperm]]]]]]]]]]].
  exists qos. split; [exact (qos_pipeline_stages qd qc _ _ _ _ _ _ _ H1 H2 H3 H4 H5 H6)|].
  intro lw. rewrite (qos_rows_location_weeks cci par qos lw H6).
  rewrite <- (grid_location_weeks (rows cc) lw), <- Egrid.
  assert (El : map location_week (rows cci)
               = map (fun k : string * Z * string * Z => (fst (fst (fst k)), snd (fst k)))
                   (map interp_key (rows cci))) by (now rewrite map_map).
  assert (Eg : map (fun g => (tg_LOCATION g, tg_WEEK_START g)) (rows tpg)
               = map (fun k : string * Z * string * Z => (fst (fst (fst k)), snd (fst k)))
                   (map time_point_key (rows tpg))) by (now rewrite map_map).
  rewrite El, Eg.
  split; apply Permutation_in, Permutation_map; [now symmetry | assumption].
Qed.

(** X13: for input tables with the columns of the task, whenever
    transform_qos_data returns curves whose samples are accepted (equal
    lengths, minutes from 0 to 10079), with no minute twice in a
    consumption curve and no two consumption curves of one location and
    week, every later stage returns: the pipeline yields a QoS table with
    a row for exactly the locations and weeks of the consumption
    curves. *)
Theorem qos_pipeline_returns `{Float64Ops} :
  forall qd qc inv cc,
    same_columns qos_data_columns (columns qd) ->
    same_columns qos_curves_columns (columns qc) ->
    returned transform_qos_data (qd, qc) = Ok (inv, cc) ->
    (forall c, In c (rows inv) -> accepted_sample (ic_X c) (ic_Y c)) ->
    (forall c, In c (rows cc) -> accepted_sample (cc_X c) (cc_Y c)) ->
    (forall c, In c (rows cc) -> NoDup (cc_X c)) ->
    NoDup (map curve_location_week (rows cc)) ->
    exists qos,
      qos_pipeline qd qc = Ok qos /\
      forall lw, In lw (map (fun r => (qs_LOCATION r, qs_WEEK_START r)) (rows qos)) <->
                 In lw (map curve_location_week (rows cc)).
Proof.
  intros qd qc inv cc Hd Hc H1 Hai Hac Hmin Hweek.
  destruct (transform_qos_data_Ok_inv qd qc inv cc H1) as [_ Eout].
  destruct (transform_qos_data_output_columns qd qc Hd Hc) as [Hci Hcc].
  rewrite <- Eout in Hci, Hcc. cbn [fst snd] in Hci, Hcc.
  exact (qos_pipeline_after_transform qd qc inv cc H1 Hci Hcc Hai Hac Hmin Hweek).
Qed.

(** ** calc_product_availability_ratio: the values of PA_RATIO *)

Section FfillValues.
Context {K : Type} `{Key K} {A V : Type}.
Variable key : A -> K.
Variable get : A -> option V.
Variable set : A -> option V -> A.
Hypothesis get_set : forall a o, get (set a o) = o.

(** A value remembered for group [k] was held by an earlier row of [k]. *)
Lemma last_seen_state_after_inv (seen : list (K * V)) (l : list A) (k : K) (v : V) :
  last_seen (state_after key get seen l) k = Some v ->
  last_seen seen k = Some v \/ exists q, In q l /\ key q = k /\ get q = Some v.
Proof.
  revert seen. induction l as [|a l IH]; intros seen E; cbn [state_after] in E; [now left|].
  apply IH in E. destruct E as [E|[q [Hq [Ek Eq]]]]; [|right; exists q; simpl; auto].
  destruct (get a) as [w|] eqn:Ea; [|now left].
  rewrite last_seen_remember in E. destruct (keqb k (key a)) eqn:Ek; [|now left].
  apply keqb_eq in Ek. injection E as ->. right. exists a. simpl. auto.
Qed.

(** A group has seen nothing when none of its earlier rows held a value. *)
Lemma last_seen_state_after_none (l : list A) (k : K) :
  last_seen (state_after key get [] l) k = None <->
  forall q, In q l -> key q = k -> get q = None.
Proof.
  split.
  - intros E q Hq Ek. destruct (get q) as [v|] eqn:Eq; [|reflexivity].
    exfalso.
    assert (Hsome : exists w, last_seen (state_after key get [] l) k = Some w).
    { clear E. generalize (@nil (K * V)).
      induction l as [|a l IH]; intro seen; [destruct Hq|].
      cbn [state_after]. destruct Hq as [->|Hq]; [|now apply IH].
      rewrite Eq. clear IH.
      assert (Hrem : last_seen (remember seen (key q) v) k = Some v)
        by (rewrite last_seen_remember, <- Ek, keqb_refl; reflexivity).
      revert Hrem. generalize (remember seen (key q) v). generalize v. clear - get_set.
      induction l as [|b l IH]; intros w s Hs; cbn [state_after]; [eauto|].
      destruct (get b) as [u|] eqn:Eb; [|now apply (IH w)].
      destruct (keqb k (key b)) eqn:Ekb.
      + apply (IH u). rewrite last_seen_remember, Ekb. reflexivity.
      + apply (IH w). now rewrite last_seen_remember, Ekb. }
    destruct Hsome as [w Hw]. congruence.
  - intro Hnone. destruct (last_seen (state_after key get [] l) k) as [v|] eqn:E;
      [|reflexivity].
    apply last_seen_state_after_inv in E. destruct E as [E|[q [Hq [Ek Eq]]]];
      [discriminate|]. rewrite (Hnone q Hq Ek) in Eq. discriminate.
Qed.

(** Forward fill invents no value. *)
Lemma groupby_ffill_value (l : list A) (b : A) (v : V) :
  In b (groupby_ffill key get set l) -> get b = Some v ->
  exists a, In a l /\ get a = Some v.
Proof.
  intros Hb Ev. apply ffill_from_In in Hb. destruct Hb as [pre [a [post [-> ->]]]].
  unfold fill_row in Ev. destruct (get a) as [w|] eqn:Ea.
  - exists a. split; [apply in_or_app; right; now left | congruence].
  - rewrite get_set in Ev. apply last_seen_state_after_inv in Ev.
    destruct Ev as [Ev|[q [Hq [_ Eq]]]]; [discriminate|].
    exists q. split; [apply in_or_app; now left | assumption].
Qed.

End FfillValues.

Definition inventory_minute (r : ProductInventoryRow) : Minute :=
  (pi_LOCATION r, pi_WEEK_START r, pi_X r).

Definition inventory_week (r : ProductInventoryRow) : string * string :=
  (pi_WEEK_START r, pi_LOCATION r).

(** The rows in stock at a (location, week, minute), one per inventory
    row, and the distinct products of a (week, location). *)
Definition in_stock_rows (pig : list ProductInventoryRow) (t : Minute) : Z :=
  sum_Z (map (fun r => in_stock (pi_Y r)) (group_rows inventory_minute pig t)).

Definition product_count (pig : list ProductInventoryRow) (t : Minute) : Z :=
  nunique (map pi_PRODUCT (group_rows inventory_week pig (snd (fst t), fst (fst t)))).

Lemma group_rows_map {K} `{Key K} {A B} (f : A -> B) (key : B -> K) (l : list A) (k : K) :
  group_rows key (map f l) k = map f (group_rows (fun a => key (f a)) l k).
Proof.
  unfold group_rows. induction l as [|a l IH]; [reflexivity|].
  cbn [map filter]. destruct (keqb k (key (f a))); cbn [map]; now rewrite IH.
Qed.

Lemma par_data_keys (pig : list ProductInventoryRow) :
  map fst (par_data_of pig) = group_keys (map inventory_minute pig).
Proof.
  unfold par_data_of.
  rewrite (merge_left_unique _ _ _ _ (distinct_products_keys_NoDup pig)).
  rewrite !map_map. cbn [fst].
  change (map (fun x : Minute * Z => fst x) (products_in_stock_of pig))
    with (map fst (products_in_stock_of pig)).
  unfold products_in_stock_of. rewrite groupby_agg_keys, map_map. reflexivity.
Qed.

(** Every row of [par_data] holds the quotient of the rows in stock and
    the distinct products. *)
Lemma par_data_value (pig : list ProductInventoryRow) (t : Minute) (o : option Q) :
  In (t, o) (par_data_of pig) ->
  In t (map inventory_minute pig) /\
  o = Some (inject_Z (in_stock_rows pig t) / inject_Z (product_count pig t))%Q.
Proof.
  unfold par_data_of.
  rewrite (merge_left_unique _ _ _ _ (distinct_products_keys_NoDup pig)), map_map.
  cbn [fst]. intro Hin. apply in_map_iff in Hin. destruct Hin as [[t' s] [E Hs]].
  cbn [fst] in E. injection E as -> <-.
  unfold products_in_stock_of in Hs. apply groupby_agg_In in Hs.
  destruct Hs as [Ht ->]. rewrite map_map in Ht.
  change (map (fun x => (pi_LOCATION (set_pi_PRODUCT_IN_STOCK x),
                         pi_WEEK_START (set_pi_PRODUCT_IN_STOCK x),
                         pi_X (set_pi_PRODUCT_IN_STOCK x))) pig)
    with (map inventory_minute pig) in Ht.
  split; [exact Ht|].
  destruct (find_key_In week_location (distinct_products_of pig) (fst t)) as [d Ed].
  - apply in_map_iff in Ht. destruct Ht as [r [<- Hr]].
    unfold distinct_products_of.
    replace (map week_location
               (groupby_agg (fun r => (pi_WEEK_START r, pi_LOCATION r))
                  (fun g => nunique (map pi_PRODUCT g)) pig))
      with (map (fun k : string * string => (snd k, fst k))
              (map fst (groupby_agg (fun r => (pi_WEEK_START r, pi_LOCATION r))
                 (fun g => nunique (map pi_PRODUCT g)) pig)))
      by (rewrite map_map; reflexivity).
    rewrite groupby_agg_keys. apply in_map_iff. exists (inventory_week r).
    split; [reflexivity|]. apply group_keys_In. now apply (in_map inventory_week).
  - cbn [fst snd].
    change (fun r : string * string * Z => pair_eqb (fst t) (week_location r))
      with (fun r : string * string * Z => keqb (fst t) (week_location r)).
    rewrite Ed. unfold pa_ratio. cbn [fst snd].
    apply find_key_Some in Ed. destruct Ed as [Hd Ek].
    destruct d as [[w l] n]. unfold distinct_products_of in Hd.
    apply groupby_agg_In in Hd. destruct Hd as [_ ->].
    unfold week_location in Ek. cbn [fst snd] in Ek.
    unfold in_stock_rows, product_count. rewrite Ek. cbn [fst snd].
    rewrite (group_rows_map set_pi_PRODUCT_IN_STOCK
               (fun r => (pi_LOCATION r, pi_WEEK_START r, pi_X r)) pig t), map_map.
    reflexivity.
Qed.

Lemma quotient_bounds (s n : Z) :
  0 <= s -> 0 <= n ->
  (0 <= inject_Z s / inject_Z n)%Q /\ (s <= n -> (inject_Z s / inject_Z n <= 1)%Q).
Proof.
  intros Hs Hn. destruct (Z.eq_dec n 0) as [->|Nn].
  - split.
    + unfold Qdiv. change (/ inject_Z 0)%Q with 0%Q. rewrite Qmult_0_r. apply Qle_refl.
    + intro Hle. assert (s = 0) by lia. subst s. unfold Qdiv.
      rewrite Qmult_0_l. discriminate.
  - assert (Hpos : (0 < inject_Z n)%Q).
    { change 0%Q with (inject_Z 0). rewrite <- Zlt_Qlt. lia. }
    split.
    + apply Qle_shift_div_l; [assumption|]. rewrite Qmult_0_l.
      change 0%Q with (inject_Z 0). rewrite <- Zle_Qle. assumption.
    + intro Hle. apply Qle_shift_div_r; [assumption|]. rewrite Qmult_1_l.
      now rewrite <- Zle_Qle.
Qed.

Lemma in_stock_rows_bounds (pig : list ProductInventoryRow) (t : Minute) :
  0 <= in_stock_rows pig t
  <= Z.of_nat (List.length (group_rows inventory_minute pig t)).
Proof.
  unfold in_stock_rows. induction (group_rows inventory_minute pig t) as [|r l IH].
  - simpl. lia.
  - cbn [map sum_Z fold_right List.length]. fold (sum_Z (map (fun r => in_stock (pi_Y r)) l)).
    assert (H01 : 0 <= in_stock (pi_Y r) <= 1).
    { unfold in_stock. destruct (pi_Y r) as [q|]; [destruct (Qle_bool 1 q)|]; lia. }
    lia.
Qed.

Definition product_minute (r : ProductInventoryRow) : Minute * Z :=
  (inventory_minute r, pi_PRODUCT r).

Lemma NoDup_group_values {K} `{Key K} {A B} (f : A -> K) (g : A -> B) (l : list A) (k : K) :
  NoDup (map (fun a => (f a, g a)) l) -> NoDup (map g (group_rows f l k)).
Proof.
  unfold group_rows. induction l as [|a l IH]; intro Hnd; [constructor|].
  cbn [map filter] in *. inversion Hnd as [|x xs Hnin Hnd']; subst.
  destruct (keqb k (f a)) eqn:E; [|now apply IH].
  cbn [map]. constructor; [|now apply IH].
  intro Hin. apply Hnin. apply in_map_iff in Hin. destruct Hin as [x [Eg Hx]].
  apply filter_In in Hx. destruct Hx as [Hx Ex].
  apply keqb_eq in E, Ex. apply in_map_iff. exists x. split; [|assumption].
  congruence.
Qed.

(** When no product has two rows at a (location, week, minute), the rows
    of that minute are no more than the distinct products of the week. *)
Lemma minute_rows_le_products (pig : list ProductInventoryRow) (t : Minute) :
  NoDup (map product_minute pig) ->
  Z.of_nat (List.length (group_rows inventory_minute pig t)) <= product_count pig t.
Proof.
  intro Hnd. unfold product_count, nunique. apply inj_le.
  rewrite <- (length_map pi_PRODUCT (group_rows inventory_minute pig t)).
  apply NoDup_incl_length.
  - exact (NoDup_group_values inventory_minute pi_PRODUCT pig t Hnd).
  - intros p Hp. apply drop_duplicates_values.
    apply in_map_iff in Hp. destruct Hp as [r [<- Hr]]. apply in_map.
    unfold group_rows in *. apply filter_In in Hr. destruct Hr as [Hr Ek].
    apply filter_In. split; [assumption|]. apply keqb_eq in Ek. apply keqb_eq.
    rewrite Ek. reflexivity.
Qed.

Lemma ratio_on_grid_value (pig : list ProductInventoryRow) (g : TimePoint) (q : Q) :
  pa_PA_RATIO (ratio_on_grid pig g) = Some q ->
  In (time_point_minute g) (map inventory_minute pig) /\
  q = (inject_Z (in_stock_rows pig (time_point_minute g))
       / inject_Z (product_count pig (time_point_minute g)))%Q.
Proof.
  unfold ratio_on_grid, availability_row. cbn [pa_PA_RATIO].
  destruct (find _ (par_data_of pig)) as [[t o]|] eqn:Ef; [|discriminate].
  cbn [snd]. intros ->. apply find_key_Some in Ef. destruct Ef as [Hin Ek].
  cbn [fst] in Ek. subst t. apply par_data_value in Hin. destruct Hin as [Ht Eo].
  split; [assumption|]. now injection Eo.
Qed.

(** X14: every PA_RATIO calc_product_availability_ratio returns is null or
    at least 0; it is at most 1 when no product has two rows of the
    product inventory grid at the same (location, week, minute), that is
    when no product is listed under two inventory curves there. *)
Theorem availability_ratio_bounds :
  forall pig tpg out,
    returned calc_product_availability_ratio (pig, tpg) = Ok out ->
    forall r q, In r (rows out) -> pa_PA_RATIO r = Some q ->
      (0 <= q)%Q /\ (NoDup (map product_minute (rows pig)) -> (q <= 1)%Q).
Proof.
  intros pig tpg out HOk r q Hr Eq.
  destruct (calc_product_availability_ratio_Ok_inv pig tpg out HOk) as [_ [_ [_ ->]]].
  cbn [rows] in Hr.
  destruct (groupby_ffill_value _ pa_PA_RATIO set_pa_PA_RATIO (fun a o => eq_refl) _ r q Hr Eq)
    as [a [Ha Ea]].
  apply sort_values_In in Ha. apply in_map_iff in Ha. destruct Ha as [g [<- _]].
  apply ratio_on_grid_value in Ea. destruct Ea as [_ ->].
  pose proof (in_stock_rows_bounds (rows pig) (time_point_minute g)) as [Hs0 Hs1].
  assert (Hn : 0 <= product_count (rows pig) (time_point_minute g))
    by (unfold product_count, nunique; lia).
  destruct (quotient_bounds _ _ Hs0 Hn) as [H0 H1]. split; [exact H0|].
  intro Hnd. apply H1.
  pose proof (minute_rows_le_products (rows pig) (time_point_minute g) Hnd). lia.
Qed.

Lemma ratio_on_grid_null (pig : list ProductInventoryRow) (g : TimePoint) :
  pa_PA_RATIO (ratio_on_grid pig g) = None <->
  ~ In (time_point_minute g) (map inventory_minute pig).
Proof.
  unfold ratio_on_grid, availability_row. cbn [pa_PA_RATIO].
  destruct (find (fun d => keqb (time_point_minute g) (fst d)) (par_data_of pig))
    as [[t o]|] eqn:Ef.
  - apply find_key_Some in Ef. destruct Ef as [Hin Ek]. cbn [fst] in Ek. subst t.
    apply par_data_value in Hin. destruct Hin as [Ht ->]. cbn [snd].
    split; [discriminate | tauto].
  - split; [|reflexivity]. intros _ Hin.
    destruct (find_key_In fst (par_data_of pig) (time_point_minute g)) as [d Ed].
    + rewrite par_data_keys. now apply group_keys_In.
    + congruence.
Qed.

(** X15: a row returned by calc_product_availability_ratio has a null
    PA_RATIO exactly when no grid minute of its location and week, at or
    before its own minute, has a row in the product inventory grid: the
    ratio is carried forward within a location and week and never
    backward. *)
Theorem availability_ratio_null_iff :
  forall pig tpg out,
    returned calc_product_availability_ratio (pig, tpg) = Ok out ->
    forall r, In r (rows out) ->
      pa_PA_RATIO r = None <->
      (forall g, In g (rows tpg) ->
         tg_LOCATION g = pa_LOCATION r -> tg_WEEK_START g = pa_WEEK_START r ->
         tg_X g <= pa_X r ->
         ~ In (time_point_minute g) (map inventory_minute (rows pig))).
Proof.
  intros pig tpg out HOk r Hr.
  destruct (calc_product_availability_ratio_Ok_inv pig tpg out HOk) as [_ [_ [_ ->]]].
  cbn [rows] in Hr. unfold groupby_ffill in Hr.
  pose proof (sort_values_sorted availability_sort_key
                (map (ratio_on_grid (rows pig)) (rows tpg))) as Hsorted.
  assert (Hjoined : forall a,
            In a (sort_values availability_sort_key
                    (map (ratio_on_grid (rows pig)) (rows tpg))) <->
            exists g, In g (rows tpg) /\ a = ratio_on_grid (rows pig) g).
  { intro a. rewrite sort_values_In, in_map_iff. split; intros [g [E Hg]]; eauto. }
  apply ffill_from_In in Hr. destruct Hr as [pre [a [post [Es ->]]]].
  rewrite Es in Hsorted, Hjoined.
  destruct (StronglySorted_middle _ _ _ _ Hsorted) as [Hpre Hpost].
  assert (Hain : In a (pre ++ a :: post)) by (apply in_or_app; right; now left).
  destruct (proj1 (Hjoined a) Hain) as [ga [Hga Ea]].
  assert (Ekeys : pa_LOCATION (fill_row pa_PA_RATIO set_pa_PA_RATIO a
                     (last_seen (state_after (fun r => (pa_LOCATION r, pa_WEEK_START r))
                                   pa_PA_RATIO [] pre) (pa_LOCATION a, pa_WEEK_START a)))
                  = tg_LOCATION ga /\
                  pa_WEEK_START (fill_row pa_PA_RATIO set_pa_PA_RATIO a
                     (last_seen (state_after (fun r => (pa_LOCATION r, pa_WEEK_START r))
                                   pa_PA_RATIO [] pre) (pa_LOCATION a, pa_WEEK_START a)))
                  = tg_WEEK_START ga /\
                  pa_X (fill_row pa_PA_RATIO set_pa_PA_RATIO a
                     (last_seen (state_after (fun r => (pa_LOCATION r, pa_WEEK_START r))
                                   pa_PA_RATIO [] pre) (pa_LOCATION a, pa_WEEK_START a)))
                  = tg_X ga).
  { unfold fill_row. rewrite Ea. destruct (pa_PA_RATIO _); repeat split. }
  destruct Ekeys as [-> [-> ->]].
  assert (Enull : pa_PA_RATIO (fill_row pa_PA_RATIO set_pa_PA_RATIO a
                     (last_seen (state_after (fun r => (pa_LOCATION r, pa_WEEK_START r))
                                   pa_PA_RATIO [] pre) (pa_LOCATION a, pa_WEEK_START a)))
                  = None <->
                  pa_PA_RATIO a = None /\
                  forall q, In q pre ->
                    (pa_LOCATION q, pa_WEEK_START q) = (pa_LOCATION a, pa_WEEK_START a) ->
                    pa_PA_RATIO q = None).
  { rewrite <- (last_seen_state_after_none (fun r => (pa_LOCATION r, pa_WEEK_START r))
                  pa_PA_RATIO pre (pa_LOCATION a, pa_WEEK_START a)).
    unfold fill_row. destruct (pa_PA_RATIO a) eqn:E; cbn [set_pa_PA_RATIO pa_PA_RATIO];
      [rewrite E|]; split; try tauto; try discriminate. }
  rewrite Enull. clear Enull. split.
  - intros [Ha Hq] g Hg El Ew Hx.
    apply ratio_on_grid_null.
    assert (Hin : In (ratio_on_grid (rows pig) g) (pre ++ a :: post)).
    { apply Hjoined. eauto. }
    apply in_app_or in Hin. destruct Hin as [Hin|[E|Hin]].
    + apply (Hq _ Hin). rewrite Ea. cbn. congruence.
    + now rewrite <- E.
    + specialize (Hpost _ Hin). unfold key_le, availability_sort_key in Hpost.
      rewrite Ea in Hpost. cbn [ratio_on_grid availability_row pa_LOCATION pa_WEEK_START
        pa_X] in Hpost. rewrite El, Ew, kleb_same_fst in Hpost. apply Z.leb_le in Hpost.
      assert (Em : time_point_minute g = time_point_minute ga).
      { unfold time_point_minute. f_equal; [congruence | lia]. }
      apply ratio_on_grid_null. rewrite Ea in Ha. apply ratio_on_grid_null in Ha.
      now rewrite Em.
  - intro Hall. split.
    + rewrite Ea. apply ratio_on_grid_null. apply Hall; [assumption | reflexivity.. | lia].
    + intros q Hq Ek.
      destruct (proj1 (Hjoined q) (in_or_app _ _ _ (or_introl Hq))) as [gq [Hgq Eq]].
      specialize (Hpre _ Hq). unfold key_le, availability_sort_key in Hpre.
      rewrite Ea, Eq in Hpre, Ek.
      cbn [ratio_on_grid availability_row pa_LOCATION pa_WEEK_START pa_X] in Hpre, Ek.
      injection Ek as El Ew. rewrite El, Ew, kleb_same_fst in Hpre. apply Z.leb_le in Hpre.
      rewrite Eq. apply ratio_on_grid_null. now apply Hall.
Qed.

(** ** The pipeline on two consumption curves of one location and week *)

Lemma and_then_Raise {A B} (r : result A) (k : A -> result B) (e : exn) :
  r = Raise e -> and_then r k = Raise e.
Proof. now intros ->. Qed.

(** X16: when transform_qos_data returns two consumption curves of the same
    location and week (and the inventory curves are accepted), the
    pipeline stops with MergeError in calc_product_availability_ratio, before
    any consumption value is interpolated. *)
Theorem qos_pipeline_shared_location_week `{Float64Ops} :
  forall qd qc inv cc,
    same_columns qos_data_columns (columns qd) ->
    same_columns qos_curves_columns (columns qc) ->
    returned transform_qos_data (qd, qc) = Ok (inv, cc) ->
    (forall c, In c (rows inv) -> accepted_sample (ic_X c) (ic_Y c)) ->
    ~ NoDup (map curve_location_week (rows cc)) ->
    qos_pipeline qd qc = Raise MergeError.
Proof.
  intros qd qc inv cc Hd Hc H1 Hai Hdup.
  destruct (transform_qos_data_Ok_inv qd qc inv cc H1) as [_ Eout].
  destruct (transform_qos_data_output_columns qd qc Hd Hc) as [Hci Hcc].
  rewrite <- Eout in Hci, Hcc. cbn [fst snd] in Hci, Hcc.
  pose proof (f_equal fst (create_product_inventory_Ok inv Hci Hai)) as H2.
  pose proof (f_equal fst (create_full_time_grid_Ok cc Hcc)) as H3.
  cbn [fst] in H2, H3.
  unfold qos_pipeline.
  rewrite (call_Ok _ _ _ H1). cbn [and_then fst snd].
  rewrite (call_Ok _ _ _ H2). cbn [and_then fst snd].
  rewrite (call_Ok _ _ _ H3). cbn [and_then fst snd].
  apply and_then_Raise, call_Raise.
  rewrite calc_product_availability_ratio_cases. cbn [columns rows].
  rewrite (proj2 (same_column_set_spec _ _) pig_columns_same),
          (proj2 (same_column_set_spec _ _) time_grid_columns_same).
  cbn [andb]. rewrite (proj2 (is_unique_false _)); [reflexivity|].
  intro Hnd. apply Hdup. now apply grid_minutes_NoDup.
Qed.

(** ** create_product_inventory: the consumption profile of a row *)

(** The columns the forward fill of [Y] leaves alone. *)
Definition besides_Y (r : ProductInventoryRow)
  : string * string * Z * Z * Z * option Z :=
  (pi_LOCATION r, pi_WEEK_START r, pi_INVENTORY_CURVE_ID r, pi_PRODUCT r, pi_X r,
   pi_CONSUMPTION_PROFILE_CURVE_ID r).

Section ConsumptionProfileFill.
Variable recs : list InventoryCurveRecord.
Hypothesis curve_ids_unique : NoDup (map ic_INVENTORY_CURVE_ID recs).
Hypothesis samples_accepted : forall c, In c recs -> accepted_sample (ic_X c) (ic_Y c).

Let by_ (r : ProductInventoryRow) : Z * Z := (pi_INVENTORY_CURVE_ID r, pi_X r).
Let sorted : list ProductInventoryRow :=
  sort_values by_ (joined_inventory_grid (exploded_inventory recs)).
Let filled : list ProductInventoryRow :=
  groupby_ffill pi_INVENTORY_CURVE_ID pi_Y set_pi_Y sorted.
(** The number the joined column holds for the id [z]. *)
Let held (z : Z) : Z := joined_int (ids_as_float (exploded_inventory recs)) z.

Lemma filled_besides_Y : map besides_Y filled = map besides_Y sorted.
Proof. unfold filled, groupby_ffill. now rewrite ffill_from_map by reflexivity. Qed.

(** A row of the table after the fill of [Y] is, besides [Y], a row of
    the join: the row of a record [c] at a minute [x], holding the
    consumption profile of [c] when [c] has a sample at [x]. *)
Lemma filled_row_inv (r : ProductInventoryRow) :
  In r filled ->
  exists c x,
    In c recs /\ 0 <= x /\
    pi_LOCATION r = ic_LOCATION c /\ pi_WEEK_START r = ic_WEEK_START c /\
    pi_INVENTORY_CURVE_ID r = ic_INVENTORY_CURVE_ID c /\
    pi_PRODUCT r = ic_PRODUCT c /\ pi_X r = x /\
    (pi_CONSUMPTION_PROFILE_CURVE_ID r = None \/
     pi_CONSUMPTION_PROFILE_CURVE_ID r = Some (held (ic_CONSUMPTION_PROFILE_CURVE_ID c))) /\
    (In x (ic_X c) ->
     pi_CONSUMPTION_PROFILE_CURVE_ID r = Some (held (ic_CONSUMPTION_PROFILE_CURVE_ID c))).
Proof.
  intro Hr. apply (in_map besides_Y) in Hr. rewrite filled_besides_Y in Hr.
  apply in_map_iff in Hr. destruct Hr as [a [Ea Ha]].
  apply sort_values_In in Ha.
  destruct (joined_row_inv recs curve_ids_unique samples_accepted a Ha)
    as [c [x [o [Hc [Hx [-> Ho]]]]]].
  unfold besides_Y in Ea. injection Ea as El Ew Ei Ep EX Ecp.
  exists c, x. cbn in El, Ew, Ei, Ep, EX, Ecp.
  repeat split; try congruence.
  - rewrite <- Ecp. destruct o as [s|]; [|now left]. right.
    destruct Ho as [v [_ ->]]. reflexivity.
  - intro Hin. rewrite <- Ecp. destruct o as [s|].
    + destruct Ho as [v [_ ->]]. reflexivity.
    + exfalso. destruct (samples_accepted c Hc) as [_ Hlen].
      destruct (in_combine_exists _ _ _ Hlen Hin) as [v Hv]. exact (Ho v Hv).
Qed.

Lemma filled_sorted : StronglySorted (key_le by_) filled.
Proof.
  apply (sorted_by_keys by_ by_ sorted); [|apply sort_values_sorted].
  unfold filled, groupby_ffill. now rewrite ffill_from_map by reflexivity.
Qed.

(** The row of minute 0 of the record of a row. *)
Lemma filled_minute_0 (c : InventoryCurveRecord) :
  In c recs ->
  exists q, In q filled /\ by_ q = (ic_INVENTORY_CURVE_ID c, 0).
Proof.
  intro Hc. destruct (samples_accepted c Hc) as [[H0 _] _].
  destruct (joined_row_intro recs samples_accepted c c 0 Hc Hc eq_refl eq_refl H0)
    as [o Hq].
  assert (Hin : In (by_ (grid_row_of (ids_as_float (exploded_inventory recs)) c 0 o))
                   (map by_ filled)).
  { unfold filled, groupby_ffill. rewrite ffill_from_map by reflexivity.
    apply in_map. now apply sort_values_In. }
  apply in_map_iff in Hin. destruct Hin as [q [Eq Hq']]. exists q. split; [assumption|].
  rewrite Eq. reflexivity.
Qed.

Lemma profile_fill (pre post : list ProductInventoryRow) (a : ProductInventoryRow) :
  filled = pre ++ a :: post ->
  exists c',
    In c' recs /\
    ic_LOCATION c' = pi_LOCATION a /\ ic_WEEK_START c' = pi_WEEK_START a /\
    pi_CONSUMPTION_PROFILE_CURVE_ID
      (fill_row pi_CONSUMPTION_PROFILE_CURVE_ID set_pi_CONSUMPTION_PROFILE_CURVE_ID a
         (last_seen (state_after (fun r => (pi_LOCATION r, pi_WEEK_START r))
                       pi_CONSUMPTION_PROFILE_CURVE_ID [] pre)
            (pi_LOCATION a, pi_WEEK_START a)))
    = Some (held (ic_CONSUMPTION_PROFILE_CURVE_ID c')).
Proof.
  intro Ef. pose proof filled_sorted as Hs. rewrite Ef in Hs.
  destruct (StronglySorted_middle _ _ _ _ Hs) as [_ Hpost].
  assert (Hin : forall x, In x (pre ++ a :: post) -> In x filled) by (now rewrite Ef).
  assert (Ha : In a filled) by (apply Hin, in_or_app; right; now left).
  destruct (filled_row_inv a Ha) as [c [x [Hc [Hx [El [Ew [Ei [_ [EX [Hcp Hsampled]]]]]]]]]].
  unfold fill_row.
  destruct (pi_CONSUMPTION_PROFILE_CURVE_ID a) as [id|] eqn:Ea.
  - exists c. rewrite Ea. destruct Hcp as [Hcp|Hcp]; [discriminate|].
    repeat split; congruence.
  - cbn [set_pi_CONSUMPTION_PROFILE_CURVE_ID pi_CONSUMPTION_PROFILE_CURVE_ID].
    destruct (last_seen _ (pi_LOCATION a, pi_WEEK_START a)) as [id|] eqn:Els.
    + apply last_seen_state_after_inv in Els.
      destruct Els as [Els|[q [Hq [Ek Eq]]]]; [discriminate|].
      assert (Hq' : In q filled) by (apply Hin, in_or_app; now left).
      destruct (filled_row_inv q Hq')
        as [c' [x' [Hc' [_ [El' [Ew' [_ [_ [_ [[Hn|Hs'] _]]]]]]]]]]; [congruence|].
      exists c'. injection Ek as Ekl Ekw. repeat split; congruence.
    + exfalso.
      rewrite (last_seen_state_after_none (fun r => (pi_LOCATION r, pi_WEEK_START r))
                 pi_CONSUMPTION_PROFILE_CURVE_ID) in Els.
      destruct (filled_minute_0 c Hc) as [q [Hq Eq]].
      destruct (filled_row_inv q Hq)
        as [c0 [x0 [Hc0 [_ [El0 [Ew0 [Ei0 [_ [EX0 [_ Hs0]]]]]]]]]].
      pose proof (f_equal fst Eq) as Eqi. pose proof (f_equal snd Eq) as Eqx.
      cbn [fst snd] in Eqi, Eqx. unfold by_ in Eqi, Eqx. cbn [fst snd] in Eqi, Eqx.
      assert (c0 = c).
      { apply (record_of_curve_id recs curve_ids_unique); [assumption..|congruence]. }
      subst c0.
      assert (Hq0 : pi_CONSUMPTION_PROFILE_CURVE_ID q
                    = Some (held (ic_CONSUMPTION_PROFILE_CURVE_ID c))).
      { apply Hs0. rewrite <- EX0, Eqx. apply (samples_accepted c Hc). }
      rewrite Ef in Hq. apply in_app_or in Hq. destruct Hq as [Hq|[E|Hq]].
      * rewrite (Els q Hq) in Hq0; [discriminate | congruence].
      * subst q. congruence.
      * specialize (Hpost q Hq). unfold key_le, by_ in Hpost.
        rewrite Eqi, Eqx, Ei, kleb_same_fst in Hpost. apply Z.leb_le in Hpost.
        assert (Hx0 : x = 0) by lia.
        assert (Hin0 : In x (ic_X c)) by (rewrite Hx0; apply (samples_accepted c Hc)).
        specialize (Hsampled Hin0). congruence.
Qed.

End ConsumptionProfileFill.

(** An integer of at most 53 bits is a float64. *)
Lemma float64_of_int_exact (z : Z) : Z.abs z <= 2 ^ 53 -> float64_of_int z = z.
Proof.
  intro Hz. unfold float64_of_int.
  destruct (Z.ltb (Z.abs z) (2 ^ 53)) eqn:E; [reflexivity|].
  apply Z.ltb_ge in E. assert (Ea : Z.abs z = 2 ^ 53) by lia.
  destruct (Z.abs_eq_or_opp z) as [Ez|Ez]; rewrite Ez in Ea.
  - rewrite Ea. reflexivity.
  - assert (Ez' : z = - 2 ^ 53) by lia. rewrite Ez'. reflexivity.
Qed.

Lemma joined_int_cases (as_float : bool) (z : Z) :
  (joined_int as_float z = z \/ joined_int as_float z = float64_of_int z) /\
  (Z.abs z <= 2 ^ 53 -> joined_int as_float z = z).
Proof.
  unfold joined_int. destruct as_float; split; auto.
  apply float64_of_int_exact.
Qed.

(** X17: for inventory curve records with distinct inventory_curve_ids,
    every row create_product_inventory returns carries the location,
    product and week of the record of its inventory curve, and a
    CONSUMPTION_PROFILE_CURVE_ID that is never null: it holds the profile
    id of a record of the same location and week (the fill runs over the
    location and week, not over the curve), as an int64 or converted to
    float64; an id of at most 2^53 in absolute value is held exactly. *)
Theorem inventory_grid_rows_of_records :
  forall inv out,
    NoDup (map ic_INVENTORY_CURVE_ID (rows inv)) ->
    returned create_product_inventory inv = Ok out ->
    forall r, In r (rows out) ->
      (exists c, In c (rows inv) /\
         ic_INVENTORY_CURVE_ID c = pi_INVENTORY_CURVE_ID r /\
         ic_LOCATION c = pi_LOCATION r /\ ic_PRODUCT c = pi_PRODUCT r /\
         ic_WEEK_START c = pi_WEEK_START r /\ 0 <= pi_X r) /\
      (exists c', In c' (rows inv) /\
         ic_LOCATION c' = pi_LOCATION r /\ ic_WEEK_START c' = pi_WEEK_START r /\
         (pi_CONSUMPTION_PROFILE_CURVE_ID r = Some (ic_CONSUMPTION_PROFILE_CURVE_ID c') \/
          pi_CONSUMPTION_PROFILE_CURVE_ID r
          = Some (float64_of_int (ic_CONSUMPTION_PROFILE_CURVE_ID c'))) /\
         (Z.abs (ic_CONSUMPTION_PROFILE_CURVE_ID c') <= 2 ^ 53 ->
          pi_CONSUMPTION_PROFILE_CURVE_ID r = Some (ic_CONSUMPTION_PROFILE_CURVE_ID c'))).
Proof.
  intros inv out Hids HOk r Hr.
  destruct (create_product_inventory_Ok_inv inv out HOk) as [_ [Hacc Erows]].
  rewrite Erows in Hr. unfold densify_inventory, groupby_ffill in Hr.
  apply ffill_from_In in Hr. destruct Hr as [pre [a [post [Ef ->]]]].
  assert (Ha : In a (groupby_ffill pi_INVENTORY_CURVE_ID pi_Y set_pi_Y
                       (sort_values (fun r => (pi_INVENTORY_CURVE_ID r, pi_X r))
                          (joined_inventory_grid (exploded_inventory (rows inv)))))).
  { unfold groupby_ffill. rewrite Ef. apply in_or_app. right. now left. }
  assert (Ekeep : forall o,
            besides_Y (fill_row pi_CONSUMPTION_PROFILE_CURVE_ID
                         set_pi_CONSUMPTION_PROFILE_CURVE_ID a o)
            = (pi_LOCATION a, pi_WEEK_START a, pi_INVENTORY_CURVE_ID a, pi_PRODUCT a,
               pi_X a,
               pi_CONSUMPTION_PROFILE_CURVE_ID
                 (fill_row pi_CONSUMPTION_PROFILE_CURVE_ID
                    set_pi_CONSUMPTION_PROFILE_CURVE_ID a o))).
  { intro o. unfold fill_row. destruct (pi_CONSUMPTION_PROFILE_CURVE_ID a); reflexivity. }
  set (o := last_seen _ _) in *. specialize (Ekeep o).
  unfold besides_Y in Ekeep. injection Ekeep as El Ew Ei Ep EX.
  split.
  - destruct (filled_row_inv (rows inv) Hids Hacc a Ha)
      as [c [x [Hc [Hx [El' [Ew' [Ei' [Ep' [EX' _]]]]]]]]].
    exists c. repeat split; try congruence; lia.
  - destruct (profile_fill (rows inv) Hids Hacc pre post a Ef) as [c' [Hc' [El' [Ew' Ecp]]]].
    destruct (joined_int_cases (ids_as_float (exploded_inventory (rows inv)))
                (ic_CONSUMPTION_PROFILE_CURVE_ID c')) as [Hcases Hexact].
    exists c'. split; [assumption|]. split; [congruence|]. split; [congruence|].
    subst o. rewrite Ecp. split.
    + destruct Hcases as [E|E]; rewrite E; auto.
    + intro Hsmall. now rewrite (Hexact Hsmall).
Qed.

(** ** A consumption curve with a repeated minute *)

Lemma repeated_element (l : list Z) :
  ~ NoDup l -> exists m, (2 <= List.length (filter (Z.eqb m) l))%nat.
Proof.
  induction l as [|a l IH]; intro N; [exfalso; apply N; constructor|].
  destruct (in_dec Z.eq_dec a l) as [Hin|Hnin].
  - exists a. cbn [filter]. rewrite Z.eqb_refl. cbn [List.length].
    assert (Hf : In a (filter (Z.eqb a) l)) by (apply filter_In; split; [assumption | apply Z.eqb_refl]).
    destruct (filter (Z.eqb a) l); [destruct Hf | simpl; lia].
  - destruct IH as [m Hm]; [intro Hnd; apply N; now constructor|].
    exists m. cbn [filter]. destruct (Z.eqb m a); cbn [List.length]; lia.
Qed.

Lemma NoDup_flat_map_block {A B C} (f : B -> C) (h : A -> list B) (l : list A) (a : A) :
  NoDup (map f (flat_map h l)) -> In a l -> NoDup (map f (h a)).
Proof.
  intros Hnd Ha. apply in_split in Ha. destruct Ha as [l1 [l2 ->]].
  rewrite flat_map_app in Hnd. cbn [flat_map] in Hnd. rewrite !map_app in Hnd.
  apply NoDup_app_remove_l in Hnd. now apply NoDup_app_remove_r in Hnd.
Qed.

Lemma filter_length_flat_map {A B} (p : B -> bool) (h : A -> list B) (l : list A) (a : A) :
  In a l ->
  (List.length (filter p (h a)) <= List.length (filter p (flat_map h l)))%nat.
Proof.
  intro Ha. apply in_split in Ha. destruct Ha as [l1 [l2 ->]].
  rewrite flat_map_app. cbn [flat_map]. rewrite !filter_app, !length_app. lia.
Qed.

Lemma filter_map_length {A B} (p : B -> bool) (f : A -> B) (l : list A) :
  List.length (filter p (map f l)) = List.length (filter (fun a => p (f a)) l).
Proof.
  induction l as [|a l IH]; [reflexivity|]. cbn [map filter].
  destruct (p (f a)); cbn [List.length]; now rewrite IH.
Qed.

(** The grid row of a repeated minute meets as many samples as the
    minute has occurrences. *)
Lemma repeated_minute_matches (recs : list ConsumptionCurveRecord)
    (c : ConsumptionCurveRecord) (m : Z) :
  In c recs -> List.length (cc_X c) = List.length (cc_Y c) ->
  (List.length (filter (Z.eqb m) (cc_X c))
   <= List.length (matches time_point_key consumption_sample_key
                     (exploded_consumption recs) (grid_point c m)))%nat.
Proof.
  intros Hc Hlen. unfold matches, exploded_consumption.
  etransitivity; [|apply (filter_length_flat_map _ _ recs c Hc)].
  cbv beta. rewrite filter_map_length.
  rewrite <- (map_fst_combine (cc_X c) (cc_Y c) Hlen) at 1.
  rewrite filter_map_length. unfold consumption_samples.
  apply Nat.eq_le_incl. f_equal. apply filter_ext. intros [x y].
  unfold time_point_key, consumption_sample_key, grid_point, consumption_sample.
  cbn [fst snd tg_LOCATION tg_CONSUMPTION_PROFILE_CURVE_ID tg_WEEK_START tg_X
       cs_LOCATION cs_CONSUMPTION_PROFILE_CURVE_ID cs_WEEK_START cs_X].
  symmetry. destruct (Z.eqb m x) eqn:E.
  - apply Z.eqb_eq in E. subst x. apply keqb_refl.
  - apply keqb_neq. intro Ek. apply Z.eqb_neq in E. congruence.
Qed.

Lemma interpolate_on_grid_row_keys `{Float64Ops}
    (grid : list TimePoint) (ex : list ConsumptionSample) :
  Permutation
    (map (fun p => time_point_key (fst p))
       (merge_left time_point_key consumption_sample_key grid ex))
    (map interp_key (interpolate_on_grid grid ex)).
Proof.
  unfold interpolate_on_grid.
  set (sorted := sort_values _ (merge_left time_point_key consumption_sample_key grid ex)).
  rewrite map_map.
  rewrite (map_ext _ (fun x : TimePoint * option ConsumptionSample * option Q =>
                        time_point_key (fst (fst x)))) by reflexivity.
  rewrite <- (map_map fst (fun p : TimePoint * option ConsumptionSample =>
                             time_point_key (fst p))
                (combine sorted (interpolate_linear (map joined_Y sorted)))).
  rewrite map_fst_combine_interp.
  apply Permutation_map, sort_values_perm.
Qed.

Lemma repeated_key_not_NoDup {A B} (f : A -> B) (l : list A) (b : B) :
  (2 <= List.length l)%nat -> (forall a, In a l -> f a = b) -> ~ NoDup (map f l).
Proof.
  intros Hlen Hall Hnd. destruct l as [|x [|y l]]; simpl in Hlen; try lia.
  cbn [map] in Hnd. inversion Hnd as [|k ks Hnin _]; subst. apply Hnin.
  rewrite (Hall x), <- (Hall y) by (simpl; auto). now left.
Qed.

(** X18: a consumption curve that lists a minute twice gets two rows for
    that minute out of interpolate_consumption_curves, and
    calc_quality_of_service then raises MergeError on its one-to-one
    check, whatever the product availability table. *)
Theorem repeated_consumption_minute_raises_MergeError `{Float64Ops} :
  forall cc tpg cci par,
    returned create_full_time_grid cc = Ok tpg ->
    returned interpolate_consumption_curves (cc, tpg) = Ok cci ->
    (exists c, In c (rows cc) /\ ~ NoDup (cc_X c)) ->
    same_columns availability_columns (columns par) ->
    returned calc_quality_of_service (cci, par) = Raise MergeError.
Proof.
  intros cc tpg cci par Hgrid HOk [c [Hc Hrep]] Hp.
  pose proof (create_full_time_grid_Ok_inv cc tpg Hgrid) as Egrid.
  destruct (interpolate_consumption_curves_Ok_inv cc tpg cci HOk) as [Hacc Erows].
  assert (Ecols : same_columns interp_columns (columns cci)).
  { unfold returned in HOk. rewrite (interpolate_consumption_curves_Ok cc tpg Hacc) in HOk.
    cbn [fst] in HOk. injection HOk as <-. cbn [columns].
    destruct (same_column_set consumption_columns (columns cc)) eqn:Ec.
    - apply same_column_set_spec in Ec. unfold returned in Hgrid.
      rewrite (create_full_time_grid_Ok cc Ec) in Hgrid. cbn [fst] in Hgrid.
      injection Hgrid as <-. exact interp_columns_same.
    - unfold returned, create_full_time_grid, bind, get_args, check_columns in Hgrid.
      rewrite Ec in Hgrid. discriminate. }
  rewrite calc_quality_of_service_cases.
  rewrite (proj2 (same_column_set_spec _ _) Ecols), (proj2 (same_column_set_spec _ _) Hp).
  cbn [andb].
  rewrite (proj2 (is_unique_false (map interp_key (rows cci)))); [reflexivity|].
  intro Hnd. rewrite Erows, Egrid in Hnd.
  apply (Permutation_NoDup (Permutation_sym (interpolate_on_grid_row_keys _ _))) in Hnd.
  destruct (repeated_element _ Hrep) as [m Hm].
  destruct (Hacc c Hc) as [[_ [_ Hrange]] Hlen].
  assert (Hmin : In m (cc_X c)).
  { destruct (filter (Z.eqb m) (cc_X c)) as [|x t] eqn:Ef; [simpl in Hm; lia|].
    assert (Hx : In x (filter (Z.eqb m) (cc_X c))) by (rewrite Ef; now left).
    apply filter_In in Hx. destruct Hx as [Hx Ex]. apply Z.eqb_eq in Ex. now subst. }
  assert (Hg : In (grid_point c m) (flat_map grid_rows_of (rows cc))).
  { apply in_flat_map. exists c. split; [assumption|].
    apply (in_map (grid_point c)), in_time_range. specialize (Hrange m Hmin). lia. }
  unfold merge_left in Hnd.
  apply (NoDup_flat_map_block _ _ _ _ Hnd) in Hg.
  pose proof (repeated_minute_matches (rows cc) c m Hc Hlen) as Hmatches.
  fold (exploded_consumption (rows cc)) in Hg.
  destruct (matches time_point_key consumption_sample_key
              (exploded_consumption (rows cc)) (grid_point c m)) as [|s0 ms] eqn:Em;
    [simpl in Hmatches; lia|].
  revert Hg. apply (repeated_key_not_NoDup _ _ (time_point_key (grid_point c m))).
  - rewrite length_map. lia.
  - intros a Ha. apply in_map_iff in Ha. destruct Ha as [s [<- _]]. reflexivity.
Qed.

(** ** qos_api.py: what the endpoints answer *)

Definition has_value (key value : string) (i : ApiRow) : bool :=
  match row_field key i with
  | Ok v => String.eqb v value
  | Raise _ => false
  end.

Definition has_field (key : string) (i : ApiRow) : Prop := exists v, row_field key i = Ok v.

Lemma field_cases (key : string) (i : ApiRow) :
  has_field key i \/ row_field key i = Raise KeyError.
Proof.
  unfold has_field. induction i as [|[k v] t IH]; simpl; [now right|].
  destruct (String.eqb k key); [left; now exists v | exact IH].
Qed.

Lemma select_Ok (key value : string) (data : list ApiRow) :
  (forall i, In i data -> has_field key i) ->
  select key value data = Ok (filter (has_value key value) data).
Proof.
  induction data as [|i t IH]; intro Hall; [reflexivity|].
  cbn [select filter]. destruct (Hall i (or_introl eq_refl)) as [v Ev].
  unfold has_value at 1. rewrite Ev, IH by (intros j Hj; apply Hall; now right).
  reflexivity.
Qed.

Lemma select_Raise (key value : string) (data : list ApiRow) (i : ApiRow) :
  In i data -> ~ has_field key i -> select key value data = Raise KeyError.
Proof.
  induction data as [|j t IH]; intros Hin Hno; [destruct Hin|].
  cbn [select]. destruct (field_cases key j) as [[v Ev]|Ev]; rewrite Ev; [|reflexivity].
  destruct Hin as [->|Hin]; [exfalso; apply Hno; now exists v|].
  now rewrite (IH Hin Hno).
Qed.

Lemma select_Ok_inv (key value : string) (data l : list ApiRow) :
  select key value data = Ok l ->
  (forall i, In i data -> has_field key i) /\ l = filter (has_value key value) data.
Proof.
  intro E.
  assert (Hall : forall i, In i data -> has_field key i).
  { intros i Hi. destruct (field_cases key i) as [H|H]; [assumption|].
    rewrite (select_Raise key value data i Hi) in E; [discriminate|].
    intros [v Ev]. congruence. }
  split; [assumption|]. rewrite (select_Ok key value data Hall) in E. now injection E.
Qed.

(** X19: the endpoint /qos/location/<location> answers with exactly the
    rows of the output file whose LOCATION is the given text, in file
    order, when every row has a LOCATION field; it fails with KeyError as
    soon as one row has none, whatever the location asked for. *)
Theorem get_qos_by_location_rows :
  forall qos_data location,
    ((forall i, In i qos_data -> has_field "LOCATION" i) ->
     get_qos_by_location qos_data location
     = Ok (filter (has_value "LOCATION" location) qos_data)) /\
    ((exists i, In i qos_data /\ ~ has_field "LOCATION" i) ->
     get_qos_by_location qos_data location = Raise KeyError).
Proof.
  intros qos_data location. unfold get_qos_by_location. split.
  - apply select_Ok.
  - intros [i [Hi Hno]]. exact (select_Raise _ _ _ i Hi Hno).
Qed.

(** X20: whenever the endpoints /qos/location/<location> and
    /qos/week/<week_start> both answer, /qos/location/<location>/<week_start>
    answers with the rows common to both answers, in file order; it is
    what filtering the answer of either by the other criterion gives. *)
Theorem get_qos_by_location_and_date_rows :
  forall qos_data location week_start by_location by_date,
    get_qos_by_location qos_data location = Ok by_location ->
    get_qos_by_date qos_data week_start = Ok by_date ->
    get_qos_by_location_and_date qos_data location week_start
    = Ok (filter (has_value "WEEK_START" week_start) by_location) /\
    filter (has_value "WEEK_START" week_start) by_location
    = filter (has_value "LOCATION" location) by_date /\
    (forall i, In i (filter (has_value "WEEK_START" week_start) by_location) <->
               In i by_location /\ In i by_date).
Proof.
  intros qos_data location week_start by_location by_date Hl Hd.
  unfold get_qos_by_location, get_qos_by_date, get_qos_by_location_and_date in *.
  rewrite Hl.
  apply select_Ok_inv in Hl, Hd. destruct Hl as [Hfl ->], Hd as [Hfd ->].
  split; [|split].
  - apply select_Ok. intros i Hi. apply filter_In in Hi. apply Hfd, Hi.
  - induction qos_data as [|i t IH]; [reflexivity|].
    pose proof (IH (fun j Hj => Hfl j (or_intror Hj)) (fun j Hj => Hfd j (or_intror Hj)))
      as E.
    cbn [filter].
    destruct (has_value "LOCATION" location i) eqn:E1,
             (has_value "WEEK_START" week_start i) eqn:E2; cbn [filter];
      rewrite ?E1, ?E2, E; reflexivity.
  - intro i. rewrite !filter_In. tauto.
Qed.

(** X21: for a location none of whose rows is in the file,
    /qos/location/<location>/<week_start> answers with the empty list even
    when the rows have no WEEK_START field, where /qos/week/<week_start>
    fails with KeyError. *)
Theorem get_qos_by_location_and_date_unknown_location :
  forall qos_data location week_start,
    (forall i, In i qos_data -> has_field "LOCATION" i) ->
    (forall i, In i qos_data -> has_value "LOCATION" location i = false) ->
    get_qos_by_location_and_date qos_data location week_start = Ok [] /\
    ((exists i, In i qos_data /\ ~ has_field "WEEK_START" i) ->
     get_qos_by_date qos_data week_start = Raise KeyError).
Proof.
  intros qos_data location week_start Hall Hnone. split.
  - unfold get_qos_by_location_and_date. rewrite (select_Ok _ _ _ Hall).
    assert (E : filter (has_value "LOCATION" location) qos_data = []).
    { induction qos_data as [|i t IH]; [reflexivity|]. cbn [filter].
      rewrite (Hnone i (or_introl eq_refl)). apply IH; intros j Hj;
        [apply Hall | apply Hnone]; now right. }
    rewrite E. reflexivity.
  - intros [i [Hi Hno]]. exact (select_Raise _ _ _ i Hi Hno).
Qed.

(** ** Columns handed to the later stages *)

(** X22: for input tables with the columns of the task, the two tables
    transform_qos_data returns have exactly the columns that
    create_product_inventory and create_full_time_grid require: their
    column checks pass. *)
Theorem transform_qos_data_columns :
  forall qd qc inv cc,
    same_columns qos_data_columns (columns qd) ->
    same_columns qos_curves_columns (columns qc) ->
    returned transform_qos_data (qd, qc) = Ok (inv, cc) ->
    same_columns inventory_columns (columns inv) /\
    same_columns consumption_columns (columns cc).
Proof.
  intros qd qc inv cc Hd Hc HOk.
  destruct (transform_qos_data_Ok_inv qd qc inv cc HOk) as [_ Eout].
  pose proof (transform_qos_data_output_columns qd qc Hd Hc) as H.
  rewrite <- Eout in H. exact H.
Qed.

(** ** Examples *)

Ltac accepted_samples :=
  (split; [|reflexivity]); (split; [simpl; tauto|]); (split; [simpl; tauto|]);
  let y := fresh "y" in let H := fresh "H" in
  intros y H; simpl in H; repeat (destruct H as [<-|H]; [lia|]); destruct H.

Lemma std_columns_qos_data : same_columns qos_data_columns qos_data_columns.
Proof. intro c. tauto. Qed.

Lemma std_columns_qos_curves : same_columns qos_curves_columns qos_curves_columns.
Proof. intro c. tauto. Qed.

Lemma transform_qos_data_columns_witness :
  same_columns inventory_columns (columns inventory_two_curves) /\
  same_columns consumption_columns (columns consumption_flat).
Proof.
  apply (transform_qos_data_columns qos_data_two_curves qos_curves_two_curves).
  - exact std_columns_qos_data.
  - exact std_columns_qos_curves.
  - vm_compute. reflexivity.
Defined.

(** Three minutes of location A in one week, and a grid that lists
    minute 0 twice. *)
Definition some_minutes : DataFrame TimePoint :=
  {| columns := time_grid_columns;
     rows := [ grid_point flat_curve 0; grid_point flat_curve 2500;
               grid_point flat_curve 5000 ] |}.

Definition repeated_minute_grid : DataFrame TimePoint :=
  {| columns := time_grid_columns;
     rows := [ grid_point flat_curve 0; grid_point flat_curve 0 ] |}.

Lemma calc_product_availability_ratio_merge_check_witness :
  returned calc_product_availability_ratio (product_inventory_scenario, repeated_minute_grid)
  = Raise MergeError.
Proof.
  apply (calc_product_availability_ratio_merge_check
           product_inventory_scenario repeated_minute_grid).
  - exact pig_columns_same.
  - exact time_grid_columns_same.
  - apply is_unique_false. reflexivity.
Defined.

Lemma shared_location_week_raises_MergeError_witness :
  returned calc_product_availability_ratio
    (product_inventory_scenario,
     {| columns := time_grid_columns;
        rows := flat_map grid_rows_of (rows shared_week_table) |})
  = Raise MergeError.
Proof.
  apply (shared_location_week_raises_MergeError shared_week_table).
  - exact pig_columns_same.
  - unfold returned.
    now rewrite (create_full_time_grid_Ok shared_week_table consumption_columns_same).
  - apply is_unique_false. reflexivity.
Defined.

Lemma calc_product_availability_ratio_rows_witness :
  exists out,
    returned calc_product_availability_ratio (product_inventory_scenario, some_minutes)
    = Ok out /\
    columns out = columns some_minutes ++ ["PA_RATIO"] /\
    same_columns availability_columns (columns out) /\
    Permutation (map time_point_key (rows some_minutes)) (map availability_key (rows out)) /\
    StronglySorted (key_le availability_sort_key) (rows out).
Proof.
  assert (HOk := calc_product_availability_ratio_Ok product_inventory_scenario some_minutes
                   pig_columns_same time_grid_columns_same).
  eexists. split; [apply HOk; apply is_unique_NoDup; reflexivity|].
  apply (calc_product_availability_ratio_rows product_inventory_scenario some_minutes).
  apply HOk. apply is_unique_NoDup. reflexivity.
Defined.

Definition repeated_availability : DataFrame AvailabilityRow :=
  {| columns := availability_columns;
     rows := rows two_minutes_availability ++ rows two_minutes_availability |}.

Definition no_availability : DataFrame AvailabilityRow :=
  {| columns := availability_columns; rows := [] |}.

Lemma interp_columns_std : same_columns interp_columns interp_columns.
Proof. intro c. tauto. Qed.

Lemma calc_quality_of_service_merge_check_witness :
  returned calc_quality_of_service (two_minutes_interp, repeated_availability)
  = Raise MergeError.
Proof.
  apply (calc_quality_of_service_merge_check two_minutes_interp repeated_availability).
  - exact interp_columns_std.
  - exact availability_columns_same.
  - intros [_ Hnd]. apply is_unique_NoDup in Hnd. discriminate Hnd.
Defined.

Lemma two_minutes_without_availability :
  returned calc_quality_of_service (two_minutes_interp, no_availability)
  = Ok {| columns := ["QOS"];
          rows := [ {| qs_LOCATION := "A"; qs_WEEK_START := "2023-06-12";
                       qs_QOS := 0 |} ] |}.
Proof. vm_compute. reflexivity. Qed.

Lemma quality_of_service_without_data_is_zero_witness :
  returned calc_quality_of_service (two_minutes_interp, no_availability)
  = Ok {| columns := ["QOS"];
          rows := [ {| qs_LOCATION := "A"; qs_WEEK_START := "2023-06-12";
                       qs_QOS := 0 |} ] |} /\
  qs_QOS {| qs_LOCATION := "A"; qs_WEEK_START := "2023-06-12"; qs_QOS := 0 |} = 0%Q.
Proof.
  split; [exact two_minutes_without_availability|].
  apply (quality_of_service_without_data_is_zero two_minutes_interp no_availability _
           two_minutes_without_availability).
  - now left.
  - intros c _ _. now left.
Defined.

(** Three grid minutes of the ramp curve. *)
Definition ramp_minutes : DataFrame TimePoint :=
  {| columns := time_grid_columns;
     rows := [ grid_point ramp_curve 5000; grid_point ramp_curve 0;
               grid_point ramp_curve 2500 ] |}.

Lemma ramp_table_accepted :
  forall c, In c (rows ramp_table) -> accepted_sample (cc_X c) (cc_Y c).
Proof. intros c [<-|[]]. exact ramp_curve_accepted. Qed.

Lemma interpolate_consumption_curves_rows_witness :
  exists out,
    returned interpolate_consumption_curves (ramp_table, ramp_minutes) = Ok out /\
    Permutation (map time_point_key (rows ramp_minutes)) (map interp_key (rows out)) /\
    StronglySorted (key_le interp_sort_key) (rows out).
Proof.
  assert (HOk := f_equal fst
                   (interpolate_consumption_curves_Ok ramp_table ramp_minutes
                      ramp_table_accepted)).
  cbn [fst] in HOk. eexists. split; [exact HOk|].
  apply (interpolate_consumption_curves_rows ramp_table ramp_minutes).
  - apply is_unique_NoDup. reflexivity.
  - intros c [<-|[]]. apply is_unique_NoDup. reflexivity.
  - exact HOk.
Defined.

Lemma interpolation_leaves_no_null_witness :
  exists tpg out,
    returned create_full_time_grid ramp_table = Ok tpg /\
    returned interpolate_consumption_curves (ramp_table, tpg) = Ok out /\
    forall r, In r (rows out) -> ci_CONSUMPTION_Y r <> None.
Proof.
  assert (Hgrid : returned create_full_time_grid ramp_table
                  = Ok {| columns := time_grid_columns;
                          rows := flat_map grid_rows_of (rows ramp_table) |}).
  { unfold returned.
    now rewrite (create_full_time_grid_Ok ramp_table consumption_columns_same). }
  assert (HOk := f_equal fst
                   (interpolate_consumption_curves_Ok ramp_table
                      {| columns := time_grid_columns;
                         rows := flat_map grid_rows_of (rows ramp_table) |}
                      ramp_table_accepted)).
  cbn [fst] in HOk. eexists. eexists. split; [exact Hgrid|]. split; [exact HOk|].
  exact (interpolation_leaves_no_null ramp_table _ _ Hgrid HOk).
Defined.

Lemma raw_tables_one_to_one : one_to_one_curves raw_qos_data raw_qos_curves.
Proof. repeat split; apply is_unique_NoDup; reflexivity. Qed.

Lemma transform_qos_data_returns_iff_witness :
  returned transform_qos_data (raw_qos_data, raw_qos_curves)
  = Ok (transform_qos_data_output raw_qos_data raw_qos_curves).
Proof.
  apply (transform_qos_data_returns_iff raw_qos_data raw_qos_curves).
  - simpl. tauto.
  - exact raw_tables_one_to_one.
Defined.

(** One consumption profile named at two locations; one inventory curve
    named for two products. *)
Definition qos_data_shared_profile : DataFrame QosDataRow :=
  {| columns := qos_data_columns;
     rows := [ {| qd_LOCATION := "A"; qd_PRODUCT := 1; qd_INVENTORY_CURVE_ID := 11;
                  qd_CONSUMPTION_PROFILE_CURVE_ID := 100;
                  qd_DATE := Some "2023-06-12" |};
               {| qd_LOCATION := "B"; qd_PRODUCT := 1; qd_INVENTORY_CURVE_ID := 12;
                  qd_CONSUMPTION_PROFILE_CURVE_ID := 100;
                  qd_DATE := Some "2023-06-12" |} ] |}.

Definition qos_data_shared_inventory : DataFrame QosDataRow :=
  {| columns := qos_data_columns;
     rows := [ {| qd_LOCATION := "A"; qd_PRODUCT := 1; qd_INVENTORY_CURVE_ID := 11;
                  qd_CONSUMPTION_PROFILE_CURVE_ID := 100;
                  qd_DATE := Some "2023-06-12" |};
               {| qd_LOCATION := "A"; qd_PRODUCT := 2; qd_INVENTORY_CURVE_ID := 11;
                  qd_CONSUMPTION_PROFILE_CURVE_ID := 100;
                  qd_DATE := Some "2023-06-12" |} ] |}.

Lemma shared_consumption_profile_raises_MergeError_witness :
  returned transform_qos_data (qos_data_shared_profile, raw_qos_curves) = Raise MergeError.
Proof.
  apply (shared_consumption_profile_raises_MergeError
           qos_data_shared_profile raw_qos_curves
           {| qd_LOCATION := "A"; qd_PRODUCT := 1; qd_INVENTORY_CURVE_ID := 11;
              qd_CONSUMPTION_PROFILE_CURVE_ID := 100; qd_DATE := Some "2023-06-12" |}
           {| qd_LOCATION := "B"; qd_PRODUCT := 1; qd_INVENTORY_CURVE_ID := 12;
              qd_CONSUMPTION_PROFILE_CURVE_ID := 100; qd_DATE := Some "2023-06-12" |}).
  - simpl. tauto.
  - now left.
  - right. now left.
  - discriminate.
  - reflexivity.
Defined.

Lemma shared_inventory_curve_raises_MergeError_witness :
  returned transform_qos_data (qos_data_shared_inventory, raw_qos_curves)
  = Raise MergeError.
Proof.
  apply (shared_inventory_curve_raises_MergeError
           qos_data_shared_inventory raw_qos_curves
           {| qd_LOCATION := "A"; qd_PRODUCT := 1; qd_INVENTORY_CURVE_ID := 11;
              qd_CONSUMPTION_PROFILE_CURVE_ID := 100; qd_DATE := Some "2023-06-12" |}
           {| qd_LOCATION := "A"; qd_PRODUCT := 2; qd_INVENTORY_CURVE_ID := 11;
              qd_CONSUMPTION_PROFILE_CURVE_ID := 100; qd_DATE := Some "2023-06-12" |}).
  - simpl. tauto.
  - now left.
  - right. now left.
  - discriminate.
  - reflexivity.
Defined.

Lemma two_curves_transformed :
  returned transform_qos_data (qos_data_two_curves, qos_curves_two_curves)
  = Ok (inventory_two_curves, consumption_flat).
Proof. vm_compute. reflexivity. Qed.

Lemma transform_qos_data_unique_curve_ids_witness :
  NoDup (map ic_INVENTORY_CURVE_ID (rows inventory_two_curves)) /\
  NoDup (map cc_CONSUMPTION_PROFILE_CURVE_ID (rows consumption_flat)).
Proof.
  exact (transform_qos_data_unique_curve_ids _ _ _ _ two_curves_transformed).
Defined.

Lemma qos_pipeline_returns_witness :
  exists qos,
    qos_pipeline qos_data_two_curves qos_curves_two_curves = Ok qos /\
    forall lw, In lw (map (fun r => (qs_LOCATION r, qs_WEEK_START r)) (rows qos)) <->
               In lw (map curve_location_week (rows consumption_flat)).
Proof.
  apply (qos_pipeline_returns qos_data_two_curves qos_curves_two_curves
           inventory_two_curves consumption_flat).
  - exact std_columns_qos_data.
  - exact std_columns_qos_curves.
  - exact two_curves_transformed.
  - intros c [<-|[<-|[]]]; accepted_samples.
  - intros c [<-|[]]; accepted_samples.
  - intros c [<-|[]]. apply is_unique_NoDup. reflexivity.
  - apply is_unique_NoDup. reflexivity.
Defined.

Lemma scenario_on_some_minutes :
  exists out,
    returned calc_product_availability_ratio (product_inventory_scenario, some_minutes)
    = Ok out.
Proof.
  eexists.
  apply (calc_product_availability_ratio_Ok product_inventory_scenario some_minutes
           pig_columns_same time_grid_columns_same).
  apply is_unique_NoDup. reflexivity.
Qed.

Lemma availability_ratio_bounds_witness :
  exists out,
    returned calc_product_availability_ratio (product_inventory_scenario, some_minutes)
    = Ok out /\
    forall r q, In r (rows out) -> pa_PA_RATIO r = Some q -> (0 <= q <= 1)%Q.
Proof.
  destruct scenario_on_some_minutes as [out HOk]. exists out. split; [exact HOk|].
  intros r q Hr Eq.
  destruct (availability_ratio_bounds _ _ _ HOk r q Hr Eq) as [H0 H1].
  split; [exact H0|]. apply H1. apply is_unique_NoDup. reflexivity.
Defined.

Lemma availability_ratio_null_iff_witness :
  exists out,
    returned calc_product_availability_ratio (product_inventory_scenario, some_minutes)
    = Ok out /\
    forall r, In r (rows out) ->
      pa_PA_RATIO r = None <->
      (forall g, In g (rows some_minutes) ->
         tg_LOCATION g = pa_LOCATION r -> tg_WEEK_START g = pa_WEEK_START r ->
         tg_X g <= pa_X r ->
         ~ In (time_point_minute g) (map inventory_minute (rows product_inventory_scenario))).
Proof.
  destruct scenario_on_some_minutes as [out HOk]. exists out. split; [exact HOk|].
  exact (availability_ratio_null_iff _ _ _ HOk).
Defined.

(** Two products of location A with a consumption profile each, both
    profiles in the same week. *)
Definition qos_data_two_profiles : DataFrame QosDataRow :=
  {| columns := qos_data_columns;
     rows := [ {| qd_LOCATION := "A"; qd_PRODUCT := 1; qd_INVENTORY_CURVE_ID := 11;
                  qd_CONSUMPTION_PROFILE_CURVE_ID := 100;
                  qd_DATE := Some "2023-06-12" |};
               {| qd_LOCATION := "A"; qd_PRODUCT := 2; qd_INVENTORY_CURVE_ID := 12;
                  qd_CONSUMPTION_PROFILE_CURVE_ID := 200;
                  qd_DATE := Some "2023-06-12" |} ] |}.

Definition qos_curves_two_profiles : DataFrame CurveRow :=
  {| columns := qos_curves_columns;
     rows := [ {| cv_CURVE_ID := 11; cv_CURVE_TYPE := "inventory";
                  cv_WEEK_START := "2023-06-12";
                  cv_X := [0; 10079]; cv_Y := [5; 5]%Q |};
               {| cv_CURVE_ID := 12; cv_CURVE_TYPE := "inventory";
                  cv_WEEK_START := "2023-06-12";
                  cv_X := [0; 10079]; cv_Y := [4; 4]%Q |};
               {| cv_CURVE_ID := 100; cv_CURVE_TYPE := "consumption_profile";
                  cv_WEEK_START := "2023-06-12";
                  cv_X := [0; 10079]; cv_Y := [0; 1]%Q |};
               {| cv_CURVE_ID := 200; cv_CURVE_TYPE := "consumption_profile";
                  cv_WEEK_START := "2023-06-12";
                  cv_X := [0; 10079]; cv_Y := [10; 10]%Q |} ] |}.

Definition inventory_two_products : DataFrame InventoryCurveRecord :=
  {| columns := inventory_columns;
     rows := [ {| ic_LOCATION := "A"; ic_PRODUCT := 1; ic_INVENTORY_CURVE_ID := 11;
                  ic_CONSUMPTION_PROFILE_CURVE_ID := 100;
                  ic_WEEK_START := "2023-06-12";
                  ic_X := [0; 10079]; ic_Y := [5; 5]%Q |};
               {| ic_LOCATION := "A"; ic_PRODUCT := 2; ic_INVENTORY_CURVE_ID := 12;
                  ic_CONSUMPTION_PROFILE_CURVE_ID := 200;
                  ic_WEEK_START := "2023-06-12";
                  ic_X := [0; 10079]; ic_Y := [4; 4]%Q |} ] |}.

Lemma two_profiles_transformed :
  returned transform_qos_data (qos_data_two_profiles, qos_curves_two_profiles)
  = Ok (inventory_two_products, shared_week_table).
Proof. vm_compute. reflexivity. Qed.

Lemma qos_pipeline_shared_location_week_witness :
  qos_pipeline qos_data_two_profiles qos_curves_two_profiles = Raise MergeError.
Proof.
  apply (qos_pipeline_shared_location_week qos_data_two_profiles qos_curves_two_profiles
           inventory_two_products shared_week_table).
  - exact std_columns_qos_data.
  - exact std_columns_qos_curves.
  - exact two_profiles_transformed.
  - intros c [<-|[<-|[]]]; accepted_samples.
  - apply is_unique_false. reflexivity.
Defined.

Lemma inventory_scenario_returned :
  returned create_product_inventory inventory_scenario = Ok product_inventory_scenario.
Proof. vm_compute. reflexivity. Qed.

Lemma inventory_grid_rows_of_records_witness :
  (exists c, In c (rows inventory_scenario) /\
     ic_INVENTORY_CURVE_ID c = 11 /\ ic_LOCATION c = "A" /\ ic_PRODUCT c = 1 /\
     ic_WEEK_START c = "2023-06-12" /\ 0 <= 5000) /\
  (exists c', In c' (rows inventory_scenario) /\
     ic_LOCATION c' = "A" /\ ic_WEEK_START c' = "2023-06-12" /\
     (Some 100 = Some (ic_CONSUMPTION_PROFILE_CURVE_ID c') \/
      Some 100 = Some (float64_of_int (ic_CONSUMPTION_PROFILE_CURVE_ID c'))) /\
     (Z.abs (ic_CONSUMPTION_PROFILE_CURVE_ID c') <= 2 ^ 53 ->
      Some 100 = Some (ic_CONSUMPTION_PROFILE_CURVE_ID c'))).
Proof.
  apply (inventory_grid_rows_of_records inventory_scenario product_inventory_scenario)
    with (r := scenario_row 5000 11 1 5).
  - apply is_unique_NoDup. reflexivity.
  - exact inventory_scenario_returned.
  - simpl. tauto.
Defined.

(** A consumption curve that lists minute 0 twice. *)
Definition repeated_minute_table : DataFrame ConsumptionCurveRecord :=
  {| columns := consumption_columns;
     rows := [ {| cc_LOCATION := "A"; cc_CONSUMPTION_PROFILE_CURVE_ID := 100;
                  cc_WEEK_START := "2023-06-12";
                  cc_X := [0; 0; 10079]; cc_Y := [0; 0; 1]%Q |} ] |}.

Lemma repeated_consumption_minute_raises_MergeError_witness :
  exists tpg cci,
    returned create_full_time_grid repeated_minute_table = Ok tpg /\
    returned interpolate_consumption_curves (repeated_minute_table, tpg) = Ok cci /\
    returned calc_quality_of_service (cci, two_minutes_availability) = Raise MergeError.
Proof.
  assert (Hgrid : returned create_full_time_grid repeated_minute_table
                  = Ok {| columns := time_grid_columns;
                          rows := flat_map grid_rows_of (rows repeated_minute_table) |}).
  { unfold returned.
    now rewrite (create_full_time_grid_Ok repeated_minute_table consumption_columns_same). }
  assert (Hacc : forall c, In c (rows repeated_minute_table) ->
                   accepted_sample (cc_X c) (cc_Y c)).
  { intros c [<-|[]]. accepted_samples. }
  assert (HOk := f_equal fst
                   (interpolate_consumption_curves_Ok repeated_minute_table
                      {| columns := time_grid_columns;
                         rows := flat_map grid_rows_of (rows repeated_minute_table) |}
                      Hacc)).
  cbn [fst] in HOk. eexists. eexists. split; [exact Hgrid|]. split; [exact HOk|].
  apply (repeated_consumption_minute_raises_MergeError repeated_minute_table _ _ _
           Hgrid HOk).
  - eexists. split; [now left|]. apply is_unique_false. reflexivity.
  - exact availability_columns_same.
Defined.

(** Two rows of an output file. *)
Definition api_rows : list ApiRow :=
  [ [("LOCATION", "A"); ("WEEK_START", "2023-06-12"); ("QOS", "0.75")];
    [("LOCATION", "B"); ("WEEK_START", "2023-06-12"); ("QOS", "0.5")] ].

(** Rows without a WEEK_START field. *)
Definition api_rows_without_week : list ApiRow :=
  [ [("LOCATION", "A"); ("QOS", "0.75")]; [("LOCATION", "B"); ("QOS", "0.5")] ].

Lemma get_qos_by_location_rows_witness :
  get_qos_by_location api_rows "A"
  = Ok [ [("LOCATION", "A"); ("WEEK_START", "2023-06-12"); ("QOS", "0.75")] ].
Proof.
  apply (get_qos_by_location_rows api_rows "A").
  intros i [<-|[<-|[]]]; eexists; reflexivity.
Defined.

Lemma get_qos_by_location_and_date_rows_witness :
  get_qos_by_location_and_date api_rows "A" "2023-06-12"
  = Ok [ [("LOCATION", "A"); ("WEEK_START", "2023-06-12"); ("QOS", "0.75")] ].
Proof.
  apply (get_qos_by_location_and_date_rows api_rows "A" "2023-06-12"
           [ [("LOCATION", "A"); ("WEEK_START", "2023-06-12"); ("QOS", "0.75")] ]
           api_rows); reflexivity.
Defined.

Lemma get_qos_by_location_and_date_unknown_location_witness :
  get_qos_by_location_and_date api_rows_without_week "C" "2023-06-12" = Ok [] /\
  get_qos_by_date api_rows_without_week "2023-06-12" = Raise KeyError.
Proof.
  destruct (get_qos_by_location_and_date_unknown_location
              api_rows_without_week "C" "2023-06-12") as [H1 H2].
  - intros i [<-|[<-|[]]]; eexists; reflexivity.
  - intros i [<-|[<-|[]]]; reflexivity.
  - split; [exact H1|]. apply H2.
    exists [("LOCATION", "A"); ("QOS", "0.75")]. split; [now left|].
    intros [v Ev]. discriminate Ev.
Defined.

(** The flat consumption curve of the raw tables with unordered minutes. *)
Definition consumption_flat_unordered : DataFrame ConsumptionCurveRecord :=
  {| columns := consumption_columns;
     rows := [ {| cc_LOCATION := "A"; cc_CONSUMPTION_PROFILE_CURVE_ID := 100;
                  cc_WEEK_START := "2023-06-12";
                  cc_X := [0; 10079; 5000];
                  cc_Y := [1 # 10080; 1 # 10080; 1 # 10080]%Q |} ] |}.

Lemma unordered_tables_transformed :
  returned transform_qos_data (qos_data_unordered, qos_curves_unordered)
  = Ok (inventory_unordered, consumption_flat_unordered).
Proof. vm_compute. reflexivity. Qed.

(** The pipeline returns a quality of service for the raw tables whose
    curves list minute 10079 before minute 5000. *)
Lemma unordered_minutes_pipeline_returns :
  exists qos, qos_pipeline qos_data_unordered qos_curves_unordered = Ok qos.
Proof.
  destruct (qos_pipeline_after_transform qos_data_unordered qos_curves_unordered
              inventory_unordered consumption_flat_unordered) as [qos [HOk _]].
  - exact unordered_tables_transformed.
  - apply same_column_set_spec. reflexivity.
  - exact consumption_columns_same.
  - intros c [<-|[]]. exact (proj1 unordered_minutes_accepted).
  - intros c [<-|[]]. accepted_samples.
  - intros c [<-|[]]. apply is_unique_NoDup. reflexivity.
  - apply is_unique_NoDup. reflexivity.
  - exists qos. exact HOk.
Qed.
